(** * Minesweeper leaderboard worker: the trust pipeline of [src/optimized.js]

    A shallow embedding of the server side of the worker (validators, rate
    limiter, admin-token check, behaviour analyser, cache, store adapter and
    the accept path of the leaderboard) together with the properties the
    specification states about them.

    Conventions of the embedding.
    - A finite JavaScript number is a rational [Q], next to [NaN] and the
      two infinities.  The conversion of a text to a number rounds to the
      nearest double; subtraction, multiplication and division are exact,
      which agrees with IEEE doubles as long as the integers involved stay
      below 2^53; negative zero is not distinguished from zero.
    - A JavaScript string is a [string] whose characters are its code units
      (code units below 256).
    - [Date.now()] is an argument [now] (milliseconds) of every operation
      that reads the clock; an ISO instant is represented by its epoch
      milliseconds.
    - An exception caught by [ErrorHandler.handleAsyncError] is written out
      as the fallback value the wrapper returns.  The operations of the
      durable store themselves do not fail.
    - A request is handled from start to end before the next one: the
      interleaving of concurrent requests is not modelled. *)

From Stdlib Require Import ZArith QArith Qround Qabs Lia Lqa Bool List.
From Stdlib Require Import Strings.String Strings.Ascii.
From stdpp Require Import base tactics option list sorting gmap strings.

Local Open Scope string_scope.
Local Open Scope Z_scope.

(** ** Numbers *)

Inductive JsNumber : Type :=
| NaN
| PosInf
| NegInf
| Fin (q : Q).

Definition Qlt_bool (x y : Q) : bool := negb (Qle_bool y x).

Definition JInt (z : Z) : JsNumber := Fin (inject_Z z).

Module Num.

(** [a < b]; every comparison with [NaN] is false. *)
Definition lt (a b : JsNumber) : bool :=
    match a, b with
    | NaN, _ | _, NaN => false
    | PosInf, _ => false
    | _, NegInf => false
    | NegInf, _ => true
    | _, PosInf => true
    | Fin x, Fin y => Qlt_bool x y
    end.

(** [a <= b]. *)
Definition le (a b : JsNumber) : bool :=
    match a, b with
    | NaN, _ | _, NaN => false
    | NegInf, _ => true
    | _, PosInf => true
    | PosInf, _ => false
    | _, NegInf => false
    | Fin x, Fin y => Qle_bool x y
    end.

Definition gt (a b : JsNumber) : bool := lt b a.
Definition ge (a b : JsNumber) : bool := le b a.

(** [a === b] on numbers. *)
Definition eqb (a b : JsNumber) : bool :=
    match a, b with
    | PosInf, PosInf | NegInf, NegInf => true
    | Fin x, Fin y => Qeq_bool x y
    | _, _ => false
    end.

Definition neg (a : JsNumber) : JsNumber :=
    match a with
    | NaN => NaN
    | PosInf => NegInf
    | NegInf => PosInf
    | Fin x => Fin (- x)
    end.

Definition add (a b : JsNumber) : JsNumber :=
    match a, b with
    | NaN, _ | _, NaN => NaN
    | PosInf, NegInf | NegInf, PosInf => NaN
    | PosInf, _ | _, PosInf => PosInf
    | NegInf, _ | _, NegInf => NegInf
    | Fin x, Fin y => Fin (x + y)
    end.

Definition sub (a b : JsNumber) : JsNumber := add a (neg b).

Definition infTimes (pos : bool) (x : Q) : JsNumber :=
    match (x ?= 0)%Q with
    | Eq => NaN
    | Gt => if pos then PosInf else NegInf
    | Lt => if pos then NegInf else PosInf
    end.

Definition mul (a b : JsNumber) : JsNumber :=
    match a, b with
    | NaN, _ | _, NaN => NaN
    | Fin x, Fin y => Fin (x * y)
    | Fin x, PosInf | PosInf, Fin x => infTimes true x
    | Fin x, NegInf | NegInf, Fin x => infTimes false x
    | PosInf, PosInf | NegInf, NegInf => PosInf
    | PosInf, NegInf | NegInf, PosInf => NegInf
    end.

Definition div (a b : JsNumber) : JsNumber :=
    match a, b with
    | NaN, _ | _, NaN => NaN
    | Fin x, Fin y =>
        if Qeq_bool y 0
        then match (x ?= 0)%Q with Eq => NaN | Gt => PosInf | Lt => NegInf end
        else Fin (x / y)
    | Fin _, _ => Fin 0
    | PosInf, Fin y => if Qlt_bool y 0 then NegInf else PosInf
    | NegInf, Fin y => if Qlt_bool y 0 then PosInf else NegInf
    | _, _ => NaN
    end.

Definition abs (a : JsNumber) : JsNumber :=
    match a with
    | NaN => NaN
    | PosInf | NegInf => PosInf
    | Fin x => Fin (Qabs x)
    end.

(** [Math.floor]. *)
Definition floor (a : JsNumber) : JsNumber :=
    match a with
    | Fin x => Fin (inject_Z (Qfloor x))
    | _ => a
    end.

(** [Math.min(a, b)] and [Math.max(a, b)]. *)
Definition min (a b : JsNumber) : JsNumber :=
    match a, b with
    | NaN, _ | _, NaN => NaN
    | _, _ => if le a b then a else b
    end.

Definition max (a b : JsNumber) : JsNumber :=
    match a, b with
    | NaN, _ | _, NaN => NaN
    | _, _ => if le a b then b else a
    end.

Definition isNaN (a : JsNumber) : bool :=
    match a with NaN => true | _ => false end.

Definition isFinite (a : JsNumber) : bool :=
    match a with Fin _ => true | _ => false end.

(** The test behind [Number.isInteger] once the argument is a number. *)
Definition isIntegral (a : JsNumber) : bool :=
    match a with
    | Fin x => Qeq_bool x (inject_Z (Qfloor x))
    | _ => false
    end.

Definition isZero (a : JsNumber) : bool :=
    match a with Fin x => Qeq_bool x 0 | _ => false end.

End Num.

(** ** Values *)

Inductive JsValue : Type :=
| VUndefined
| VNull
| VBool (b : bool)
| VNum (n : JsNumber)
| VStr (s : string).

(** ** Strings: white space, digits, [parseInt], string-to-number *)

Definition charCode (c : ascii) : Z := Z.of_N (N_of_ascii c).

(** White space and line terminators that [trim], [parseInt] and [Number]
    skip (those below 256). *)
Definition isWhite (c : ascii) : bool :=
  let n := charCode c in
  ((9 <=? n) && (n <=? 13)) || (n =? 32) || (n =? 160).

Fixpoint trimStart (s : string) : string :=
  match s with
  | String c r => if isWhite c then trimStart r else s
  | EmptyString => EmptyString
  end.

Fixpoint trimEnd (s : string) : string :=
  match s with
  | EmptyString => EmptyString
  | String c r =>
      match trimEnd r with
      | EmptyString => if isWhite c then EmptyString else String c EmptyString
      | r' => String c r'
      end
  end.

(** [s.trim()]. *)
Definition trim (s : string) : string := trimEnd (trimStart s).

(** Value of a character as a digit in radix up to 36. *)
Definition digitVal (c : ascii) : option Z :=
  let n := charCode c in
  if (48 <=? n) && (n <=? 57) then Some (n - 48)
  else if (97 <=? n) && (n <=? 122) then Some (n - 87)
  else if (65 <=? n) && (n <=? 90) then Some (n - 55)
  else None.

Definition digitIn (R : Z) (c : ascii) : option Z :=
  match digitVal c with
  | Some d => if d <? R then Some d else None
  | None => None
  end.

(** The longest prefix of radix-[R] digits, read from the left into [acc];
    [seen] tells whether a digit has been read. [None] is NaN. *)
Fixpoint digitsPrefix (R : Z) (s : string) (acc : Z) (seen : bool) : option Z :=
  match s with
  | String c r =>
      match digitIn R c with
      | Some d => digitsPrefix R r (acc * R + d) true
      | None => if seen then Some acc else None
      end
  | EmptyString => if seen then Some acc else None
  end.

Definition stripSign (s : string) : bool * string :=
  match s with
  | String "-" r => (true, r)
  | String "+" r => (false, r)
  | _ => (false, s)
  end.

Definition stripHexPrefix (s : string) : option string :=
  match s with
  | String "0" (String "x" r) | String "0" (String "X" r) => Some r
  | _ => None
  end.

(** [parseInt(s)] with no radix argument; [None] is NaN. *)
Definition parseInt (s : string) : option Z :=
  let '(negative, s1) := stripSign (trimStart s) in
  let v := match stripHexPrefix s1 with
           | Some r => digitsPrefix 16 r 0 false
           | None => digitsPrefix 10 s1 0 false
           end in
  option_map (fun z => if negative then - z else z) v.

(** A run of decimal digits: its value on top of [acc], its length, the rest. *)
Fixpoint spanDigits (s : string) (acc : Z) (len : Z) : Z * Z * string :=
  match s with
  | String c r =>
      match digitIn 10 c with
      | Some d => spanDigits r (acc * 10 + d) (len + 1)
      | None => (acc, len, s)
      end
  | EmptyString => (acc, len, s)
  end.

(** A string made of radix-[R] digits only, at least one. *)
Fixpoint allDigits (R : Z) (s : string) (acc : Z) (seen : bool) : option Z :=
  match s with
  | String c r =>
      match digitIn R c with
      | Some d => allDigits R r (acc * R + d) true
      | None => None
      end
  | EmptyString => if seen then Some acc else None
  end.

(** [m * 10^k] as a rational. *)
Definition scale10 (m k : Z) : Q :=
  if 0 <=? k then inject_Z (m * 10 ^ k) else Qmake m (Z.to_pos (10 ^ (- k))).

(** Exponent part [e[+-]digits] followed by the end of the string. *)
Definition exponentPart (s : string) : option Z :=
  match s with
  | EmptyString => Some 0
  | String c r =>
      if (charCode c =? 101) || (charCode c =? 69) then
        let '(negative, r1) := stripSign r in
        match allDigits 10 r1 0 false with
        | Some e => Some (if negative then - e else e)
        | None => None
        end
      else None
  end.

(** An unsigned decimal literal: digits, optional fraction, optional exponent. *)
Definition unsignedDecimal (s : string) : option Q :=
  let '(i, ilen, r1) := spanDigits s 0 0 in
  let '(m, flen, r2) :=
    match r1 with
    | String "." r => let '(m, l, r') := spanDigits r i 0 in (m, l, r')
    | _ => (i, 0, r1)
    end in
  if ilen + flen =? 0 then None
  else match exponentPart r2 with
       | Some e => Some (scale10 m (e - flen))
       | None => None
       end.

Definition nonDecimalPrefix (s : string) : option (Z * string) :=
  match s with
  | String "0" (String c r) =>
      let n := charCode c in
      if (n =? 120) || (n =? 88) then Some (16, r)
      else if (n =? 111) || (n =? 79) then Some (8, r)
      else if (n =? 98) || (n =? 66) then Some (2, r)
      else None
  | _ => None
  end.

(** ** Rounding to a double *)

(** [floor (log2 a)] for a rational [a > 0]. *)
Definition log2Floor (a : Q) : Z :=
  let n := Qnum a in
  let d := Z.pos (Qden a) in
  let k := Z.log2 n - Z.log2 d in
  if (if 0 <=? k then d * 2 ^ k <=? n else d <=? n * 2 ^ (- k)) then k else k - 1.

(** The integer nearest to [n / d] for [n >= 0] and [d > 0], ties to even. *)
Definition roundHalfEven (n d : Z) : Z :=
  let fl := n / d in
  match 2 * (n mod d) ?= d with
  | Lt => fl
  | Gt => fl + 1
  | Eq => if Z.even fl then fl else fl + 1
  end.

(** [m * 2^p], in lowest terms. *)
Definition scale2 (m p : Z) : Q :=
  if 0 <=? p then inject_Z (m * 2 ^ p) else Qred (Qmake m (Z.to_pos (2 ^ (- p)))).

(** The double nearest to the rational [q] (round to nearest, ties to
    even; 53 bits of precision, exponents from -1074 to 971), or an
    infinity from 2^1024 - 2^970 on.  An integer of at most 53 bits is a
    double. *)
Definition roundDouble (q : Q) : JsNumber :=
  if Qeq_bool q (inject_Z (Qfloor q)) && Qle_bool (Qabs q) (inject_Z (2 ^ 53))
  then Fin (inject_Z (Qfloor q))
  else
    let a := Qabs q in
    let e := log2Floor a in
    let p := Z.max (e - 52) (- 1074) in
    let m := if 0 <=? p then roundHalfEven (Qnum a) (Z.pos (Qden a) * 2 ^ p)
             else roundHalfEven (Qnum a * 2 ^ (- p)) (Z.pos (Qden a)) in
    let negative := Qlt_bool q 0 in
    if (0 <=? p) && (2 ^ 1024 <=? m * 2 ^ p)
    then (if negative then NegInf else PosInf)
    else Fin (if negative then - scale2 m p else scale2 m p).

(** [Number(s)] for a string [s]: the value of the literal, rounded to a
    double. *)
Definition StringToNumber (s : string) : JsNumber :=
  let t := trim s in
  match t with
  | EmptyString => Fin 0
  | _ =>
      match nonDecimalPrefix t with
      | Some (R, r) =>
          match allDigits R r 0 false with
          | Some v => roundDouble (inject_Z v)
          | None => NaN
          end
      | None =>
          let '(negative, u) := stripSign t in
          if String.eqb u "Infinity" then (if negative then NegInf else PosInf)
          else match unsignedDecimal u with
               | Some q => roundDouble (if negative then - q else q)
               | None => NaN
               end
      end
  end.

Definition ToNumber (v : JsValue) : JsNumber :=
  match v with
  | VUndefined => NaN
  | VNull => Fin 0
  | VBool b => if b then Fin 1 else Fin 0
  | VNum n => n
  | VStr s => StringToNumber s
  end.

(** Truthiness, as tested by [!v], [v ? a : b] and [a || b]. *)
Definition truthy (v : JsValue) : bool :=
  match v with
  | VUndefined | VNull => false
  | VBool b => b
  | VNum n => negb (Num.isNaN n || Num.isZero n)
  | VStr s => negb (String.eqb s EmptyString)
  end.

(** [a === b]. *)
Definition strictEq (a b : JsValue) : bool :=
  match a, b with
  | VUndefined, VUndefined | VNull, VNull => true
  | VBool x, VBool y => Bool.eqb x y
  | VNum x, VNum y => Num.eqb x y
  | VStr x, VStr y => String.eqb x y
  | _, _ => false
  end.

(** [Number.isInteger(v)]: false for everything that is not a number. *)
Definition Number_isInteger (v : JsValue) : bool :=
  match v with
  | VNum n => Num.isIntegral n
  | _ => false
  end.

(** The relational operators, used in the source only with a number on one
    side, so that both sides are converted to numbers. *)
Definition jsLt (a b : JsValue) : bool := Num.lt (ToNumber a) (ToNumber b).
Definition jsGt (a b : JsValue) : bool := Num.gt (ToNumber a) (ToNumber b).

(** ** Printing integers *)

Definition digitChar (d : Z) : ascii :=
  ascii_of_N (Z.to_N (if d <? 10 then 48 + d else 87 + d)).

(** Digits of [n >= 0] in radix [R], most significant first, in front of [acc]. *)
Fixpoint radixDigits (fuel : nat) (R n : Z) (acc : string) : string :=
  match fuel with
  | O => acc
  | S f =>
      let acc' := String (digitChar (n mod R)) acc in
      if n / R =? 0 then acc' else radixDigits f R (n / R) acc'
  end.

Definition radixString (R n : Z) : string :=
  radixDigits (S (Z.to_nat (Z.log2 n))) R n EmptyString.

(** [z.toString()] for an integer [z]. *)
Definition intToString (z : Z) : string :=
  if z <? 0 then String "-" (radixString 10 (- z)) else radixString 10 z.

(** [n.toString()] for the result of integer arithmetic on [parseInt]
    results, where [None] is NaN. *)
Definition countToString (n : option Z) : string :=
  match n with
  | Some z => intToString z
  | None => "NaN"
  end.

(** ** DataValidator *)

Inductive Difficulty : Type := Beginner | Intermediate | Expert.

Definition difficultyName (d : Difficulty) : string :=
  match d with
  | Beginner => "beginner"
  | Intermediate => "intermediate"
  | Expert => "expert"
  end.

(** The entry of a table keyed by the three difficulty names. *)
Definition difficultyOfKey (k : string) : option Difficulty :=
  if String.eqb k "beginner" then Some Beginner
  else if String.eqb k "intermediate" then Some Intermediate
  else if String.eqb k "expert" then Some Expert
  else None.

Inductive TimeReason : Type :=
| TimeNotNumeric        (* '时间必须是数字' *)
| TimeNotValidNumber    (* '时间必须是有效数字' *)
| TimeNotPositiveInt    (* '时间必须是正整数' *)
| TimeTooLarge.         (* '时间不能超过9999秒' *)

(** [DataValidator.validateTime(time)]: [inr numTime] when valid. *)
Definition validateTime (time : JsValue) : TimeReason + JsNumber :=
  match time with
  | VNum _ | VStr _ =>
      let numTime := ToNumber time in
      if Num.isNaN numTime || negb (Num.isFinite numTime) then inl TimeNotValidNumber
      else if negb (Num.eqb numTime (Num.floor numTime)) || Num.lt numTime (Fin 1)
      then inl TimeNotPositiveInt
      else if Num.gt numTime (Fin 9999) then inl TimeTooLarge
      else inr numTime
  | _ => inl TimeNotNumeric
  end.

Definition validTime (time : JsValue) : bool :=
  match validateTime time with inr _ => true | inl _ => false end.

(** ** The game-session claim *)

(** [timestamp]: absent, present but falsy, or a value for which
    [new Date(timestamp).getTime()] is [n]. *)
Inductive Timestamp : Type :=
| TsAbsent
| TsFalsy
| TsDate (n : JsNumber).

(** [boardSize]: absent, present but falsy, or a value whose [width] and
    [height] properties read as given. *)
Inductive BoardSize : Type :=
| BAbsent
| BFalsy
| BObj (width height : JsValue).

(** A field that is absent from the object reads as [VUndefined].
    [gd_difficulty] is the property key the [difficulty] field converts to. *)
Record GameData : Type := mkGameData {
  gd_difficulty : option string;
  gd_time : JsValue;
  gd_moves : JsValue;
  gd_gameId : JsValue;
  gd_timestamp : Timestamp;
  gd_boardSize : BoardSize;
  gd_mineCount : JsValue;
  gd_gameEndTime : JsValue;
  gd_firstClickTime : JsValue;
  gd_gameState : JsValue
}.

Definition present (v : JsValue) : bool :=
  match v with VUndefined => false | _ => true end.

(** [DataValidator.validateGameDataStructure]: every required field is in
    the object.  The result is the first missing field, if any. *)
Definition validateGameDataStructure (g : GameData) : option string :=
  if negb (bool_decide (is_Some (gd_difficulty g))) then Some "difficulty"
  else if negb (present (gd_time g)) then Some "time"
  else if negb (present (gd_moves g)) then Some "moves"
  else if negb (present (gd_gameId g)) then Some "gameId"
  else if match gd_timestamp g with TsAbsent => true | _ => false end then Some "timestamp"
  else if match gd_boardSize g with BAbsent => true | _ => false end then Some "boardSize"
  else if negb (present (gd_mineCount g)) then Some "mineCount"
  else if negb (present (gd_gameEndTime g)) then Some "gameEndTime"
  else if negb (present (gd_firstClickTime g)) then Some "firstClickTime"
  else if negb (present (gd_gameState g)) then Some "gameState"
  else None.

Inductive Severity : Type := SevNone | SevLow | SevMedium | SevHigh | SevCritical.

Inductive GameReason : Type :=
| MissingSessionInfo    (* '缺少关键游戏会话信息' *)
| NotWon                (* '游戏状态无效，只能提交获胜的游戏' *)
| SessionExpired        (* '游戏会话已过期（超过7天）' *)
| DurationMismatch      (* '游戏时长数据不一致，请重新开始游戏' *)
| BoardMismatch         (* '棋盘配置与难度不匹配' *)
| TooFewMoves           (* '移动次数过少…' *)
| TooManyMoves          (* '移动次数过多，可能存在异常操作' *)
| MovesTooFast          (* '操作速度超出人类极限' *)
| MovesTooSlow.         (* '操作速度过于缓慢，可能存在异常' *)

(** Names that every object inherits from [Object.prototype]: a table
    lookup with one of them yields a value without the table's fields. *)
Definition objectPrototypeKeys : list string :=
  [ "constructor"; "__proto__"; "hasOwnProperty"; "isPrototypeOf";
    "propertyIsEnumerable"; "toLocaleString"; "toString"; "valueOf";
    "__defineGetter__"; "__defineSetter__"; "__lookupGetter__";
    "__lookupSetter__" ].

Inductive TableLookup : Type :=
| Entry (d : Difficulty)
| Inherited
| NoEntry.

Definition lookupDifficulty (k : option string) : TableLookup :=
  match k with
  | None => NoEntry
  | Some k =>
      match difficultyOfKey k with
      | Some d => Entry d
      | None => if existsb (String.eqb k) objectPrototypeKeys then Inherited else NoEntry
      end
  end.

Definition expectedWidth (d : Difficulty) : Z :=
  match d with Beginner => 9 | Intermediate => 16 | Expert => 30 end.
Definition expectedHeight (d : Difficulty) : Z :=
  match d with Beginner => 9 | Intermediate => 16 | Expert => 16 end.
Definition expectedMines (d : Difficulty) : Z :=
  match d with Beginner => 10 | Intermediate => 40 | Expert => 99 end.
Definition minMoves (d : Difficulty) : Z :=
  match d with Beginner => 8 | Intermediate => 15 | Expert => 25 end.

Definition strictNeqNumber (v : JsValue) (z : Z) : bool :=
  negb (strictEq v (VNum (JInt z))).

(** [validateGameSession(gameData)] for an object [g]:
    [inr tt] when valid, otherwise the reason and the severity. *)
Definition validateGameSession (now : Z) (g : GameData)
  : (GameReason * Severity) + unit :=
  let gameStartTime :=
    match gd_timestamp g with TsDate n => Some n | _ => None end in
  let board :=
    match gd_boardSize g with BObj w h => Some (w, h) | _ => None end in
  match gameStartTime, board with
  | Some gameStartTime, Some (width, height) =>
      if negb (truthy (gd_gameId g)) || negb (truthy (gd_gameEndTime g))
         || negb (truthy (gd_firstClickTime g))
      then inl (MissingSessionInfo, SevCritical)
      else if negb (strictEq (gd_gameState g) (VStr "won")) then inl (NotWon, SevHigh)
      else if Num.gt (Num.sub (JInt now) gameStartTime) (JInt 604800000)
      then inl (SessionExpired, SevMedium)
      else
        let time := ToNumber (gd_time g) in
        let moves := ToNumber (gd_moves g) in
        let actualGameDuration :=
          Num.div (Num.sub (ToNumber (gd_gameEndTime g)) (ToNumber (gd_firstClickTime g)))
                  (JInt 1000) in
        let timeDifference := Num.abs (Num.sub actualGameDuration time) in
        if Num.gt timeDifference (JInt 60) then inl (DurationMismatch, SevHigh)
        else
          let lookup := lookupDifficulty (gd_difficulty g) in
          let mismatch :=
            match lookup with
            | NoEntry => true
            | Inherited =>
                present width || present height || present (gd_mineCount g)
            | Entry d =>
                strictNeqNumber width (expectedWidth d)
                || strictNeqNumber height (expectedHeight d)
                || strictNeqNumber (gd_mineCount g) (expectedMines d)
            end in
          if mismatch then inl (BoardMismatch, SevCritical)
          else
            let minimum :=
              match lookup with Entry d => JInt (minMoves d) | _ => NaN end in
            if Num.lt moves minimum then inl (TooFewMoves, SevCritical)
            else
              let maxMoves :=
                Num.mul (Num.mul (ToNumber width) (ToNumber height)) (JInt 2) in
              if Num.gt moves maxMoves then inl (TooManyMoves, SevMedium)
              else
                let avgTimePerMove := Num.div time moves in
                if Num.lt avgTimePerMove (Fin (5 # 100)) then inl (MovesTooFast, SevCritical)
                else if Num.gt avgTimePerMove (JInt 60) then inl (MovesTooSlow, SevLow)
                else inr tt
  | _, _ => inl (MissingSessionInfo, SevCritical)
  end.

(** ** Score reasonableness *)

Inductive ScoreReason : Type :=
| GameInvalid (r : GameReason)  (* the reason of [validateGameSession] *)
| ScoreTooFast                  (* '成绩过快，可能存在异常' *)
| ScoreOutOfRange               (* '成绩超出合理范围' *)
| BeatsWorldRecord              (* '成绩 … 超越了世界纪录 …' *)
| SuspiciousRound.              (* '检测到可疑的完美成绩，请重新游戏' *)

Definition minTimes (d : Difficulty) : Q :=
  match d with Beginner => 1 | Intermediate => 3 | Expert => 5 end.

Definition maxReasonableTimes (d : Difficulty) : Q :=
  match d with Beginner => 999 | Intermediate => 1999 | Expert => 2999 end.

Definition worldRecords (d : Difficulty) : Q :=
  match d with
  | Beginner => 49 # 100
  | Intermediate => 703 # 100
  | Expert => 31133 # 1000
  end.

(** [validateScoreReasonableness(time, difficulty, gameData)];
    [gameData = None] is the default [null]. *)
Definition validateScoreReasonableness (now : Z) (time : JsValue)
    (difficulty : Difficulty) (gameData : option GameData)
  : (ScoreReason * Severity) + unit :=
  let gameValidation :=
    match gameData with
    | Some g => validateGameSession now g
    | None => inr tt
    end in
  match gameValidation with
  | inl (reason, _) => inl (GameInvalid reason, SevCritical)
  | inr _ =>
      if jsLt time (VNum (Fin (minTimes difficulty))) then inl (ScoreTooFast, SevHigh)
      else if jsGt time (VNum (Fin (maxReasonableTimes difficulty)))
      then inl (ScoreOutOfRange, SevLow)
      else if jsLt time (VNum (Fin (worldRecords difficulty)))
      then inl (BeatsWorldRecord, SevCritical)
      else if Number_isInteger time
              && Num.lt (ToNumber time) (Num.mul (Fin (worldRecords difficulty)) (Fin 2))
      then inl (SuspiciousRound, SevMedium)
      else inr tt
  end.

Definition scoreRejected (r : (ScoreReason * Severity) + unit) : Prop :=
  match r with inl _ => True | inr _ => False end.

(** ** Stored data *)

(** A leaderboard entry.  [rec_time] is [parseInt(time)] when the entry is
    built and what [JSON.parse] gives back afterwards. *)
Record ScoreRecord : Type := mkScoreRecord {
  rec_username : string;
  rec_time : JsValue;
  rec_timestamp : Z;
  rec_gameId : JsValue;
  rec_moves : JsValue;
  rec_verified : bool
}.

(** Per-(username, difficulty) statistics of the behaviour analyser;
    [st_lastSubmission = None] is [null]. *)
Record UserStats : Type := mkUserStats {
  st_submissions : Z;
  st_bestTime : JsValue;
  st_averageTime : JsValue;
  st_totalTime : JsValue;
  st_lastSubmission : option Z;
  st_suspiciousCount : Z
}.

(** The objects the program serialises. *)
Inductive Data : Type :=
| DBoard (l : list ScoreRecord)
| DStats (s : UserStats).

(** What [JSON.parse(JSON.stringify(v))] makes of a value: NaN and the
    infinities become [null]. *)
Definition jsonValue (v : JsValue) : JsValue :=
  match v with
  | VNum (Fin q) => VNum (Fin q)
  | VNum _ => VNull
  | _ => v
  end.

Definition jsonRecord (r : ScoreRecord) : ScoreRecord :=
  mkScoreRecord (rec_username r) (jsonValue (rec_time r)) (rec_timestamp r)
                (jsonValue (rec_gameId r)) (jsonValue (rec_moves r)) (rec_verified r).

Definition jsonStats (s : UserStats) : UserStats :=
  mkUserStats (st_submissions s) (jsonValue (st_bestTime s))
              (jsonValue (st_averageTime s)) (jsonValue (st_totalTime s))
              (st_lastSubmission s) (st_suspiciousCount s).

Definition jsonData (d : Data) : Data :=
  match d with
  | DBoard l => DBoard (map jsonRecord l)
  | DStats s => DStats (jsonStats s)
  end.

(** A text held by the durable store: plain text (the counters and markers
    the program writes, or the empty text), or the output of
    [JSON.stringify] on a board or on statistics, represented by the value
    [JSON.parse] reads back from it. *)
Inductive KVText : Type :=
| Raw (s : string)
| Json (d : Data).

Definition JSON_stringify (d : Data) : KVText := Json (jsonData d).

(** [JSON.parse] of a text that is read as a board or as statistics;
    [None] when the text is plain.  The keys the program reads with
    [JSON.parse] are those it writes with [JSON.stringify]; a plain text
    under such a key that [JSON.parse] would accept (a number, [null]) is
    not modelled. *)
Definition JSON_parse (t : KVText) : option Data :=
  match t with
  | Json d => Some d
  | Raw _ => None
  end.

(** A string is truthy unless it is empty. *)
Definition textTruthy (t : KVText) : bool :=
  match t with
  | Raw s => negb (String.eqb s EmptyString)
  | Json _ => true
  end.

(** ** The durable store (the [LEADERBOARD] namespace) *)

Record KVEntry : Type := mkKVEntry {
  kv_text : KVText;
  kv_expires : option Z   (* epoch milliseconds, from [expirationTtl] *)
}.

(** [env.LEADERBOARD.get(key)]; [None] is [null]. *)
Definition kvGet (kv : gmap string KVEntry) (now : Z) (key : string) : option KVText :=
  match kv !! key with
  | Some e =>
      match kv_expires e with
      | Some t => if t <=? now then None else Some (kv_text e)
      | None => Some (kv_text e)
      end
  | None => None
  end.

(** [env.LEADERBOARD.put(key, text, { expirationTtl })], the TTL in seconds. *)
Definition kvPut (kv : gmap string KVEntry) (now : Z) (key : string)
    (text : KVText) (expirationTtl : option Z) : gmap string KVEntry :=
  <[ key := mkKVEntry text (option_map (fun s => now + s * 1000) expirationTtl) ]> kv.

(** ** CacheManager *)

Record CacheEntry : Type := mkCacheEntry {
  ce_data : Data;
  ce_expiry : Z;
  ce_created : Z;
  ce_lastAccessed : Z
}.

Record CacheStats : Type := mkCacheStats {
  cs_hits : Z;
  cs_misses : Z;
  cs_sets : Z;
  cs_evictions : Z
}.

Record CacheManager : Type := mkCacheManager {
  cm_cache : gmap string CacheEntry;
  cm_defaultTTL : Z;
  cm_stats : CacheStats
}.

(** [CacheManager.createCacheKey(...parts)] and
    [KVStorageManager.createKey(prefix, ...parts)]: the parts joined by ':'. *)
Fixpoint joinColon (parts : list string) : string :=
  match parts with
  | [] => EmptyString
  | [p] => p
  | p :: rest => p +:+ ":" +:+ joinColon rest
  end.

Definition createCacheKey (parts : list string) : string := joinColon parts.
Definition createKey (prefix : string) (parts : list string) : string :=
  prefix +:+ ":" +:+ joinColon parts.

(** [cache.get(key)]: the data ([None] is [null]) and the cache afterwards. *)
Definition cacheGet (c : CacheManager) (now : Z) (key : string)
  : option Data * CacheManager :=
  let st := cm_stats c in
  match cm_cache c !! key with
  | None =>
      (None, mkCacheManager (cm_cache c) (cm_defaultTTL c)
               (mkCacheStats (cs_hits st) (cs_misses st + 1) (cs_sets st) (cs_evictions st)))
  | Some e =>
      if ce_expiry e <? now then
        (None, mkCacheManager (delete key (cm_cache c)) (cm_defaultTTL c)
                 (mkCacheStats (cs_hits st) (cs_misses st + 1) (cs_sets st)
                               (cs_evictions st + 1)))
      else
        (Some (ce_data e),
         mkCacheManager
           (<[ key := mkCacheEntry (ce_data e) (ce_expiry e) (ce_created e) now ]> (cm_cache c))
           (cm_defaultTTL c)
           (mkCacheStats (cs_hits st + 1) (cs_misses st) (cs_sets st) (cs_evictions st)))
  end.

(** [cache.cleanup()]: drops the expired entries. *)
Definition cacheCleanup (c : CacheManager) (now : Z) : CacheManager :=
  let live := filter (fun kv => negb (ce_expiry kv.2 <? now) = true) (cm_cache c) in
  let cleaned := Z.of_nat (size (cm_cache c)) - Z.of_nat (size live) in
  let st := cm_stats c in
  mkCacheManager live (cm_defaultTTL c)
    (mkCacheStats (cs_hits st) (cs_misses st) (cs_sets st) (cs_evictions st + cleaned)).

(** [cache.set(key, data, ttl)]; [ttl || defaultTTL] also replaces 0. *)
Definition cacheSet (c : CacheManager) (now : Z) (key : string) (data : Data)
    (ttl : option Z) : CacheManager :=
  let ttl' := match ttl with
              | Some t => if t =? 0 then cm_defaultTTL c else t
              | None => cm_defaultTTL c
              end in
  let st := cm_stats c in
  let c' := mkCacheManager
              (<[ key := mkCacheEntry data (now + ttl') now now ]> (cm_cache c))
              (cm_defaultTTL c)
              (mkCacheStats (cs_hits st) (cs_misses st) (cs_sets st + 1) (cs_evictions st)) in
  if (cs_sets st + 1) mod 100 =? 0 then cacheCleanup c' now else c'.

(** [cache.delete(key)]. *)
Definition cacheDelete (c : CacheManager) (key : string) : CacheManager :=
  mkCacheManager (delete key (cm_cache c)) (cm_defaultTTL c) (cm_stats c).

(** The process: the durable store and [globalCache]. *)
Record World : Type := mkWorld {
  w_kv : gmap string KVEntry;
  w_cache : CacheManager
}.

(** ** The rolling hash of signatures and fingerprints *)

(** [ToInt32]: wrap-around to a signed 32-bit integer. *)
Definition toInt32 (z : Z) : Z := (z + 2 ^ 31) mod 2 ^ 32 - 2 ^ 31.

(** One round: [hash = ((hash << 5) - hash) + char; hash = hash & hash]. *)
Definition hashStep (hash : Z) (c : ascii) : Z :=
  toInt32 (toInt32 (Z.shiftl hash 5) - hash + charCode c).

Fixpoint hashLoop (data : string) (hash : Z) : Z :=
  match data with
  | EmptyString => hash
  | String c r => hashLoop r (hashStep hash c)
  end.

(** [Math.abs(hash).toString(36)] after the loop over [data]. *)
Definition hash36 (data : string) : string :=
  radixString 36 (Z.abs (hashLoop data 0)).

(** [generateTokenSignature(timestamp, adminKey)]. *)
Definition generateTokenSignature (timestamp adminKey : string) : string :=
  hash36 (timestamp +:+ ":" +:+ adminKey).

(** The body of the loop of [secureCompare]: the OR of the XORs. *)
Fixpoint xorFold (a b : string) (result : Z) : Z :=
  match a, b with
  | String x a', String y b' =>
      xorFold a' b' (Z.lor result (Z.lxor (charCode x) (charCode y)))
  | _, _ => result
  end.

(** [secureCompare(a, b)] on two strings. *)
Definition secureCompare (a b : string) : bool :=
  if negb (Nat.eqb (String.length a) (String.length b)) then false
  else xorFold a b 0 =? 0.

(** ** [atob] *)

Definition base64Val (c : ascii) : option Z :=
  let n := charCode c in
  if (65 <=? n) && (n <=? 90) then Some (n - 65)
  else if (97 <=? n) && (n <=? 122) then Some (n - 71)
  else if (48 <=? n) && (n <=? 57) then Some (n + 4)
  else if n =? 43 then Some 62
  else if n =? 47 then Some 63
  else None.

Definition isAsciiWhite (c : ascii) : bool :=
  let n := charCode c in
  (n =? 9) || (n =? 10) || (n =? 12) || (n =? 13) || (n =? 32).

Fixpoint dropAsciiWhite (s : string) : string :=
  match s with
  | EmptyString => EmptyString
  | String c r => if isAsciiWhite c then dropAsciiWhite r else String c (dropAsciiWhite r)
  end.

(** Removes one or two trailing '=' of a string whose length is a multiple of 4. *)
Definition dropPadding (s : string) : string :=
  if (Z.of_nat (String.length s)) mod 4 =? 0 then
    match String.rev s with
    | String "=" (String "=" r) => String.rev r
    | String "=" r => String.rev r
    | _ => s
    end
  else s.

Definition byteChar (z : Z) : ascii := ascii_of_N (Z.to_N (z mod 256)).

(** Decodes groups of four sextets into three bytes; a last group of two or
    three sextets gives one or two bytes, a single leftover sextet fails. *)
Fixpoint decodeSextets (l : list Z) : option string :=
  match l with
  | a :: b :: c :: d :: rest =>
      let n := a * 262144 + b * 4096 + c * 64 + d in
      option_map (fun r => String (byteChar (n / 65536))
                             (String (byteChar (n / 256)) (String (byteChar n) r)))
                 (decodeSextets rest)
  | [a; b; c] =>
      let n := a * 4096 + b * 64 + c in
      Some (String (byteChar (n / 1024)) (String (byteChar (n / 4)) EmptyString))
  | [a; b] => Some (String (byteChar ((a * 64 + b) / 16)) EmptyString)
  | [_] => None
  | [] => Some EmptyString
  end.

Fixpoint sextets (s : string) : option (list Z) :=
  match s with
  | EmptyString => Some []
  | String c r =>
      match base64Val c, sextets r with
      | Some v, Some l => Some (v :: l)
      | _, _ => None
      end
  end.

(** [atob(token)]; [None] when it throws. *)
Definition atob (token : string) : option string :=
  match sextets (dropPadding (dropAsciiWhite token)) with
  | Some l => decodeSextets l
  | None => None
  end.

(** ** Admin tokens *)

Inductive TokenReason : Type :=
| invalid_token_format
| invalid_token_structure
| token_expired
| invalid_signature
| token_already_used
| validation_error.

(** [decodedToken.split(':')] has exactly two parts: the text before and
    after the only ':'. *)
Fixpoint splitColon (s : string) : list string :=
  match s with
  | EmptyString => [EmptyString]
  | String c r =>
      if charCode c =? 58 then EmptyString :: splitColon r
      else match splitColon r with
           | p :: ps => String c p :: ps
           | [] => [String c EmptyString]
           end
  end.

(** [tokenAge > 300000 || tokenAge < 0] with [tokenAge = now - timestamp],
    where [timestamp = parseInt(timestampStr)] and [None] is NaN. *)
Definition tokenAgeRejected (now : Z) (timestamp : option Z) : bool :=
  let tokenAge := option_map (fun t => now - t) timestamp in
  match tokenAge with
  | Some age => (300000 <? age) || (age <? 0)
  | None => false
  end.

Definition usedTokenKey (token : string) : string := "security:used_token:" +:+ token.

(** [validateAdminToken(token, adminKey, env)]: [None] when valid, else the
    reason; and the store afterwards. *)
Definition validateAdminToken (token adminKey : string)
    (kv : gmap string KVEntry) (now : Z)
  : option TokenReason * gmap string KVEntry :=
  match atob token with
  | None => (Some invalid_token_format, kv)
  | Some decodedToken =>
      match splitColon decodedToken with
      | [timestampStr; signature] =>
          let timestamp := parseInt timestampStr in
          if tokenAgeRejected now timestamp then (Some token_expired, kv)
          else
            let expectedSignature := generateTokenSignature timestampStr adminKey in
            if negb (secureCompare signature expectedSignature)
            then (Some invalid_signature, kv)
            else
              let tokenKey := usedTokenKey token in
              match kvGet kv now tokenKey with
              | Some t =>
                  if textTruthy t then (Some token_already_used, kv)
                  else (None, kvPut kv now tokenKey (Raw "used") (Some 600))
              | None => (None, kvPut kv now tokenKey (Raw "used") (Some 600))
              end
      | _ => (Some invalid_token_structure, kv)
      end
  end.

(** The reason step (2) gives for a decoded token, or [None] when the
    token goes on to the signature check. *)
Definition timestampStep (now : Z) (timestampStr : string) : option TokenReason :=
  if tokenAgeRejected now (parseInt timestampStr) then Some token_expired else None.

(** ** Requests *)

Record Headers : Type := mkHeaders {
  h_ip : option string;              (* CF-Connecting-IP *)
  h_userAgent : option string;       (* User-Agent *)
  h_acceptLanguage : option string;  (* Accept-Language *)
  h_acceptEncoding : option string   (* Accept-Encoding *)
}.

(** [v || fallback] for a header value. *)
Definition orElse (v : option string) (fallback : string) : string :=
  match v with
  | Some s => if String.eqb s EmptyString then fallback else s
  | None => fallback
  end.

(** A header value inside a template literal: [null] prints as "null". *)
Definition templateHeader (v : option string) : string :=
  match v with Some s => s | None => "null" end.

(** [generateClientFingerprint(request)]. *)
Definition generateClientFingerprint (h : Headers) : string :=
  hash36 (orElse (h_ip h) "unknown" +:+ ":" +:+ orElse (h_userAgent h) EmptyString
          +:+ ":" +:+ orElse (h_acceptLanguage h) EmptyString +:+ ":"
          +:+ orElse (h_acceptEncoding h) EmptyString).

(** ** Rate limiter *)

Inductive LimitType : Type := LimitIp | LimitFingerprint | LimitGlobal.

Record RateCheck : Type := mkRateCheck {
  rc_key : string;
  rc_limit : Z;
  rc_type : LimitType
}.

Definition minuteOf (now : Z) : Z := now / 60000.

Definition rateLimitConfig (h : Headers) (now : Z) : list RateCheck :=
  let minute := intToString (minuteOf now) in
  [ mkRateCheck ("rate_limit:ip:" +:+ templateHeader (h_ip h) +:+ ":" +:+ minute) 20 LimitIp;
    mkRateCheck ("rate_limit:fingerprint:" +:+ generateClientFingerprint h +:+ ":" +:+ minute)
                15 LimitFingerprint;
    mkRateCheck ("rate_limit:global:" +:+ minute) 1000 LimitGlobal ].

Definition securityKey (check : RateCheck) : string := "security:" +:+ rc_key check.

(** [current ? parseInt(current) : 0]; [None] is NaN.  The text of a
    serialised object starts with a bracket or a brace, which is no digit. *)
Definition readCount (kv : gmap string KVEntry) (now : Z) (key : string) : option Z :=
  match kvGet kv now key with
  | Some (Raw s) => if String.eqb s EmptyString then Some 0 else parseInt s
  | Some (Json _) => None
  | None => Some 0
  end.

Record CheckResult : Type := mkCheckResult {
  cr_check : RateCheck;
  cr_count : option Z;
  cr_securityKey : string
}.

Definition checkResults (kv : gmap string KVEntry) (h : Headers) (now : Z)
  : list CheckResult :=
  map (fun check =>
         mkCheckResult check (readCount kv now (securityKey check)) (securityKey check))
      (rateLimitConfig h now).

(** [result.count >= result.limit]; false for NaN. *)
Definition overLimit (r : CheckResult) : bool :=
  match cr_count r with
  | Some c => rc_limit (cr_check r) <=? c
  | None => false
  end.

Inductive RateReason : Type :=
| TooFrequent   (* '请求过于频繁' *)
| SystemBusy.   (* '系统繁忙，请稍后重试', the fallback of the wrapper *)

Record RateLimitResult : Type := mkRateLimitResult {
  rl_allowed : bool;
  rl_remaining : option Z;     (* [None] is NaN *)
  rl_reason : option RateReason
}.

(** The details handed to [logSecurityEvent] on a rejection. *)
Record SecurityEvent : Type := mkSecurityEvent {
  ev_name : string;
  ev_type : LimitType;
  ev_count : option Z;
  ev_limit : Z;
  ev_severity : Severity
}.

(** The counters after [put(securityKey, (count + 1).toString(),
    { expirationTtl: 120 })] for every check. *)
Definition bumpCounters (kv : gmap string KVEntry) (now : Z) (rs : list CheckResult)
  : gmap string KVEntry :=
  fold_left (fun kv r =>
               kvPut kv now (cr_securityKey r)
                     (Raw (countToString (option_map (fun c => c + 1) (cr_count r))))
                     (Some 120))
            rs kv.

Definition isFingerprint (r : CheckResult) : bool :=
  match rc_type (cr_check r) with LimitFingerprint => true | _ => false end.

(** [checkRateLimit(request, env)], given what the identifier
    [logSecurityEvent] is bound to: [None] when no such function exists, in
    which case the call raises a ReferenceError that the wrapper turns into
    its fallback value. *)
Definition checkRateLimitWith
    (logSecurityEvent : option (SecurityEvent -> gmap string KVEntry -> gmap string KVEntry))
    (kv : gmap string KVEntry) (h : Headers) (now : Z)
  : RateLimitResult * gmap string KVEntry :=
  let results := checkResults kv h now in
  match find overLimit results with
  | Some result =>
      match logSecurityEvent with
      | Some log =>
          (mkRateLimitResult false (Some 0) (Some TooFrequent),
           log (mkSecurityEvent "rate_limit_exceeded" (rc_type (cr_check result))
                                (cr_count result) (rc_limit (cr_check result)) SevMedium) kv)
      | None => (mkRateLimitResult false (Some 0) (Some SystemBusy), kv)
      end
  | None =>
      let kv' := bumpCounters kv now results in
      match find isFingerprint results with
      | Some fingerprintResult =>
          (mkRateLimitResult true
             (option_map (fun c => rc_limit (cr_check fingerprintResult) - c - 1)
                         (cr_count fingerprintResult))
             None,
           kv')
      | None => (mkRateLimitResult false (Some 0) (Some SystemBusy), kv')
      end
  end.

(** The program defines no [logSecurityEvent]. *)
Definition checkRateLimit (kv : gmap string KVEntry) (h : Headers) (now : Z)
  : RateLimitResult * gmap string KVEntry :=
  checkRateLimitWith None kv h now.

(** ** Usernames *)

Inductive UsernameReason : Type :=
| NameNotString     (* '用户名必须是字符串' *)
| NameEmpty         (* '用户名不能为空' *)
| NameTooLong       (* '用户名长度不能超过16个字符' *)
| NameIllegalChars  (* '用户名包含非法字符' *)
| NameOnlySpecial   (* '用户名不能只包含特殊字符' *)
| NameHtml.         (* '用户名不能包含HTML标签' *)

Definition isSpecialChar (c : ascii) : bool :=
  let n := charCode c in (n =? 95) || (n =? 45) || isWhite c.

(** The class [a-zA-Z0-9一-龥_\-\s] on code units below 256. *)
Definition isAllowedChar (c : ascii) : bool :=
  let n := charCode c in
  ((97 <=? n) && (n <=? 122)) || ((65 <=? n) && (n <=? 90))
  || ((48 <=? n) && (n <=? 57)) || isSpecialChar c.

Fixpoint allChars (p : ascii -> bool) (s : string) : bool :=
  match s with
  | EmptyString => true
  | String c r => p c && allChars p r
  end.

Fixpoint containsChar (n : Z) (s : string) : bool :=
  match s with
  | EmptyString => false
  | String c r => (charCode c =? n) || containsChar n r
  end.

(** [/<[^>]*>/.test(s)]: a '<' with a '>' somewhere after it. *)
Fixpoint hasHtmlTag (s : string) : bool :=
  match s with
  | EmptyString => false
  | String c r => ((charCode c =? 60) && containsChar 62 r) || hasHtmlTag r
  end.

(** [DataValidator.validateUsername(username)]: [inr trimmed] when valid. *)
Definition validateUsername (username : JsValue) : UsernameReason + string :=
  match username with
  | VStr s =>
      if String.eqb s EmptyString then inl NameNotString
      else
        let trimmed := trim s in
        if Nat.eqb (String.length trimmed) 0 then inl NameEmpty
        else if (16 <? String.length trimmed)%nat then inl NameTooLong
        else if negb (allChars isAllowedChar trimmed) then inl NameIllegalChars
        else if allChars isSpecialChar trimmed then inl NameOnlySpecial
        else if hasHtmlTag trimmed then inl NameHtml
        else inr trimmed
  | _ => inl NameNotString
  end.

(** ** Sorting the board: [leaderboard.sort((a, b) => a.time - b.time)] *)

(** The comparator says that [a] goes after [b]: [a.time - b.time > 0].
    A NaN difference counts as zero. *)
Definition timeAfter (a b : ScoreRecord) : bool :=
  Num.gt (Num.sub (ToNumber (rec_time a)) (ToNumber (rec_time b))) (Fin 0).

(** The sort is stable: an element stays in front of the later elements it
    does not have to go after.  Written as an insertion sort; every stable
    sort gives this result when the comparator is consistent on the array,
    which it is when all times are numbers and also when the array holds
    one number and one NaN (all differences are then zero or NaN). *)
Fixpoint insertByTime (x : ScoreRecord) (l : list ScoreRecord) : list ScoreRecord :=
  match l with
  | [] => [x]
  | y :: l' => if timeAfter x y then y :: insertByTime x l' else x :: l
  end.

Fixpoint sortByTime (l : list ScoreRecord) : list ScoreRecord :=
  match l with
  | [] => []
  | x :: l' => insertByTime x (sortByTime l')
  end.

(** [l.findIndex(p)], [None] for -1. *)
Fixpoint findIndex {A : Type} (p : A -> bool) (l : list A) : option nat :=
  match l with
  | [] => None
  | x :: l' => if p x then Some O else option_map S (findIndex p l')
  end.

(** [l.slice(0, 20)]. *)
Definition top20 (l : list ScoreRecord) : list ScoreRecord := take 20 l.

(** ** Responses *)

Inductive ErrorCode : Type :=
| INVALID_DIFFICULTY
| RATE_LIMIT_EXCEEDED
| MISSING_GAME_DATA
| INVALID_USERNAME
| INVALID_TIME
| INVALID_GAME_DATA
| UNREASONABLE_SCORE
| SUSPICIOUS_BEHAVIOR
| DUPLICATE_GAME
| SERVER_ERROR.

(** [meta.submitted] and [meta.rateLimit] of a success body; a field the
    body does not carry is [None]. *)
Record Meta : Type := mkMeta {
  m_username : string;
  m_time : JsValue;
  m_improved : option bool;
  m_currentBest : option JsValue;
  m_rank : option Z;              (* [None] is [null] *)
  m_remaining : option (option Z)
}.

Inductive Response : Type :=
| ErrorResponse (code : ErrorCode) (status : Z)
| SuccessResponse (status : Z) (data : list ScoreRecord) (meta : Meta).

(** [createErrorResponse(code, message, status, request)]. *)
Definition createErrorResponse (code : ErrorCode) (status : Z) : Response :=
  ErrorResponse code status.

Definition responseStatus (r : Response) : Z :=
  match r with
  | ErrorResponse _ s => s
  | SuccessResponse s _ _ => s
  end.

Inductive GameDataField : Type :=
| GdFalsy
| GdNonObject
| GdObject (g : GameData).

Inductive Body : Type :=
| BodyUnparsable
| BodyFields (username time : JsValue) (gameData : GameDataField).

Record Request : Type := mkRequest {
  rq_headers : Headers;
  rq_pathTail : string;   (* [url.pathname.split('/').pop()] *)
  rq_body : Body
}.

Definition leaderboardKey (d : Difficulty) : string := "leaderboard:" +:+ difficultyName d.

(** [findIndex(...) + 1]. *)
Definition rankOf (name : string) (l : list ScoreRecord) : Z :=
  match findIndex (fun r => String.eqb (rec_username r) name) l with
  | Some i => Z.of_nat i + 1
  | None => 0
  end.

(** What the accept path does with the board it has read: reject a known
    game, keep the board when the user's record is not beaten, or write. *)
Inductive BoardDecision : Type :=
| Duplicate
| NotImproved (currentBest : JsValue)
| Write (board : list ScoreRecord).

(** [l.findIndex(p)] together with the element [l[index]]. *)
Fixpoint findEntry {A : Type} (p : A -> bool) (l : list A) : option (nat * A) :=
  match l with
  | [] => None
  | x :: l' => if p x then Some (O, x) else option_map (fun e => (S e.1, e.2)) (findEntry p l')
  end.

Definition decideBoard (leaderboard : list ScoreRecord) (scoreRecord : ScoreRecord)
  : BoardDecision :=
  if existsb (fun r => strictEq (rec_gameId r) (rec_gameId scoreRecord)) leaderboard
  then Duplicate
  else
    match findEntry (fun r => String.eqb (rec_username r) (rec_username scoreRecord))
                    leaderboard with
    | Some (existingIndex, existing) =>
        if jsLt (rec_time scoreRecord) (rec_time existing)
        then Write (top20 (sortByTime (<[ existingIndex := scoreRecord ]> leaderboard)))
        else NotImproved (rec_time existing)
    | None => Write (top20 (sortByTime (leaderboard ++ [scoreRecord])))
    end.

(** ** Operations that print a number *)

Section Runtime.

(** [Number.prototype.toString] on a number that is printed with a
    fraction or an exponent is not modelled: it is a parameter. *)
Variable fracToString : Q -> string.

(** [String(n)] for a number. *)
Definition NumberToString (n : JsNumber) : string :=
  match n with
  | NaN => "NaN"
  | PosInf => "Infinity"
  | NegInf => "-Infinity"
  | Fin q =>
      if Qeq_bool q (inject_Z (Qfloor q)) && Qlt_bool (Qabs q) (inject_Z (10 ^ 21))
      then intToString (Qfloor q)
      else fracToString q
  end.

Definition ToString (v : JsValue) : string :=
  match v with
  | VUndefined => "undefined"
  | VNull => "null"
  | VBool b => if b then "true" else "false"
  | VNum n => NumberToString n
  | VStr s => s
  end.

(** [a + b]: concatenation as soon as one side is a string. *)
Definition jsAdd (a b : JsValue) : JsValue :=
  match a, b with
  | VStr _, _ | _, VStr _ => VStr (ToString a +:+ ToString b)
  | _, _ => VNum (Num.add (ToNumber a) (ToNumber b))
  end.

(** [parseInt(v)]: the argument is converted to a string first. *)
Definition parseIntValue (v : JsValue) : JsNumber :=
  match parseInt (ToString v) with
  | Some z => JInt z
  | None => NaN
  end.

(** ** KVStorageManager *)

Definition kvCacheKey (key : string) : string := createCacheKey ["kv"; key].

(** [storage.safeGet(key, defaultValue, cacheTTL)].  The result comes with
    a flag telling whether the returned object is the very object the
    cache holds under the key (a later mutation of it shows in the cache). *)
Definition safeGet (useCache : bool) (w : World) (now : Z) (key : string)
    (defaultValue : Data) (cacheTTL : option Z) : Data * bool * World :=
  let '(cached, c1) :=
    if useCache then cacheGet (w_cache w) now (kvCacheKey key)
    else (None, w_cache w) in
  match cached with
  | Some d => (d, true, mkWorld (w_kv w) c1)
  | None =>
      match kvGet (w_kv w) now key with
      | None => (defaultValue, false, mkWorld (w_kv w) c1)
      | Some data =>
          let parsed := if textTruthy data then JSON_parse data else Some defaultValue in
          match parsed with
          | None => (defaultValue, false, mkWorld (w_kv w) c1)
          | Some result =>
              if useCache
              then (result, true,
                    mkWorld (w_kv w) (cacheSet c1 now (kvCacheKey key) result cacheTTL))
              else (result, false, mkWorld (w_kv w) c1)
          end
      end
  end.

(** [storage.safePut(key, value, { expirationTtl })]. *)
Definition safePut (useCache : bool) (w : World) (now : Z) (key : string)
    (value : Data) (expirationTtl : option Z) : bool * World :=
  let kv' := kvPut (w_kv w) now key (JSON_stringify value) expirationTtl in
  if useCache then
    let cacheTTL :=
      match expirationTtl with
      | Some t => if t =? 0 then None else Some (Z.min (t * 1000) 300000)
      | None => None
      end in
    (true, mkWorld kv' (cacheSet (w_cache w) now (kvCacheKey key) value cacheTTL))
  else (true, mkWorld kv' (w_cache w)).

(** ** Behaviour analyser *)

Definition defaultStats : UserStats :=
  mkUserStats 0 VNull (VNum (Fin 0)) (VNum (Fin 0)) None 0.

Definition frequentSubmissionWindow : Z := 300.
Definition maxSuspiciousCount : Z := 3.

Inductive BehaviorResult : Type :=
| TemporaryBlock                                  (* suspicious, 'temporary_block' *)
| NotSuspicious (stats : Data) (saveSuccess : bool).

Definition userStatsKey (username : string) (d : Difficulty) : string :=
  createKey "security" ["user_stats"; username; difficultyName d].

(** A mutation of the object the cache holds under [key]. *)
Definition cacheMutate (c : CacheManager) (key : string) (d : Data) : CacheManager :=
  match cm_cache c !! key with
  | Some e =>
      mkCacheManager
        (<[ key := mkCacheEntry d (ce_expiry e) (ce_created e) (ce_lastAccessed e) ]> (cm_cache c))
        (cm_defaultTTL c) (cm_stats c)
  | None => c
  end.

(** [(now - new Date(stats.lastSubmission).getTime()) / 1000], or Infinity. *)
Definition timeSinceLastSubmission (now : Z) (s : UserStats) : JsNumber :=
  match st_lastSubmission s with
  | Some t => Num.div (Num.sub (JInt now) (JInt t)) (JInt 1000)
  | None => PosInf
  end.

(** The statistics after the suspicion step, and whether the step blocks. *)
Definition suspicionStep (now : Z) (s : UserStats) : UserStats * bool :=
  if Num.lt (timeSinceLastSubmission now s) (JInt frequentSubmissionWindow) then
    let s' := mkUserStats (st_submissions s) (st_bestTime s) (st_averageTime s)
                          (st_totalTime s) (st_lastSubmission s)
                          (st_suspiciousCount s + 1) in
    (s', maxSuspiciousCount <? st_suspiciousCount s')
  else
    (mkUserStats (st_submissions s) (st_bestTime s) (st_averageTime s)
                 (st_totalTime s) (st_lastSubmission s)
                 (Z.max 0 (st_suspiciousCount s - 1)),
     false).

(** The update of the statistics with the submitted [time]. *)
Definition recordSubmission (now : Z) (time : JsValue) (s : UserStats) : UserStats :=
  let submissions := st_submissions s + 1 in
  let totalTime := jsAdd (st_totalTime s) time in
  mkUserStats submissions
    (if truthy (st_bestTime s)
     then VNum (Num.min (ToNumber (st_bestTime s)) (ToNumber time))
     else time)
    (VNum (Num.div (ToNumber totalTime) (JInt submissions)))
    totalTime (Some now) (st_suspiciousCount s).

(** [analyzeUserBehavior(username, time, difficulty, env)]. *)
Definition analyzeUserBehavior (username : string) (time : JsValue) (d : Difficulty)
    (w : World) (now : Z) : BehaviorResult * World :=
  let userKey := userStatsKey username d in
  let '(loaded, shared, w1) := safeGet true w now userKey (DStats defaultStats) None in
  match loaded with
  | DStats stats =>
      let '(stats1, blocked) := suspicionStep now stats in
      if blocked then
        (TemporaryBlock,
         if shared
         then mkWorld (w_kv w1) (cacheMutate (w_cache w1) (kvCacheKey userKey) (DStats stats1))
         else w1)
      else
        let stats2 := recordSubmission now time stats1 in
        let '(saveSuccess, w2) := safePut true w1 now userKey (DStats stats2) (Some 604800) in
        (NotSuspicious (DStats stats2) saveSuccess, w2)
  | DBoard l =>
      (* an array in place of the statistics: its named properties are not
         serialised, the array itself is written back *)
      let '(saveSuccess, w2) := safePut true w1 now userKey (DBoard l) (Some 604800) in
      (NotSuspicious (DBoard l) saveSuccess, w2)
  end.

(** ** The submission endpoint: [handleLeaderboardAPI] for a POST *)

(** The cache entries dropped after a write of the tier: the tier's own
    key, then the key of the store adapter (twice in the source, once
    through [storage.cache] and once through [globalCache], which are the
    same cache). *)
Definition invalidateTier (c : CacheManager) (d : Difficulty) : CacheManager :=
  let cacheKey := createCacheKey ["leaderboard"; difficultyName d] in
  let kvKey := createCacheKey ["kv"; leaderboardKey d] in
  cacheDelete (cacheDelete (cacheDelete c cacheKey) kvKey) kvKey.

(** [data ? JSON.parse(data) : []] for the tier's key; [None] when the
    text does not parse or is no array (the first use of the value raises). *)
Definition readBoard (w : World) (now : Z) (d : Difficulty) : option (list ScoreRecord) :=
  match kvGet (w_kv w) now (leaderboardKey d) with
  | None => Some []
  | Some data =>
      if textTruthy data
      then match JSON_parse data with
           | Some (DBoard l) => Some l
           | _ => None
           end
      else Some []
  end.

(** [scoreRecord]. *)
Definition newRecord (now : Z) (username : string) (time : JsValue) (g : GameData)
  : ScoreRecord :=
  mkScoreRecord (trim username) (VNum (parseIntValue time)) now
                (gd_gameId g) (gd_moves g) true.

(** The part of the handler after the behaviour analysis: the
    read-modify-write of the tier. *)
Definition acceptPath (w : World) (now : Z) (d : Difficulty) (username : string)
    (time : JsValue) (g : GameData) (remaining : option Z) : Response * World :=
  match readBoard w now d with
  | None => (createErrorResponse SERVER_ERROR 500, w)
  | Some leaderboard =>
      let trimmedUsername := trim username in
      let scoreRecord := newRecord now username time g in
      match decideBoard leaderboard scoreRecord with
      | Duplicate => (createErrorResponse DUPLICATE_GAME 400, w)
      | NotImproved currentBest =>
          let currentRank := rankOf trimmedUsername (top20 leaderboard) in
          (SuccessResponse 200 (map jsonRecord (top20 leaderboard))
             (mkMeta trimmedUsername (jsonValue (rec_time scoreRecord))
                     (Some false) (Some (jsonValue currentBest))
                     (if 0 <? currentRank then Some currentRank else None) None),
           w)
      | Write board =>
          let kv' := kvPut (w_kv w) now (leaderboardKey d) (JSON_stringify (DBoard board)) None in
          let cache' := invalidateTier (w_cache w) d in
          (SuccessResponse 200 (map jsonRecord board)
             (mkMeta trimmedUsername (jsonValue (rec_time scoreRecord))
                     None None (Some (rankOf trimmedUsername board)) (Some remaining)),
           mkWorld kv' cache')
      end
  end.

(** The POST branch, after the rate limiter has let the request pass with
    [remaining]. *)
Definition handlePost (w : World) (now : Z) (d : Difficulty) (body : Body)
    (remaining : option Z) : Response * World :=
  match body with
  | BodyUnparsable => (createErrorResponse SERVER_ERROR 500, w)
  | BodyFields username time gameData =>
      match gameData with
      | GdFalsy => (createErrorResponse MISSING_GAME_DATA 400, w)
      | GdNonObject =>
          match validateUsername username, validateTime time with
          | inl _, _ => (createErrorResponse INVALID_USERNAME 400, w)
          | _, inl _ => (createErrorResponse INVALID_TIME 400, w)
          | _, _ => (createErrorResponse INVALID_GAME_DATA 400, w)
          end
      | GdObject g =>
          match validateUsername username, validateTime time,
                validateGameDataStructure g with
          | inl _, _, _ => (createErrorResponse INVALID_USERNAME 400, w)
          | _, inl _, _ => (createErrorResponse INVALID_TIME 400, w)
          | _, _, Some _ => (createErrorResponse INVALID_GAME_DATA 400, w)
          | inr _, inr _, None =>
              match validateScoreReasonableness now time d (Some g) with
              | inl _ => (createErrorResponse UNREASONABLE_SCORE 400, w)
              | inr _ =>
                  let name := match username with VStr s => s | _ => EmptyString end in
                  match analyzeUserBehavior name time d w now with
                  | (TemporaryBlock, w1) => (createErrorResponse SUSPICIOUS_BEHAVIOR 429, w1)
                  | (NotSuspicious _ _, w1) => acceptPath w1 now d name time g remaining
                  end
              end
          end
      end
  end.

(** [handleLeaderboardAPI(request, env, url)] for a POST request: the
    difficulty from the path, the rate limiter, then the POST branch.
    ([DataValidator.validateDifficulty] is run on the same difficulty again
    and cannot fail.) *)
Definition handleLeaderboardAPI (w : World) (now : Z) (rq : Request)
  : Response * World :=
  match difficultyOfKey (rq_pathTail rq) with
  | None => (createErrorResponse INVALID_DIFFICULTY 400, w)
  | Some d =>
      let '(rateLimitResult, kv1) := checkRateLimit (w_kv w) (rq_headers rq) now in
      let w1 := mkWorld kv1 (w_cache w) in
      if negb (rl_allowed rateLimitResult)
      then (createErrorResponse RATE_LIMIT_EXCEEDED 429, w1)
      else handlePost w1 now d (rq_body rq) (rl_remaining rateLimitResult)
  end.

End Runtime.

(** ** Concrete inputs used by the examples below *)

Definition noFraction : Q -> string := fun _ => EmptyString.

Definition emptyCache : CacheManager :=
  mkCacheManager ∅ 60000 (mkCacheStats 0 0 0 0).

Definition emptyWorld : World := mkWorld ∅ emptyCache.

Definition someHeaders : Headers :=
  mkHeaders (Some "203.0.113.7") (Some "Mozilla/5.0") (Some "en") (Some "gzip").

(** A won game of [seconds] seconds on the board of [d], started at [start]. *)
Definition wonGame (d : Difficulty) (gameId : string) (seconds moves start : Z) : GameData :=
  mkGameData (Some (difficultyName d)) (VNum (JInt seconds)) (VNum (JInt moves))
             (VStr gameId) (TsDate (JInt start))
             (BObj (VNum (JInt (expectedWidth d))) (VNum (JInt (expectedHeight d))))
             (VNum (JInt (expectedMines d)))
             (VNum (JInt (start + 1000 + seconds * 1000))) (VNum (JInt (start + 1000)))
             (VStr "won").

(** A submission: the top-level [time] is given apart from the game's. *)
Definition submission (d : Difficulty) (username : string) (time : JsValue)
    (g : GameData) : Request :=
  mkRequest someHeaders (difficultyName d) (BodyFields (VStr username) time (GdObject g)).

Definition day0 : Z := 1700000000000.

Definition adminKey0 : string := "0123456789abcdef0123456789abcdef".

(** [btoa("abc:x")] and [btoa("abc:" + generateTokenSignature("abc", adminKey0))]. *)
Definition tokenBadSignature : string := "YWJjOng=".
Definition tokenNoTimestamp : string := "YWJjOmFyajFpZw==".

(** A store in which the address of [someHeaders] has made 20 requests in
    the minute of [day0]. *)
Definition storeAtIpLimit : gmap string KVEntry :=
  {[ "security:rate_limit:ip:203.0.113.7:28333333" :=
       mkKVEntry (Raw "20") (Some (day0 + 120000)) ]}.

(** The number of [cache.set] calls so far ([stats.sets]). *)
Definition cacheWrites (c : CacheManager) : Z := cs_sets (cm_stats c).

(** A store holding the statistics of "alice" on the beginner tier. *)
Definition aliceStats : UserStats :=
  mkUserStats 4 (VNum (JInt 50)) (VNum (JInt 60)) (VNum (JInt 240)) (Some day0) 3.

Definition storeWithStats : gmap string KVEntry :=
  {[ userStatsKey "alice" Beginner :=
       mkKVEntry (Json (DStats aliceStats)) (Some (day0 + 604800000)) ]}.

Definition worldWithStats : World := mkWorld storeWithStats emptyCache.

(** A cache that holds an entry under both keys derived from the beginner tier. *)
Definition warmCache : CacheManager :=
  mkCacheManager
    (<[ "leaderboard:beginner" := mkCacheEntry (DBoard []) (day0 + 60000) day0 day0 ]>
       (<[ "kv:leaderboard:beginner" := mkCacheEntry (DBoard []) (day0 + 30000) day0 day0 ]> ∅))
    60000 (mkCacheStats 0 0 2 0).

Definition warmWorld : World := mkWorld ∅ warmCache.

Definition firstSubmission : Request :=
  submission Beginner "alice" (VNum (JInt 3)) (wonGame Beginner "g1" 3 20 day0).

(** The cooldown of the behaviour analyser, in milliseconds. *)
Definition underCooldown (now : Z) (s : UserStats) : Prop :=
  exists t, st_lastSubmission s = Some t /\ now - t < frequentSubmissionWindow * 1000.

(** [tier[i].time <= tier[i+1].time], with the comparison of the language. *)
Definition timeLe (a b : ScoreRecord) : Prop :=
  Num.le (ToNumber (rec_time a)) (ToNumber (rec_time b)) = true.

Definition sortedByTime (l : list ScoreRecord) : Prop := Sorted timeLe l.

Definition numericTime (r : ScoreRecord) : Prop := exists q, rec_time r = VNum (Fin q).

(** The invariant of a stored tier. *)
Definition tierInvariant (l : list ScoreRecord) : Prop :=
  (length l <= 20)%nat /\ sortedByTime l /\ NoDup (map rec_username l).

Definition sameUser (name : string) (r : ScoreRecord) : bool :=
  String.eqb (rec_username r) name.

Definition sameGame (gameId : JsValue) (r : ScoreRecord) : bool :=
  strictEq (rec_gameId r) gameId.

(** A store whose beginner tier holds the record of "alice", 50 s. *)
Definition aliceRecord : ScoreRecord :=
  mkScoreRecord "alice" (VNum (JInt 50)) day0 (VStr "g0") (VNum (JInt 20)) true.

Definition worldWithBoard : World :=
  mkWorld {[ leaderboardKey Beginner := mkKVEntry (Json (DBoard [aliceRecord])) None ]}
          emptyCache.

(** Three submissions of "alice" on the beginner tier: a first game, then
    one and the same game [g1] twice, the second time with a better time. *)
Definition aliceGame0 : Request :=
  submission Beginner "alice" (VNum (JInt 50)) (wonGame Beginner "g0" 50 20 day0).
Definition aliceGame1Slow : Request :=
  submission Beginner "alice" (VNum (JInt 60)) (wonGame Beginner "g1" 60 20 day0).
Definition aliceGame1Fast : Request :=
  submission Beginner "alice" (VNum (JInt 40)) (wonGame Beginner "g1" 40 20 day0).

(** A submission of "bob" whose top-level [time] is the string ".5e1". *)
Definition bobStringTime : Request :=
  submission Beginner "bob" (VStr ".5e1") (wonGame Beginner "g2" 5 20 day0).

(** The states after [firstSubmission], then [bobStringTime], on an empty store. *)
Definition afterFirst : World :=
  (handleLeaderboardAPI noFraction emptyWorld (day0 + 10000) firstSubmission).2.
Definition afterBob : Response * World :=
  handleLeaderboardAPI noFraction afterFirst (day0 + 20000) bobStringTime.

(** A decimal digit. *)
Definition isDecDigit (c : ascii) : bool := (48 <=? charCode c) && (charCode c <=? 57).

(** The tier of [d] as the store holds it: absent, or a serialised board
    that satisfies the invariant and has numeric times. *)
Definition goodTier (w : World) (d : Difficulty) : Prop :=
  w_kv w !! leaderboardKey d = None
  \/ exists l, w_kv w !! leaderboardKey d = Some (mkKVEntry (Json (DBoard l)) None)
               /\ tierInvariant l /\ Forall numericTime l.

(** The top-level [time] of the request, when it has one, is of number type. *)
Definition numberTimed (rq : Request) : Prop :=
  match rq_body rq with
  | BodyFields _ (VNum _) _ => True
  | BodyFields _ _ _ => False
  | BodyUnparsable => True
  end.

(** The states reached from [w] by a sequence of POST requests, each with
    the time at which it is handled. *)
Fixpoint runRequests (fracToString : Q -> string) (w : World)
    (rqs : list (Z * Request)) : World :=
  match rqs with
  | [] => w
  | (now, rq) :: rest =>
      runRequests fracToString (handleLeaderboardAPI fracToString w now rq).2 rest
  end.

(** ** Further operations of the cache and of the store adapter *)

(** [cache.clear()]. *)
Definition cacheClear (c : CacheManager) : CacheManager :=
  mkCacheManager ∅ (cm_defaultTTL c) (mkCacheStats 0 0 0 0).

(** [ttl || this.defaultTTL], the lifetime [cache.set] gives an entry. *)
Definition effectiveTTL (c : CacheManager) (ttl : option Z) : Z :=
  match ttl with
  | Some t => if t =? 0 then cm_defaultTTL c else t
  | None => cm_defaultTTL c
  end.

(** The lifetime [safePut] asks of the cache for [options.expirationTtl]. *)
Definition putCacheTTL (expirationTtl : option Z) : option Z :=
  match expirationTtl with
  | Some t => if t =? 0 then None else Some (Z.min (t * 1000) 300000)
  | None => None
  end.

(** The store still holds at [now'] what was put at [now] with [expirationTtl]. *)
Definition storeAlive (now now' : Z) (expirationTtl : option Z) : Prop :=
  match expirationTtl with
  | Some t => now' < now + t * 1000
  | None => True
  end.

(** [parseInt(text)] as a number: the integer that is read, rounded to a
    double. *)
Definition parseIntNumber (s : string) : JsNumber :=
  match parseInt s with
  | Some z => roundDouble (inject_Z z)
  | None => NaN
  end.

(** [a + b] on two numbers: the exact sum, rounded to a double. *)
Definition addDouble (a b : JsNumber) : JsNumber :=
  match Num.add a b with
  | Fin q => roundDouble q
  | n => n
  end.

(** [current ? parseInt(current) : 0] for the text under [key].  The text
    of a serialised object starts with a bracket or a brace, which is no
    digit. *)
Definition currentCount (kv : gmap string KVEntry) (now : Z) (key : string) : JsNumber :=
  match kvGet kv now key with
  | Some (Raw s) => if String.eqb s EmptyString then Fin 0 else parseIntNumber s
  | Some (Json _) => NaN
  | None => Fin 0
  end.

(** The partial sums of [increments] on top of [c] stay safe integers (at
    most 2^53 in magnitude), and so do the increments. *)
Fixpoint safeSums (c : Z) (increments : list Z) : Prop :=
  match increments with
  | [] => True
  | i :: rest => Z.abs i <= 2 ^ 53 /\ Z.abs (c + i) <= 2 ^ 53 /\ safeSums (c + i) rest
  end.

Section Counter.

Variable fracToString : Q -> string.

(** [storage.atomicIncrement(key, increment, options)] for an [increment]
    that is a number: the new value and the store afterwards. *)
Definition atomicIncrement (kv : gmap string KVEntry) (now : Z) (key : string)
    (increment : JsNumber) (expirationTtl : option Z) : JsNumber * gmap string KVEntry :=
  let currentValue := currentCount kv now key in
  let newValue := addDouble currentValue increment in
  (newValue, kvPut kv now key (Raw (NumberToString fracToString newValue)) expirationTtl).

(** A sequence of increments of one key by integers, all at [now]. *)
Definition incrementAll (kv : gmap string KVEntry) (now : Z) (key : string)
    (increments : list Z) (expirationTtl : option Z) : gmap string KVEntry :=
  fold_left (fun kv i => (atomicIncrement kv now key (JInt i) expirationTtl).2) increments kv.

End Counter.

(** ** Cross-origin policy: [getAllowedOrigin] *)

(** [s.includes(sub)]. *)
Fixpoint includes (sub s : string) : bool :=
  String.prefix sub s
  || match s with
     | String _ r => includes sub r
     | EmptyString => false
     end.

Definition allowedOrigins : list string :=
  [ "https://cf-minesweeper.heartwopen.workers.dev";
    "https://test2.abo-vendor289.workers.dev" ].

Definition looksLocal (s : string) : bool :=
  includes "localhost" s || includes "127.0.0.1" s.

(** A header value is truthy when it is there and not empty. *)
Definition headerTruthy (v : option string) : bool :=
  match v with
  | Some s => negb (String.eqb s EmptyString)
  | None => false
  end.

(** [getAllowedOrigin(request)], from the [Origin] and [Host] headers. *)
Definition getAllowedOrigin (origin host : option string) : string :=
  match origin with
  | Some o =>
      if headerTruthy origin && looksLocal o then o
      else if negb (headerTruthy origin) && headerTruthy host
              && match host with Some h => looksLocal h | None => false end
      then "*"
      else if existsb (String.eqb o) allowedOrigins then o
      else "https://cf-minesweeper.heartwopen.workers.dev"
  | None =>
      if headerTruthy host && match host with Some h => looksLocal h | None => false end
      then "*"
      else "https://cf-minesweeper.heartwopen.workers.dev"
  end.

(** ** The admin endpoint: [handleAdminAPI] *)

Inductive AdminBody : Type :=
| NoStatsToday                 (* '今日暂无统计数据' *)
| DailyStats (date : string)   (* the report of the day [date] *)
| SecuritySummary.             (* '安全监控正常运行' *)

Inductive AdminResponse : Type :=
| MissingToken        (* 401 UNAUTHORIZED '缺少认证令牌' *)
| Misconfigured       (* 500 SERVER_ERROR '服务配置错误' *)
| AuthFailed          (* 401 UNAUTHORIZED '认证失败' *)
| StatsFailed         (* 500 SERVER_ERROR '获取统计失败' *)
| NoSuchAction        (* 404 NOT_FOUND '未找到管理功能' *)
| AdminOk (body : AdminBody).

Definition adminStatus (r : AdminResponse) : Z :=
  match r with
  | MissingToken | AuthFailed => 401
  | Misconfigured | StatsFailed => 500
  | NoSuchAction => 404
  | AdminOk _ => 200
  end.

(** The answers given once the token has been accepted. *)
Definition authenticated (r : AdminResponse) : bool :=
  match r with
  | MissingToken | Misconfigured | AuthFailed => false
  | StatsFailed | NoSuchAction | AdminOk _ => true
  end.

(** [s.substring(n)]. *)
Fixpoint substringFrom (n : nat) (s : string) : string :=
  match n, s with
  | O, _ => s
  | S n', String _ r => substringFrom n' r
  | S _, EmptyString => EmptyString
  end.

(** [handleAdminAPI(request, env, url)]: [authHeader] is the
    [Authorization] header, [ADMIN_KEY] the configured secret, [action] the
    last segment of the path and [today] the date part of
    [new Date().toISOString()]. *)
Definition handleAdminAPI (authHeader ADMIN_KEY : option string) (action today : string)
    (kv : gmap string KVEntry) (now : Z) : AdminResponse * gmap string KVEntry :=
  match authHeader with
  | None => (MissingToken, kv)
  | Some header =>
      if negb (String.prefix "Bearer " header) then (MissingToken, kv)
      else
        let providedToken := substringFrom 7 header in
        match ADMIN_KEY with
        | None => (Misconfigured, kv)
        | Some adminKey =>
            if String.eqb adminKey EmptyString then (Misconfigured, kv)
            else if (String.length adminKey <? 32)%nat then (Misconfigured, kv)
            else
              let '(reason, kv1) := validateAdminToken providedToken adminKey kv now in
              match reason with
              | Some _ => (AuthFailed, kv1)
              | None =>
                  if String.eqb action "stats" then
                    match kvGet kv1 now ("logs:daily_stats:" +:+ today) with
                    | None => (AdminOk NoStatsToday, kv1)
                    | Some statsData =>
                        if negb (textTruthy statsData) then (AdminOk NoStatsToday, kv1)
                        else match JSON_parse statsData with
                             | Some _ => (AdminOk (DailyStats today), kv1)
                             | None => (StatsFailed, kv1)
                             end
                    end
                  else if String.eqb action "security" then (AdminOk SecuritySummary, kv1)
                  else (NoSuchAction, kv1)
              end
        end
  end.

(** ** The read endpoint: [handleLeaderboardAPI] for a GET *)

Inductive GetResponse : Type :=
| GetError (code : ErrorCode) (status : Z)
| NotModified                                (* 304, no body *)
| GetSuccess (data : Data) (count : option nat) (remaining : option Z).

(** [leaderboard.length]: [undefined] for an object that is no array. *)
Definition dataLength (d : Data) : option nat :=
  match d with
  | DBoard l => Some (length l)
  | DStats _ => None
  end.

Section Reads.

(** The text [JSON.stringify] prints for an object is a parameter. *)
Variable jsonText : Data -> string.

(** [ResponseOptimizer.generateETag(data)] for an object. *)
Definition generateETag (data : Data) : string := hash36 (jsonText data).

(** [ResponseOptimizer.checkConditionalRequest(request, etag)]: whether
    the answer is the 304 response. *)
Definition checkConditionalRequest (ifNoneMatch : option string) (etag : string) : bool :=
  match ifNoneMatch with
  | Some v => headerTruthy ifNoneMatch && includes etag v
  | None => false
  end.

(** The GET branch, with the [If-None-Match] header of the request.  The
    body of the 200 answer is given by its [data], [meta.count] and
    [meta.rateLimit.remaining]. *)
Definition handleLeaderboardGET (w : World) (now : Z) (rq : Request)
    (ifNoneMatch : option string) : GetResponse * World :=
  match difficultyOfKey (rq_pathTail rq) with
  | None => (GetError INVALID_DIFFICULTY 400, w)
  | Some d =>
      let '(rateLimitResult, kv1) := checkRateLimit (w_kv w) (rq_headers rq) now in
      if negb (rl_allowed rateLimitResult)
      then (GetError RATE_LIMIT_EXCEEDED 429, mkWorld kv1 (w_cache w))
      else
        let '(cachedData, c1) :=
          cacheGet (w_cache w) now (createCacheKey ["leaderboard"; difficultyName d]) in
        let w1 := mkWorld kv1 c1 in
        if match cachedData with
           | Some cached => checkConditionalRequest ifNoneMatch (generateETag cached)
           | None => false
           end
        then (NotModified, w1)
        else
          let '(leaderboard, _, w2) :=
            safeGet true w1 now (leaderboardKey d) (DBoard []) (Some 30000) in
          (GetSuccess (jsonData leaderboard) (dataLength leaderboard)
                      (rl_remaining rateLimitResult),
           w2)
  end.

End Reads.

(** A request to the leaderboard endpoint with the time at which it is
    handled: a submission or a read. *)
Inductive Call : Type :=
| CallPost (now : Z) (rq : Request)
| CallGet (now : Z) (rq : Request) (ifNoneMatch : option string).

Definition runCall (fracToString : Q -> string) (jsonText : Data -> string)
    (w : World) (c : Call) : World :=
  match c with
  | CallPost now rq => (handleLeaderboardAPI fracToString w now rq).2
  | CallGet now rq inm => (handleLeaderboardGET jsonText w now rq inm).2
  end.

Definition runCalls (fracToString : Q -> string) (jsonText : Data -> string)
    (w : World) (calls : list Call) : World :=
  fold_left (runCall fracToString jsonText) calls w.

(** Every key of the cache is one of the store adapter. *)
Definition adapterKeysOnly (c : CacheManager) : Prop :=
  forall k, is_Some (cm_cache c !! k) -> exists key, k = kvCacheKey key.

(** ** ConcurrencyOptimizer *)

(** The counter [running] and the queue of tasks that wait. *)
Record ConcurrencyOptimizer (T : Type) : Type := mkConcurrencyOptimizer {
  co_maxConcurrency : Z;
  co_running : Z;
  co_queue : list T
}.
Arguments mkConcurrencyOptimizer {T} _ _ _.
Arguments co_maxConcurrency {T} _.
Arguments co_running {T} _.
Arguments co_queue {T} _.

(** [processQueue()] up to the call of the task: the task it starts, if any. *)
Definition processQueue {T : Type} (c : ConcurrencyOptimizer T)
  : option T * ConcurrencyOptimizer T :=
  if (co_maxConcurrency c <=? co_running c) || Nat.eqb (length (co_queue c)) 0
  then (None, c)
  else match co_queue c with
       | task :: rest =>
           (Some task, mkConcurrencyOptimizer (co_maxConcurrency c) (co_running c + 1) rest)
       | [] => (None, c)
       end.

(** [execute(task)]: the task joins the queue, then [processQueue()]. *)
Definition execute {T : Type} (c : ConcurrencyOptimizer T) (task : T)
  : option T * ConcurrencyOptimizer T :=
  processQueue (mkConcurrencyOptimizer (co_maxConcurrency c) (co_running c)
                                       (co_queue c ++ [task])%list).

(** The [finally] block run when a started task has settled. *)
Definition settle {T : Type} (c : ConcurrencyOptimizer T)
  : option T * ConcurrencyOptimizer T :=
  processQueue (mkConcurrencyOptimizer (co_maxConcurrency c) (co_running c - 1)
                                       (co_queue c)).

Inductive Event (T : Type) : Type :=
| Execute (task : T)
| Settle.
Arguments Execute {T} _.
Arguments Settle {T}.

(** A history of events; a task can only settle while one is running.  The
    result holds the tasks started so far, in the order of their start. *)
Fixpoint runEvents {T : Type} (c : ConcurrencyOptimizer T) (started : list T)
    (events : list (Event T)) : option (list T * ConcurrencyOptimizer T) :=
  match events with
  | [] => Some (started, c)
  | e :: rest =>
      match e with
      | Execute task =>
          let '(s, c') := execute c task in
          runEvents c' (started ++ match s with Some t => [t] | None => [] end)%list rest
      | Settle =>
          if 0 <? co_running c then
            let '(s, c') := settle c in
            runEvents c' (started ++ match s with Some t => [t] | None => [] end)%list rest
          else None
      end
  end.

(** The tasks submitted by a history. *)
Fixpoint submitted {T : Type} (events : list (Event T)) : list T :=
  match events with
  | [] => []
  | Execute task :: rest => task :: submitted rest
  | Settle :: rest => submitted rest
  end.

(** ** Further concrete inputs *)

(** [btoa("1700000000000:" + generateTokenSignature("1700000000000", adminKey0))]:
    a token issued at [day0]. *)
Definition tokenAtDay0 : string := "MTcwMDAwMDAwMDAwMDpzY3FqazA=".

(** The answers of the rate limiter to requests with the headers [h],
    handled one after the other at the given times. *)
Fixpoint rateRun (kv : gmap string KVEntry) (h : Headers) (times : list Z)
  : list RateLimitResult :=
  match times with
  | [] => []
  | t :: rest =>
      let '(r, kv') := checkRateLimit kv h t in
      r :: rateRun kv' h rest
  end.

(** The cached copy of a tier, when there is one, is a board that
    satisfies the invariant and has numeric times. *)
Definition goodCache (c : CacheManager) : Prop :=
  forall (d : Difficulty) (e : CacheEntry),
    cm_cache c !! kvCacheKey (leaderboardKey d) = Some e ->
    exists l, ce_data e = DBoard l /\ tierInvariant l /\ Forall numericTime l.

(** An answer to a read that, when it is a 200, carries a board that
    satisfies the invariant, with its length as [count]. *)
Definition goodAnswer (r : GetResponse) : Prop :=
  match r with
  | GetSuccess (DBoard l) count _ => tierInvariant l /\ count = Some (length l)
  | GetSuccess (DStats _) _ _ => False
  | _ => True
  end.

Definition numberTimedCall (c : Call) : Prop :=
  match c with
  | CallPost _ rq => numberTimed rq
  | CallGet _ _ _ => True
  end.

(** A digit of base 36 as [toString(36)] prints it. *)
Definition isBase36 (c : ascii) : bool :=
  isDecDigit c || ((97 <=? charCode c) && (charCode c <=? 122)).

(** A full tier: twenty users, named "1" to "20", with times 101 to 120. *)
Definition userRecord (i : Z) : ScoreRecord :=
  mkScoreRecord (intToString i) (VNum (JInt (100 + i))) day0 (VStr (intToString i))
                (VNum (JInt 20)) true.

Definition fullBoard : list ScoreRecord := map userRecord (seqZ 1 20).

Definition worldWithFullBoard : World :=
  mkWorld {[ leaderboardKey Beginner := mkKVEntry (Json (DBoard fullBoard)) None ]} emptyCache.

Definition bobRecord : ScoreRecord :=
  mkScoreRecord "bob" (VNum (JInt 40)) day0 (VStr "g1") (VNum (JInt 20)) true.

(** Two submissions of "alice", who holds a record of 50 s, whose top-level
    [time] is a string: "9e2" (900 as a number) and ".5e1" (5 as a number). *)
Definition aliceSlowString : Request :=
  submission Beginner "alice" (VStr "9e2") (wonGame Beginner "g1" 900 20 day0).
Definition aliceFastString : Request :=
  submission Beginner "alice" (VStr ".5e1") (wonGame Beginner "g2" 5 20 day0).


(** * Properties *)

(** ** Comparisons *)

Lemma Qlt_bool_iff (x y : Q) : Qlt_bool x y = true <-> (x < y)%Q.
Proof.
  unfold Qlt_bool. rewrite negb_true_iff. split.
  - intros H. apply Qnot_le_lt. intros Hle.
    apply Qle_bool_iff in Hle. congruence.
  - intros H. destruct (Qle_bool y x) eqn:E; [|reflexivity].
    apply Qle_bool_iff in E. exfalso. apply (Qlt_not_le _ _ H E).
Qed.

Lemma Qlt_bool_false_iff (x y : Q) : Qlt_bool x y = false <-> (y <= x)%Q.
Proof.
  unfold Qlt_bool. rewrite negb_false_iff. apply Qle_bool_iff.
Qed.

Lemma lt_JInt (a b : Z) : Num.lt (JInt a) (JInt b) = (a <? b).
Proof.
  unfold JInt; simpl. destruct (a <? b) eqn:E.
  - apply Qlt_bool_iff. rewrite <- Zlt_Qlt. lia.
  - apply Qlt_bool_false_iff. rewrite <- Zle_Qle. lia.
Qed.

Lemma le_JInt (a b : Z) : Num.le (JInt a) (JInt b) = (a <=? b).
Proof.
  unfold JInt; simpl. destruct (a <=? b) eqn:E.
  - apply Qle_bool_iff. rewrite <- Zle_Qle. lia.
  - destruct (Qle_bool (inject_Z a) (inject_Z b)) eqn:F; [|reflexivity].
    apply Qle_bool_iff in F. rewrite <- Zle_Qle in F. lia.
Qed.

(** ** Score-magnitude validation *)

Lemma score_checks_unfold (now : Z) (time : JsValue) (d : Difficulty)
    (gameData : option GameData) (q : Q) :
  ToNumber time = Fin q ->
  match gameData with Some g => validateGameSession now g = inr tt | None => True end ->
  validateScoreReasonableness now time d gameData =
    if Qlt_bool q (minTimes d) then inl (ScoreTooFast, SevHigh)
    else if Qlt_bool (maxReasonableTimes d) q then inl (ScoreOutOfRange, SevLow)
    else if Qlt_bool q (worldRecords d) then inl (BeatsWorldRecord, SevCritical)
    else if Number_isInteger time && Qlt_bool q (worldRecords d * 2)
    then inl (SuspiciousRound, SevMedium)
    else inr tt.
Proof.
  intros Hq Hg. unfold validateScoreReasonableness, jsLt, jsGt, Num.gt.
  assert (Hgv : match gameData with
                | Some g => validateGameSession now g
                | None => inr tt
                end = inr tt).
  { destruct gameData; [exact Hg | reflexivity]. }
  rewrite Hgv. simpl ToNumber. rewrite Hq. reflexivity.
Qed.

Lemma score_game_invalid (now : Z) (time : JsValue) (d : Difficulty)
    (g : GameData) (r : GameReason) (s : Severity) :
  validateGameSession now g = inl (r, s) ->
  validateScoreReasonableness now time d (Some g) = inl (GameInvalid r, SevCritical).
Proof.
  intros H. unfold validateScoreReasonableness. rewrite H. reflexivity.
Qed.

Lemma game_passes_or_rejects (now : Z) (time : JsValue) (d : Difficulty)
    (gameData : option GameData) :
  scoreRejected (validateScoreReasonableness now time d gameData)
  \/ match gameData with Some g => validateGameSession now g = inr tt | None => True end.
Proof.
  destruct gameData as [g|]; [|right; exact I].
  destruct (validateGameSession now g) as [[r s]|[]] eqn:E.
  - left. rewrite (score_game_invalid _ _ _ _ _ _ E). exact I.
  - right. reflexivity.
Qed.

Lemma isInteger_JInt (z : Z) : Number_isInteger (VNum (JInt z)) = true.
Proof.
  unfold Number_isInteger, JInt, Num.isIntegral. rewrite Qfloor_Z. apply Qeq_bool_refl.
Qed.

(** The magnitude checks, for every value of [time] whose conversion is a
    finite number [q]: a time below the floor of its difficulty (1/3/5 s),
    above its ceiling (999/1999/2999 s) or below the world-record reference
    (0.49/7.03/31.133 s) is rejected whatever the other fields are; a time
    below twice the world record is rejected when [Number.isInteger(time)]
    holds, which it does for integers of number type only.  When the game
    data pass, the four rejections carry their own reason and severity. *)
Lemma score_magnitude_bounds :
  forall (now : Z) (d : Difficulty) (gameData : option GameData)
         (time : JsValue) (q : Q),
    ToNumber time = Fin q ->
    let result := validateScoreReasonableness now time d gameData in
    ((q < minTimes d)%Q -> scoreRejected result)
    /\ ((maxReasonableTimes d < q)%Q -> scoreRejected result)
    /\ ((q < worldRecords d)%Q -> scoreRejected result)
    /\ (Number_isInteger time = true -> (q < worldRecords d * 2)%Q -> scoreRejected result)
    /\ (match gameData with Some g => validateGameSession now g = inr tt | None => True end ->
        ((q < minTimes d)%Q -> result = inl (ScoreTooFast, SevHigh))
        /\ ((minTimes d <= q)%Q -> (maxReasonableTimes d < q)%Q ->
            result = inl (ScoreOutOfRange, SevLow))
        /\ ((minTimes d <= q)%Q -> (q <= maxReasonableTimes d)%Q ->
            (q < worldRecords d)%Q -> result = inl (BeatsWorldRecord, SevCritical))
        /\ (Number_isInteger time = true ->
            (minTimes d <= q)%Q -> (q <= maxReasonableTimes d)%Q ->
            (worldRecords d <= q)%Q -> (q < worldRecords d * 2)%Q ->
            result = inl (SuspiciousRound, SevMedium))).
Proof.
  intros now d gameData time q Hq result.
  assert (Hrej : forall P : Prop,
             (match gameData with
              | Some g => validateGameSession now g = inr tt
              | None => True
              end -> P -> scoreRejected result) -> P -> scoreRejected result).
  { intros P HP p.
    destruct (game_passes_or_rejects now time d gameData) as [H|H]; [exact H|].
    exact (HP H p). }
  assert (Hunfold := score_checks_unfold now time d gameData q Hq).
  fold result in Hunfold.
  repeat split.
  - apply Hrej. intros Hg Hlt. rewrite (Hunfold Hg).
    apply Qlt_bool_iff in Hlt. rewrite Hlt. exact I.
  - apply Hrej. intros Hg Hlt. rewrite (Hunfold Hg).
    apply Qlt_bool_iff in Hlt. rewrite Hlt.
    destruct (Qlt_bool q (minTimes d)); exact I.
  - apply Hrej. intros Hg Hlt. rewrite (Hunfold Hg).
    apply Qlt_bool_iff in Hlt. rewrite Hlt.
    destruct (Qlt_bool q (minTimes d)); [exact I|].
    destruct (Qlt_bool (maxReasonableTimes d) q); exact I.
  - intros Hint. apply Hrej. intros Hg Hlt. rewrite (Hunfold Hg).
    apply Qlt_bool_iff in Hlt. rewrite Hlt, Hint.
    destruct (Qlt_bool q (minTimes d)); [exact I|].
    destruct (Qlt_bool (maxReasonableTimes d) q); [exact I|].
    destruct (Qlt_bool q (worldRecords d)); exact I.
  - intros Hlt. rewrite (Hunfold H). apply Qlt_bool_iff in Hlt. rewrite Hlt. reflexivity.
  - intros Hmin Hmax. rewrite (Hunfold H).
    apply Qlt_bool_false_iff in Hmin. apply Qlt_bool_iff in Hmax.
    rewrite Hmin, Hmax. reflexivity.
  - intros Hmin Hmax Hwr. rewrite (Hunfold H).
    apply Qlt_bool_false_iff in Hmin. apply Qlt_bool_false_iff in Hmax.
    apply Qlt_bool_iff in Hwr. rewrite Hmin, Hmax, Hwr. reflexivity.
  - intros Hint Hmin Hmax Hwr Hwr2. rewrite (Hunfold H).
    apply Qlt_bool_false_iff in Hmin. apply Qlt_bool_false_iff in Hmax.
    apply Qlt_bool_false_iff in Hwr. apply Qlt_bool_iff in Hwr2.
    rewrite Hmin, Hmax, Hwr, Hwr2, Hint. reflexivity.
Qed.

(** ** Round times and the type of the submitted time *)

Lemma validateTime_number (n m : JsNumber) :
  validateTime (VNum n) = inr m ->
  exists q, n = Fin q /\ m = Fin q /\ Number_isInteger (VNum n) = true
            /\ (1 <= q)%Q /\ (q <= 9999)%Q.
Proof.
  unfold validateTime. simpl ToNumber.
  destruct n as [| | |q]; simpl; try discriminate.
  destruct (Qeq_bool q (inject_Z (Qfloor q))) eqn:Eint; simpl; [|discriminate].
  destruct (Qlt_bool q 1) eqn:E1; simpl; [discriminate|].
  unfold Num.gt; simpl.
  destruct (Qlt_bool 9999 q) eqn:E2; [discriminate|].
  intros H. injection H as <-. exists q.
  apply Qlt_bool_false_iff in E1. apply Qlt_bool_false_iff in E2.
  repeat split; auto.
Qed.

(** A time of number type that passes [validateTime] is rejected by the
    score validation when it is at most 14 s (intermediate) or 62 s (expert). *)
Lemma number_time_round_rejected (now : Z) (d : Difficulty) (g : option GameData)
    (n m : JsNumber) (q : Q) :
  validateTime (VNum n) = inr m -> n = Fin q ->
  (d = Intermediate /\ (q <= 14)%Q) \/ (d = Expert /\ (q <= 62)%Q) ->
  scoreRejected (validateScoreReasonableness now (VNum n) d g).
Proof.
  intros Hv Hn Hd.
  destruct (validateTime_number n m Hv) as (q' & Hq' & _ & Hint & _ & _).
  rewrite Hn in Hq'. injection Hq' as <-.
  destruct (game_passes_or_rejects now (VNum n) d g) as [H|H]; [exact H|].
  rewrite (score_checks_unfold now (VNum n) d g q); [|rewrite Hn; reflexivity|exact H].
  rewrite Hint.
  assert (Hlt : Qlt_bool q (worldRecords d * 2) = true).
  { apply Qlt_bool_iff.
    destruct Hd as [[-> Hq]|[-> Hq]]; simpl;
      (eapply Qle_lt_trans; [exact Hq|reflexivity]). }
  rewrite Hlt. cbn [andb].
  repeat match goal with
         | |- context [if ?b then _ else _] => destruct b
         end; exact I.
Qed.

(** No integer time from 1 s on is a suspicious round time for a beginner. *)
Lemma beginner_never_round (now : Z) (g : option GameData) (time : JsValue) (q : Q)
    (s : Severity) :
  ToNumber time = Fin q -> (1 <= q)%Q ->
  validateScoreReasonableness now time Beginner g <> inl (SuspiciousRound, s).
Proof.
  intros Hq H1.
  destruct g as [g|].
  - destruct (validateGameSession now g) as [[r sv]|[]] eqn:E.
    + rewrite (score_game_invalid _ _ _ _ _ _ E). discriminate.
    + rewrite (score_checks_unfold now time Beginner (Some g) q Hq E).
      assert (Hge : Qlt_bool q (worldRecords Beginner * 2) = false).
      { apply Qlt_bool_false_iff. eapply Qle_trans; [|exact H1]. discriminate. }
      rewrite Hge, andb_false_r.
      repeat match goal with
             | |- context [if ?b then _ else _] => destruct b
             end; discriminate.
  - rewrite (score_checks_unfold now time Beginner None q Hq I).
    assert (Hge : Qlt_bool q (worldRecords Beginner * 2) = false).
    { apply Qlt_bool_false_iff. eapply Qle_trans; [|exact H1]. discriminate. }
    rewrite Hge, andb_false_r.
    repeat match goal with
           | |- context [if ?b then _ else _] => destruct b
           end; discriminate.
Qed.

(** C10.  The code at the failing input: an intermediate claim of 10 s
    whose top-level [time] is the string "10" passes [validateTime] and the
    score validation ([Number.isInteger] is false for a string), and is
    stored with time 10, although 10 s is below twice the world record. *)
Theorem string_time_escapes_round_check :
  forall fracToString : Q -> string,
    validateTime (VStr "10") = inr (Fin 10)
    /\ validateScoreReasonableness (day0 + 20000) (VStr "10") Intermediate
         (Some (wonGame Intermediate "g1" 10 40 day0)) = inr tt
    /\ exists w' meta,
         handleLeaderboardAPI fracToString emptyWorld (day0 + 20000)
           (submission Intermediate "alice" (VStr "10") (wonGame Intermediate "g1" 10 40 day0))
         = (SuccessResponse 200
              [mkScoreRecord "alice" (VNum (Fin 10)) (day0 + 20000) (VStr "g1")
                             (VNum (Fin 40)) true] meta, w')
         /\ m_rank meta = Some 1.
Proof.
  intros fracToString. split; [reflexivity|]. split; [reflexivity|].
  eexists. eexists. split; [vm_compute; reflexivity|reflexivity].
Qed.

(** ** Admin tokens: the timestamp step *)

(** A numeric timestamp fails the step exactly outside [now - 300000, now]. *)
Lemma timestamp_window (now t : Z) (timestampStr : string) :
  parseInt timestampStr = Some t ->
  (timestampStep now timestampStr = Some token_expired
   <-> ~ (now - 300000 <= t <= now)).
Proof.
  intros H. unfold timestampStep, tokenAgeRejected. rewrite H. simpl.
  destruct (300000 <? now - t) eqn:E1; simpl.
  - split; [intros _; lia | reflexivity].
  - destruct (now - t <? 0) eqn:E2.
    + split; [intros _; lia | reflexivity].
    + split; [discriminate | intros Hn; exfalso; apply Hn; lia].
Qed.

(** A timestamp that [parseInt] maps to NaN passes the step. *)
Lemma nan_timestamp_passes (now : Z) (timestampStr : string) :
  parseInt timestampStr = None -> timestampStep now timestampStr = None.
Proof.
  intros H. unfold timestampStep, tokenAgeRejected. rewrite H. reflexivity.
Qed.

(** [validateAdminToken] answers [token_expired] exactly when the step fails. *)
Lemma token_expired_iff (token adminKey decoded timestampStr signature : string)
    (kv : gmap string KVEntry) (now : Z) :
  atob token = Some decoded ->
  splitColon decoded = [timestampStr; signature] ->
  ((validateAdminToken token adminKey kv now).1 = Some token_expired
   <-> timestampStep now timestampStr = Some token_expired).
Proof.
  intros Ha Hs. unfold validateAdminToken, timestampStep. rewrite Ha, Hs.
  destruct (tokenAgeRejected now (parseInt timestampStr)); simpl.
  - split; reflexivity.
  - destruct (secureCompare _ _); simpl; [|split; discriminate].
    destruct (kvGet kv now (usedTokenKey token)) as [t|]; simpl; [|split; discriminate].
    destruct (textTruthy t); simpl; split; discriminate.
Qed.

(** C3.  The code at the failing input: the timestamp part "abc" is not
    numeric, yet the step does not answer [token_expired] at any time
    [now]: a token with a wrong signature is refused only by the signature
    check, and a token carrying the signature of "abc" is accepted. *)
Theorem non_numeric_timestamp_not_expired :
  forall now : Z,
    parseInt "abc" = None
    /\ timestampStep now "abc" = None
    /\ atob tokenBadSignature = Some "abc:x"
    /\ (validateAdminToken tokenBadSignature adminKey0 ∅ now).1 = Some invalid_signature
    /\ atob tokenNoTimestamp = Some "abc:arj1ig"
    /\ (validateAdminToken tokenNoTimestamp adminKey0 ∅ now).1 = None.
Proof.
  intros now. repeat split; reflexivity.
Qed.

(** ** Rate limiter *)

Lemma rate_limit_rejection
    (binding : option (SecurityEvent -> gmap string KVEntry -> gmap string KVEntry))
    (kv : gmap string KVEntry) (h : Headers) (now : Z) (r : CheckResult) :
  find overLimit (checkResults kv h now) = Some r ->
  let result := checkRateLimitWith binding kv h now in
  rl_allowed result.1 = false
  /\ rl_remaining result.1 = Some 0
  /\ (binding = None ->
      result = (mkRateLimitResult false (Some 0) (Some SystemBusy), kv)).
Proof.
  intros H. unfold checkRateLimitWith. rewrite H.
  destruct binding as [log|]; simpl; repeat split; intros; congruence.
Qed.

(** C5.  The code at the failing input: the address has reached its
    ceiling of 20.  The request is refused with remaining 0, but through
    the fallback of the wrapper ([SystemBusy]): the call of
    [logSecurityEvent], a function the program does not define, raises, so
    that no security event is recorded and the store is left as it was. *)
Theorem rate_limit_rejection_records_nothing :
  readCount storeAtIpLimit day0 "security:rate_limit:ip:203.0.113.7:28333333" = Some 20
  /\ checkRateLimit storeAtIpLimit someHeaders day0
     = (mkRateLimitResult false (Some 0) (Some SystemBusy), storeAtIpLimit).
Proof.
  split; [reflexivity|].
  assert (H : find overLimit (checkResults storeAtIpLimit someHeaders day0) <> None)
    by (vm_compute; discriminate).
  destruct (find overLimit (checkResults storeAtIpLimit someHeaders day0)) as [r|] eqn:E;
    [|congruence].
  exact (proj2 (proj2 (rate_limit_rejection None _ _ _ r E)) eq_refl).
Qed.

(** ** Cache and store adapter *)

Lemma cacheGet_writes (c : CacheManager) (now : Z) (key : string) :
  cacheWrites (cacheGet c now key).2 = cacheWrites c.
Proof.
  unfold cacheGet, cacheWrites.
  destruct (cm_cache c !! key) as [e|]; [destruct (ce_expiry e <? now)|]; reflexivity.
Qed.

Lemma cacheSet_writes (c : CacheManager) (now : Z) (key : string) (data : Data)
    (ttl : option Z) :
  cacheWrites (cacheSet c now key data ttl) = cacheWrites c + 1.
Proof.
  unfold cacheSet, cacheWrites.
  destruct (_ mod 100 =? 0); reflexivity.
Qed.

(** After a miss the key is not in the cache. *)
Lemma cacheGet_miss_absent (c : CacheManager) (now : Z) (key : string) :
  (cacheGet c now key).1 = None ->
  cm_cache (cacheGet c now key).2 !! key = None.
Proof.
  unfold cacheGet.
  destruct (cm_cache c !! key) as [e|] eqn:E.
  - destruct (ce_expiry e <? now); simpl; [|discriminate].
    intros _. apply lookup_delete_eq.
  - simpl. intros _. exact E.
Qed.

(** Whatever [cache.set] leaves under the key holds the data just set. *)
Lemma cacheSet_lookup (c : CacheManager) (now : Z) (key : string) (data : Data)
    (ttl : option Z) (e : CacheEntry) :
  cm_cache (cacheSet c now key data ttl) !! key = Some e -> ce_data e = data.
Proof.
  unfold cacheSet.
  destruct (_ mod 100 =? 0); simpl.
  - intros H. apply map_lookup_filter_Some in H as [H _].
    rewrite lookup_insert_eq in H. injection H as <-. reflexivity.
  - rewrite lookup_insert_eq. intros H. injection H as <-. reflexivity.
Qed.

Lemma safeGet_store_unchanged (useCache : bool) (w : World) (now : Z) (key : string)
    (defaultValue : Data) (cacheTTL : option Z) :
  w_kv (safeGet useCache w now key defaultValue cacheTTL).2 = w_kv w.
Proof.
  unfold safeGet.
  destruct useCache;
    [destruct (cacheGet (w_cache w) now (kvCacheKey key)) as [[d|] c1]|]; simpl;
    try reflexivity;
    (destruct (kvGet (w_kv w) now key) as [t|]; [|reflexivity];
     destruct (textTruthy t); [destruct (JSON_parse t)|]; reflexivity).
Qed.

(** When [safeGet] misses the local cache and the store holds nothing or a
    serialised value under the key: an absent key gives the caller's
    default and nothing is written into the cache; a serialised value
    gives the parsed value, which is handed to [cache.set] under the
    adapter's key. *)
Lemma safeGet_caches_present_values_only :
  forall (w : World) (now : Z) (key : string) (defaultValue : Data)
         (cacheTTL : option Z),
    (cacheGet (w_cache w) now (kvCacheKey key)).1 = None ->
    (forall t, kvGet (w_kv w) now key = Some t -> exists d, t = Json d) ->
    let c1 := (cacheGet (w_cache w) now (kvCacheKey key)).2 in
    let out := safeGet true w now key defaultValue cacheTTL in
    (kvGet (w_kv w) now key = None ->
     out = (defaultValue, false, mkWorld (w_kv w) c1)
     /\ cm_cache (w_cache out.2) !! kvCacheKey key = None)
    /\ (forall d, kvGet (w_kv w) now key = Some (Json d) ->
        out = (d, true, mkWorld (w_kv w) (cacheSet c1 now (kvCacheKey key) d cacheTTL)))
    /\ (cacheWrites (w_cache out.2) = cacheWrites (w_cache w) + 1
        <-> kvGet (w_kv w) now key <> None)
    /\ (cacheWrites (w_cache out.2) = cacheWrites (w_cache w)
        <-> kvGet (w_kv w) now key = None).
Proof.
  intros w now key defaultValue cacheTTL Hmiss Hwf c1 out.
  assert (Hc1 : cacheWrites c1 = cacheWrites (w_cache w)) by apply cacheGet_writes.
  assert (Habs : cm_cache c1 !! kvCacheKey key = None)
    by (apply cacheGet_miss_absent; exact Hmiss).
  unfold out, safeGet. fold c1.
  destruct (cacheGet (w_cache w) now (kvCacheKey key)) as [cached c] eqn:Eg.
  simpl in Hmiss, c1. subst cached. subst c1.
  destruct (kvGet (w_kv w) now key) as [t|] eqn:Ek.
  - destruct (Hwf t eq_refl) as [d ->]. simpl.
    split; [discriminate|]. split; [|split].
    + intros d' H. injection H as <-. reflexivity.
    + rewrite cacheSet_writes. split; [discriminate | lia].
    + rewrite cacheSet_writes. split; [lia | discriminate].
  - simpl. split; [|split; [|split]].
    + intros _. split; [reflexivity | exact Habs].
    + discriminate.
    + split; [lia | congruence].
    + split; [reflexivity | intros _; exact Hc1].
Qed.

(** The empty text is present but falsy: the default is returned, and
    cached. *)
Remark safeGet_empty_text (kv : gmap string KVEntry) (now : Z) (key : string)
    (defaultValue : Data) :
  kvGet kv now key = Some (Raw EmptyString) ->
  let out := safeGet true (mkWorld kv emptyCache) now key defaultValue None in
  out.1 = (defaultValue, true) /\ cacheWrites (w_cache out.2) = 1.
Proof.
  intros H. unfold safeGet. cbn [w_cache w_kv].
  assert (Hmiss : (cacheGet emptyCache now (kvCacheKey key)).1 = None).
  { unfold cacheGet, emptyCache. cbn [cm_cache]. rewrite lookup_empty. reflexivity. }
  pose proof (cacheGet_writes emptyCache now (kvCacheKey key)) as Hw.
  destruct (cacheGet emptyCache now (kvCacheKey key)) as [cached c1].
  simpl in Hmiss, Hw. subst cached. rewrite H. cbn [textTruthy String.eqb negb].
  cbn [fst snd w_cache]. rewrite cacheSet_writes, Hw. split; reflexivity.
Qed.

(** ** The accept path *)

Lemma kvGet_kvPut_eq (kv : gmap string KVEntry) (now : Z) (key : string) (t : KVText) :
  kvGet (kvPut kv now key t None) now key = Some t.
Proof.
  unfold kvGet, kvPut. rewrite lookup_insert_eq. reflexivity.
Qed.

Lemma kvGet_kvPut_ne (kv : gmap string KVEntry) (now now' : Z) (key key' : string)
    (t : KVText) (ttl : option Z) :
  key <> key' -> kvGet (kvPut kv now key t ttl) now' key' = kvGet kv now' key'.
Proof.
  intros H. unfold kvGet, kvPut. rewrite lookup_insert_ne by exact H. reflexivity.
Qed.

Section AcceptPath.

Variable fracToString : Q -> string.

(** A success response of the accept path without the [improved] field
    comes from a write of the tier. *)
Lemma acceptPath_written (w w' : World) (now : Z) (d : Difficulty) (username : string)
    (time : JsValue) (g : GameData) (remaining : option Z) (status : Z)
    (data : list ScoreRecord) (meta : Meta) :
  acceptPath fracToString w now d username time g remaining
  = (SuccessResponse status data meta, w') ->
  m_improved meta = None ->
  exists l board,
    readBoard w now d = Some l
    /\ decideBoard l (newRecord fracToString now username time g) = Write board
    /\ data = map jsonRecord board
    /\ w' = mkWorld (kvPut (w_kv w) now (leaderboardKey d) (Json (DBoard data)) None)
                    (invalidateTier (w_cache w) d).
Proof.
  unfold acceptPath. intros H Hm.
  destruct (readBoard w now d) as [l|]; [|discriminate].
  destruct (decideBoard l (newRecord fracToString now username time g))
    as [|cb|board] eqn:Ed.
  - discriminate.
  - inversion H; subst. discriminate.
  - inversion H; subst. exists l, board.
    split; [reflexivity|]. split; [exact Ed|]. split; reflexivity.
Qed.

Lemma invalidateTier_lookup (c : CacheManager) (d : Difficulty) :
  cm_cache (invalidateTier c d) !! ("leaderboard:" +:+ difficultyName d) = None
  /\ cm_cache (invalidateTier c d) !! ("kv:leaderboard:" +:+ difficultyName d) = None.
Proof.
  unfold invalidateTier, cacheDelete; simpl. split.
  - rewrite !lookup_delete_ne by (destruct d; discriminate).
    apply lookup_delete_eq.
  - apply lookup_delete_eq.
Qed.

(** A success response of the POST branch comes out of the accept path. *)
Lemma handlePost_success (w w' : World) (now : Z) (d : Difficulty) (body : Body)
    (remaining : option Z) (status : Z) (data : list ScoreRecord) (meta : Meta) :
  handlePost fracToString w now d body remaining = (SuccessResponse status data meta, w') ->
  exists username time g stats saved w1,
    body = BodyFields (VStr username) time (GdObject g)
    /\ validTime time = true
    /\ validateScoreReasonableness now time d (Some g) = inr tt
    /\ analyzeUserBehavior fracToString username time d w now
       = (NotSuspicious stats saved, w1)
    /\ acceptPath fracToString w1 now d username time g remaining
       = (SuccessResponse status data meta, w').
Proof.
  unfold handlePost, validTime. intros H.
  destruct body as [|username time [| |g]]; try discriminate.
  - destruct (validateUsername username), (validateTime time); discriminate.
  - destruct (validateUsername username) as [|tu] eqn:Eu; [discriminate|].
    destruct (validateTime time) as [|m] eqn:Et; [discriminate|].
    destruct (validateGameDataStructure g); [discriminate|].
    destruct (validateScoreReasonableness now time d (Some g)) as [|[]] eqn:Es;
      [discriminate|].
    assert (Hname : exists s, username = VStr s).
    { destruct username; try discriminate. eexists; reflexivity. }
    destruct Hname as [s ->].
    destruct (analyzeUserBehavior fracToString s time d w now) as [[|stats saved] w1] eqn:Ea;
      [discriminate|].
    exists s, time, g, stats, saved, w1.
    split; [reflexivity|]. split; [rewrite Et; reflexivity|].
    split; [exact Es|]. split; [exact Ea | exact H].
Qed.

Lemma handleLeaderboardAPI_success (w w' : World) (now : Z) (rq : Request)
    (status : Z) (data : list ScoreRecord) (meta : Meta) :
  handleLeaderboardAPI fracToString w now rq = (SuccessResponse status data meta, w') ->
  exists d rl kv1,
    difficultyOfKey (rq_pathTail rq) = Some d
    /\ checkRateLimit (w_kv w) (rq_headers rq) now = (rl, kv1)
    /\ rl_allowed rl = true
    /\ handlePost fracToString (mkWorld kv1 (w_cache w)) now d (rq_body rq) (rl_remaining rl)
       = (SuccessResponse status data meta, w').
Proof.
  unfold handleLeaderboardAPI. intros H.
  destruct (difficultyOfKey (rq_pathTail rq)) as [d|]; [|discriminate].
  destruct (checkRateLimit (w_kv w) (rq_headers rq) now) as [rl kv1] eqn:Er.
  destruct (rl_allowed rl) eqn:Ea; simpl in H; [|discriminate].
  exists d, rl, kv1. auto.
Qed.

(** C8.  After every accept-path write of a tier (a success response
    without the [improved] field), the tier's own cache entry, under
    'leaderboard:<difficulty>', and the store adapter's entry for the same
    key, under 'kv:leaderboard:<difficulty>', are gone from the cache in the
    state the response is returned in, and the store holds the written tier. *)
Theorem accepted_write_invalidates_both_cache_entries :
  forall (w w' : World) (now : Z) (rq : Request) (status : Z)
         (data : list ScoreRecord) (meta : Meta),
    handleLeaderboardAPI fracToString w now rq = (SuccessResponse status data meta, w') ->
    m_improved meta = None ->
    exists d,
      difficultyOfKey (rq_pathTail rq) = Some d
      /\ kvGet (w_kv w') now ("leaderboard:" +:+ difficultyName d) = Some (Json (DBoard data))
      /\ cm_cache (w_cache w') !! ("leaderboard:" +:+ difficultyName d) = None
      /\ cm_cache (w_cache w') !! ("kv:leaderboard:" +:+ difficultyName d) = None.
Proof.
  intros w w' now rq status data meta H Hm.
  destruct (handleLeaderboardAPI_success _ _ _ _ _ _ _ H)
    as (d & rl & kv1 & Hd & _ & _ & Hp).
  destruct (handlePost_success _ _ _ _ _ _ _ _ _ Hp)
    as (username & time & g & stats & saved & w1 & _ & _ & _ & _ & Ha).
  destruct (acceptPath_written _ _ _ _ _ _ _ _ _ _ _ Ha Hm)
    as (l & board & _ & _ & _ & ->).
  exists d. split; [exact Hd|]. split; [|apply invalidateTier_lookup].
  apply kvGet_kvPut_eq.
Qed.

End AcceptPath.

Lemma accepted_write_invalidates_both_cache_entries_witness :
  cm_cache warmCache !! "leaderboard:beginner" <> None
  /\ cm_cache warmCache !! "kv:leaderboard:beginner" <> None
  /\ cm_cache (w_cache (handleLeaderboardAPI noFraction warmWorld (day0 + 10000)
                          firstSubmission).2) !! "leaderboard:beginner" = None
  /\ cm_cache (w_cache (handleLeaderboardAPI noFraction warmWorld (day0 + 10000)
                          firstSubmission).2) !! "kv:leaderboard:beginner" = None.
Proof.
  split; [discriminate|]. split; [discriminate|].
  pose (out := handleLeaderboardAPI noFraction warmWorld (day0 + 10000) firstSubmission).
  assert (E : out = (SuccessResponse 200
                       [mkScoreRecord "alice" (VNum (Fin 3)) (day0 + 10000) (VStr "g1")
                                      (VNum (Fin 20)) true]
                       (mkMeta "alice" (VNum (Fin 3)) None None (Some 1) (Some (Some 14))),
                     out.2))
    by (vm_compute; reflexivity).
  destruct (accepted_write_invalidates_both_cache_entries noFraction warmWorld out.2
              (day0 + 10000) firstSubmission 200 _ _ E eq_refl)
    as (d & Hd & _ & Hc1 & Hc2).
  vm_compute in Hd. injection Hd as <-. exact (conj Hc1 Hc2).
Defined.

(** ** Behaviour analyser *)

Lemma within_window (now t : Z) :
  Num.lt (Num.div (Num.sub (JInt now) (JInt t)) (JInt 1000)) (JInt frequentSubmissionWindow)
  = (now - t <? frequentSubmissionWindow * 1000).
Proof.
  unfold frequentSubmissionWindow, JInt. cbn [Num.sub Num.add Num.neg Num.div Num.lt].
  change (Qeq_bool (inject_Z 1000) 0) with false. cbv iota.
  assert (Hd : (inject_Z now + - inject_Z t == inject_Z (now - t))%Q).
  { rewrite <- inject_Z_opp, <- inject_Z_plus. reflexivity. }
  destruct (now - t <? 300 * 1000) eqn:E.
  - apply Qlt_bool_iff. apply Qlt_shift_div_r; [reflexivity|].
    rewrite Hd. change (inject_Z 300 * inject_Z 1000)%Q with (inject_Z 300000).
    rewrite <- Zlt_Qlt. lia.
  - apply Qlt_bool_false_iff. apply Qle_shift_div_l; [reflexivity|].
    rewrite Hd. change (inject_Z 300 * inject_Z 1000)%Q with (inject_Z 300000).
    rewrite <- Zle_Qle. lia.
Qed.

Lemma suspicionStep_under (now : Z) (s : UserStats) :
  underCooldown now s ->
  suspicionStep now s
  = (mkUserStats (st_submissions s) (st_bestTime s) (st_averageTime s) (st_totalTime s)
                 (st_lastSubmission s) (st_suspiciousCount s + 1),
     maxSuspiciousCount <? st_suspiciousCount s + 1).
Proof.
  intros (t & Ht & Hlt). unfold suspicionStep, timeSinceLastSubmission.
  rewrite Ht, within_window.
  assert (E : (now - t <? frequentSubmissionWindow * 1000) = true) by lia.
  rewrite E. reflexivity.
Qed.

Lemma suspicionStep_elapsed (now : Z) (s : UserStats) :
  ~ underCooldown now s ->
  suspicionStep now s
  = (mkUserStats (st_submissions s) (st_bestTime s) (st_averageTime s) (st_totalTime s)
                 (st_lastSubmission s) (Z.max 0 (st_suspiciousCount s - 1)),
     false).
Proof.
  intros Hn. unfold suspicionStep, timeSinceLastSubmission.
  destruct (st_lastSubmission s) as [t|] eqn:Ht; [|reflexivity].
  rewrite within_window.
  assert (E : (now - t <? frequentSubmissionWindow * 1000) = false).
  { apply Z.ltb_ge. destruct (Z_lt_le_dec (now - t) (frequentSubmissionWindow * 1000));
      [|assumption].
    exfalso. apply Hn. exists t. auto. }
  rewrite E. reflexivity.
Qed.

(** What [safeGet] tells about the object it returns and the cache. *)
Lemma safeGet_shared (w w1 : World) (now : Z) (key : string) (defaultValue v : Data)
    (cacheTTL : option Z) (shared : bool) :
  safeGet true w now key defaultValue cacheTTL = (v, shared, w1) ->
  w_kv w1 = w_kv w
  /\ forall e, cm_cache (w_cache w1) !! kvCacheKey key = Some e ->
               shared = true /\ ce_data e = v.
Proof.
  intros H. split.
  - rewrite <- (safeGet_store_unchanged true w now key defaultValue cacheTTL), H.
    reflexivity.
  - revert H. unfold safeGet.
    destruct (cacheGet (w_cache w) now (kvCacheKey key)) as [cached c1] eqn:Eg.
    destruct cached as [d|].
    + intros H. inversion H; subst. intros e He. split; [reflexivity|].
      revert Eg He. unfold cacheGet.
      destruct (cm_cache (w_cache w) !! kvCacheKey key) as [e0|]; [|discriminate].
      destruct (ce_expiry e0 <? now); [discriminate|].
      intros Eg. inversion Eg; subst. simpl. rewrite lookup_insert_eq.
      intros He. inversion He; subst. reflexivity.
    + assert (Habs : cm_cache c1 !! kvCacheKey key = None).
      { pose proof (cacheGet_miss_absent (w_cache w) now (kvCacheKey key)) as Hm.
        rewrite Eg in Hm. apply Hm. reflexivity. }
      destruct (kvGet (w_kv w) now key) as [t|].
      * destruct (if textTruthy t then JSON_parse t else Some defaultValue) as [r|].
        -- intros H. inversion H; subst. simpl. intros e He. split; [reflexivity|].
           exact (cacheSet_lookup _ _ _ _ _ _ He).
        -- intros H. inversion H; subst. simpl. intros e He. congruence.
      * intros H. inversion H; subst. simpl. intros e He. congruence.
Qed.

Lemma cacheMutate_lookup (c : CacheManager) (key : string) (d : Data) (e : CacheEntry) :
  cm_cache (cacheMutate c key d) !! key = Some e -> ce_data e = d.
Proof.
  unfold cacheMutate. destruct (cm_cache c !! key) as [e0|] eqn:E; simpl.
  - rewrite lookup_insert_eq. intros H. inversion H. reflexivity.
  - congruence.
Qed.

Section BehaviourAnalysis.

Variable fracToString : Q -> string.

Lemma analyze_blocked (username : string) (time : JsValue) (d : Difficulty)
    (w w1 : World) (now : Z) (s : UserStats) (shared : bool) :
  safeGet true w now (userStatsKey username d) (DStats defaultStats) None
  = (DStats s, shared, w1) ->
  (suspicionStep now s).2 = true ->
  analyzeUserBehavior fracToString username time d w now
  = (TemporaryBlock,
     if shared
     then mkWorld (w_kv w1)
                  (cacheMutate (w_cache w1) (kvCacheKey (userStatsKey username d))
                               (DStats (suspicionStep now s).1))
     else w1).
Proof.
  intros Hg Hb. unfold analyzeUserBehavior. rewrite Hg.
  destruct (suspicionStep now s) as [stats1 blocked]. simpl in Hb. subst blocked.
  reflexivity.
Qed.

Lemma analyze_recorded (username : string) (time : JsValue) (d : Difficulty)
    (w w1 : World) (now : Z) (s : UserStats) (shared : bool) :
  safeGet true w now (userStatsKey username d) (DStats defaultStats) None
  = (DStats s, shared, w1) ->
  (suspicionStep now s).2 = false ->
  let s2 := recordSubmission fracToString now time (suspicionStep now s).1 in
  let out := analyzeUserBehavior fracToString username time d w now in
  out.1 = NotSuspicious (DStats s2) true
  /\ kvGet (w_kv out.2) now (userStatsKey username d) = Some (Json (DStats (jsonStats s2))).
Proof.
  intros Hg Hb. unfold analyzeUserBehavior. rewrite Hg.
  destruct (suspicionStep now s) as [stats1 blocked]. simpl in Hb. subst blocked.
  simpl. split; [reflexivity|].
  unfold kvGet, kvPut. rewrite lookup_insert_eq. simpl.
  assert (E : (now + 604800 * 1000 <=? now) = false) by lia.
  rewrite E. reflexivity.
Qed.

(** C7.  For the statistics [s] the analyser loads for (username,
    difficulty): under the 5-minute cooldown the suspicion counter is
    incremented; when it then exceeds 3 the verdict is a temporary block,
    the store is left untouched (no statistics and no tier written), the
    statistics in the cache keep their [bestTime], and the request is
    answered with 429 before the tier is read; below the threshold the
    incremented counter is persisted; once the cooldown has elapsed the
    counter is decremented by one, floored at zero. *)
Theorem cooldown_suspicion_and_block :
  forall (username : string) (time : JsValue) (d : Difficulty) (w w1 : World)
         (now : Z) (s : UserStats) (shared : bool),
    safeGet true w now (userStatsKey username d) (DStats defaultStats) None
    = (DStats s, shared, w1) ->
    let key := userStatsKey username d in
    let out := analyzeUserBehavior fracToString username time d w now in
    (underCooldown now s -> maxSuspiciousCount < st_suspiciousCount s + 1 ->
     out.1 = TemporaryBlock
     /\ w_kv out.2 = w_kv w
     /\ (forall e, cm_cache (w_cache out.2) !! kvCacheKey key = Some e ->
                   exists s', ce_data e = DStats s'
                              /\ st_bestTime s' = st_bestTime s
                              /\ st_suspiciousCount s' = st_suspiciousCount s + 1)
     /\ (forall (g : GameData) (remaining : option Z) (trimmed : string) (m : JsNumber),
            validateUsername (VStr username) = inr trimmed ->
            validateTime time = inr m ->
            validateGameDataStructure g = None ->
            validateScoreReasonableness now time d (Some g) = inr tt ->
            handlePost fracToString w now d
                       (BodyFields (VStr username) time (GdObject g)) remaining
            = (ErrorResponse SUSPICIOUS_BEHAVIOR 429, out.2)))
    /\ (underCooldown now s -> st_suspiciousCount s + 1 <= maxSuspiciousCount ->
        exists s2, out.1 = NotSuspicious (DStats s2) true
                   /\ st_suspiciousCount s2 = st_suspiciousCount s + 1
                   /\ kvGet (w_kv out.2) now key = Some (Json (DStats (jsonStats s2))))
    /\ (~ underCooldown now s ->
        exists s2, out.1 = NotSuspicious (DStats s2) true
                   /\ st_suspiciousCount s2 = Z.max 0 (st_suspiciousCount s - 1)
                   /\ kvGet (w_kv out.2) now key = Some (Json (DStats (jsonStats s2)))).
Proof.
  intros username time d w w1 now s shared Hg key out.
  destruct (safeGet_shared _ _ _ _ _ _ _ _ Hg) as [Hkv Hcache].
  split; [|split].
  - intros Hu Hgt.
    assert (Hb : (suspicionStep now s).2 = true).
    { rewrite (suspicionStep_under now s Hu). simpl. lia. }
    pose proof (analyze_blocked username time d w w1 now s shared Hg Hb) as Ha.
    fold out in Ha.
    assert (Hkv' : w_kv out.2 = w_kv w).
    { rewrite Ha. destruct shared; simpl; exact Hkv. }
    split; [rewrite Ha; reflexivity|]. split; [exact Hkv'|]. split.
    + intros e He. rewrite Ha in He. simpl in He.
      rewrite (suspicionStep_under now s Hu) in He. simpl in He.
      destruct shared; simpl in He.
      * apply cacheMutate_lookup in He. eexists. split; [exact He|]. split; reflexivity.
      * destruct (Hcache e He) as [Hs _]. discriminate.
    + intros g remaining trimmed m Hname Htime Hstruct Hscore.
      unfold handlePost. rewrite Hname, Htime, Hstruct, Hscore.
      subst out. rewrite Ha. reflexivity.
  - intros Hu Hle.
    assert (Hb : (suspicionStep now s).2 = false).
    { rewrite (suspicionStep_under now s Hu). simpl. lia. }
    destruct (analyze_recorded username time d w w1 now s shared Hg Hb) as [H1 H2].
    eexists. split; [exact H1|]. split; [|exact H2].
    rewrite (suspicionStep_under now s Hu). reflexivity.
  - intros Hn.
    assert (Hb : (suspicionStep now s).2 = false).
    { rewrite (suspicionStep_elapsed now s Hn). reflexivity. }
    destruct (analyze_recorded username time d w w1 now s shared Hg Hb) as [H1 H2].
    eexists. split; [exact H1|]. split; [|exact H2].
    rewrite (suspicionStep_elapsed now s Hn). reflexivity.
Qed.

End BehaviourAnalysis.

Lemma cooldown_suspicion_and_block_witness :
  underCooldown (day0 + 60000) aliceStats
  /\ (analyzeUserBehavior noFraction "alice" (VNum (JInt 45)) Beginner worldWithStats
                          (day0 + 60000)).1 = TemporaryBlock
  /\ w_kv (analyzeUserBehavior noFraction "alice" (VNum (JInt 45)) Beginner worldWithStats
                               (day0 + 60000)).2 = storeWithStats.
Proof.
  assert (Hu : underCooldown (day0 + 60000) aliceStats).
  { exists day0. split; [reflexivity|]. vm_compute. reflexivity. }
  split; [exact Hu|].
  pose (loaded := safeGet true worldWithStats (day0 + 60000) (userStatsKey "alice" Beginner)
                          (DStats defaultStats) None).
  assert (E : loaded = (DStats aliceStats, true, loaded.2)) by (vm_compute; reflexivity).
  destruct (cooldown_suspicion_and_block noFraction "alice" (VNum (JInt 45)) Beginner
              worldWithStats loaded.2 (day0 + 60000) aliceStats true E) as [Hblock _].
  destruct (Hblock Hu) as (H1 & H2 & _); [vm_compute; reflexivity|].
  exact (conj H1 H2).
Defined.

(** ** Lists: search, sort, truncation *)

Lemma findEntry_Some {A : Type} (p : A -> bool) (l : list A) (i : nat) (x : A) :
  findEntry p l = Some (i, x) -> l !! i = Some x /\ p x = true.
Proof.
  revert i. induction l as [|y l IH]; intros i; simpl; [discriminate|].
  destruct (p y) eqn:E.
  - intros H. inversion H; subst. auto.
  - destruct (findEntry p l) as [[j z]|]; simpl; [|discriminate].
    intros H. inversion H; subst. simpl. apply IH. reflexivity.
Qed.

Lemma findEntry_None {A : Type} (p : A -> bool) (l : list A) :
  findEntry p l = None -> forall x, x ∈ l -> p x = false.
Proof.
  induction l as [|y l IH]; simpl; intros H x Hx.
  - inversion Hx.
  - destruct (p y) eqn:E; [discriminate|].
    destruct (findEntry p l) as [[j z]|] eqn:F; [discriminate|].
    apply elem_of_cons in Hx as [->|Hx]; [exact E | apply IH; auto].
Qed.

Lemma insertByTime_perm (x : ScoreRecord) (l : list ScoreRecord) :
  insertByTime x l ≡ₚ x :: l.
Proof.
  induction l as [|y l IH]; simpl; [reflexivity|].
  destruct (timeAfter x y); [|reflexivity].
  rewrite IH. apply Permutation_swap.
Qed.

Lemma sortByTime_perm (l : list ScoreRecord) : sortByTime l ≡ₚ l.
Proof.
  induction l as [|x l IH]; simpl; [reflexivity|].
  rewrite insertByTime_perm, IH. reflexivity.
Qed.

Lemma top20_short (l : list ScoreRecord) : (length l <= 20)%nat -> top20 l = l.
Proof. intros H. unfold top20. apply take_ge. exact H. Qed.

Lemma top20_length (l : list ScoreRecord) : (length (top20 l) <= 20)%nat.
Proof. unfold top20. rewrite length_take. lia. Qed.

Lemma jsLt_JInt (n s : Z) : jsLt (VNum (JInt n)) (VNum (JInt s)) = true <-> n < s.
Proof. unfold jsLt; simpl ToNumber. rewrite lt_JInt. lia. Qed.

(** In a list without two entries of one user, replacing the user's entry
    leaves the new entry as the only one of that user. *)
Lemma replaced_entry_unique (l : list ScoreRecord) (i : nat) (old new r : ScoreRecord) :
  NoDup (map rec_username l) ->
  l !! i = Some old ->
  rec_username old = rec_username new ->
  r ∈ <[ i := new ]> l -> rec_username r = rec_username new -> r = new.
Proof.
  intros Hnd Hi Hname Hr Hrn.
  apply list_elem_of_lookup in Hr as [j Hj].
  destruct (decide (i = j)) as [->|Hne].
  - rewrite list_lookup_insert_eq in Hj by (eapply lookup_lt_Some; eauto).
    congruence.
  - rewrite list_lookup_insert_ne in Hj by exact Hne.
    exfalso. apply Hne.
    apply (NoDup_lookup (map rec_username l) i j (rec_username new)); [exact Hnd| |].
    + rewrite list_lookup_fmap, Hi. simpl. congruence.
    + rewrite list_lookup_fmap, Hj. simpl. congruence.
Qed.

Section Replacement.

Variable fracToString : Q -> string.

(** The accept path in terms of the time of the record that is built,
    [parseInt(time)], which is the submitted time when that is an integer
    of number type: for a user who holds a record in the tier (the board
    read, the game not yet known), when that time is strictly lower than
    the stored one the tier is written with the user's record replaced;
    otherwise (tie, worse, or no number) the state is left unchanged and
    the response is a success (HTTP 200) carrying [improved: false], the
    stored best and the current board. *)
Lemma existing_record_replaced_iff_strictly_better :
  forall (w : World) (now : Z) (d : Difficulty) (username : string) (time : JsValue)
         (g : GameData) (remaining : option Z) (l : list ScoreRecord) (i : nat)
         (existing : ScoreRecord),
    readBoard w now d = Some l ->
    existsb (sameGame (gd_gameId g)) l = false ->
    findEntry (sameUser (trim username)) l = Some (i, existing) ->
    let new := newRecord fracToString now username time g in
    let out := acceptPath fracToString w now d username time g remaining in
    (jsLt (rec_time new) (rec_time existing) = true ->
     let board := top20 (sortByTime (<[ i := new ]> l)) in
     out.1 = SuccessResponse 200 (map jsonRecord board)
               (mkMeta (trim username) (jsonValue (rec_time new)) None None
                       (Some (rankOf (trim username) board)) (Some remaining))
     /\ kvGet (w_kv out.2) now (leaderboardKey d)
        = Some (Json (DBoard (map jsonRecord board)))
     /\ (tierInvariant l ->
         new ∈ board
         /\ forall r, r ∈ board -> rec_username r = trim username -> r = new))
    /\ (jsLt (rec_time new) (rec_time existing) = false ->
        out.2 = w
        /\ exists rank,
            out.1 = SuccessResponse 200 (map jsonRecord (top20 l))
                      (mkMeta (trim username) (jsonValue (rec_time new)) (Some false)
                              (Some (jsonValue (rec_time existing))) rank None))
    /\ (forall n s : Z,
           rec_time new = VNum (JInt n) -> rec_time existing = VNum (JInt s) ->
           (jsLt (rec_time new) (rec_time existing) = true <-> n < s)).
Proof.
  intros w now d username time g remaining l i existing Hread Hdup Hfind new out.
  assert (Hdec : decideBoard l new =
                 if jsLt (rec_time new) (rec_time existing)
                 then Write (top20 (sortByTime (<[ i := new ]> l)))
                 else NotImproved (rec_time existing)).
  { unfold decideBoard.
    change (existsb _ l) with (existsb (sameGame (gd_gameId g)) l). rewrite Hdup.
    change (findEntry _ l) with (findEntry (sameUser (trim username)) l).
    rewrite Hfind. reflexivity. }
  assert (Hout : out = match decideBoard l new with
                       | Duplicate => (createErrorResponse DUPLICATE_GAME 400, w)
                       | NotImproved currentBest =>
                           (SuccessResponse 200 (map jsonRecord (top20 l))
                              (mkMeta (trim username) (jsonValue (rec_time new)) (Some false)
                                 (Some (jsonValue currentBest))
                                 (if 0 <? rankOf (trim username) (top20 l)
                                  then Some (rankOf (trim username) (top20 l)) else None)
                                 None), w)
                       | Write board =>
                           (SuccessResponse 200 (map jsonRecord board)
                              (mkMeta (trim username) (jsonValue (rec_time new)) None None
                                 (Some (rankOf (trim username) board)) (Some remaining)),
                            mkWorld (kvPut (w_kv w) now (leaderboardKey d)
                                           (JSON_stringify (DBoard board)) None)
                                    (invalidateTier (w_cache w) d))
                       end).
  { unfold out, acceptPath. rewrite Hread. reflexivity. }
  rewrite Hdec in Hout.
  destruct (findEntry_Some _ _ _ _ Hfind) as [Hi Hname].
  apply String.eqb_eq in Hname.
  split; [|split].
  - intros Hlt board. rewrite Hlt in Hout. rewrite Hout. simpl.
    split; [reflexivity|]. split; [apply kvGet_kvPut_eq|].
    intros (Hlen & _ & Hnd).
    assert (Hb : board = sortByTime (<[ i := new ]> l)).
    { unfold board. apply top20_short.
      rewrite (Permutation_length (sortByTime_perm _)), length_insert. exact Hlen. }
    split.
    + rewrite Hb, sortByTime_perm.
      apply list_elem_of_lookup. exists i.
      apply list_lookup_insert_eq. eapply lookup_lt_Some; eauto.
    + intros r Hr Hrn. rewrite Hb, sortByTime_perm in Hr.
      apply (replaced_entry_unique l i existing new r Hnd Hi); auto.
  - intros Hge. rewrite Hge in Hout. rewrite Hout. simpl.
    split; [reflexivity|]. eexists. reflexivity.
  - intros n s Hn Hs. rewrite Hn, Hs. apply jsLt_JInt.
Qed.

End Replacement.

(** ** Duplicate games *)

Section Duplicates.

Variable fracToString : Q -> string.

Lemma duplicate_rejected (w : World) (now : Z) (d : Difficulty) (username : string)
    (time : JsValue) (g : GameData) (remaining : option Z) (l : list ScoreRecord)
    (r : ScoreRecord) :
  readBoard w now d = Some l ->
  r ∈ l -> sameGame (gd_gameId g) r = true ->
  acceptPath fracToString w now d username time g remaining
  = (ErrorResponse DUPLICATE_GAME 400, w).
Proof.
  intros Hread Hr Hg. unfold acceptPath, decideBoard. rewrite Hread.
  assert (E : existsb (sameGame (gd_gameId g)) l = true).
  { apply existsb_exists. exists r. split; [apply list_elem_of_In; exact Hr | exact Hg]. }
  change (existsb _ l) with (existsb (sameGame (gd_gameId g)) l).
  rewrite E. reflexivity.
Qed.

End Duplicates.

(** C4.  The code at the failing input: "alice" holds a record of 50 s; her
    game [g1] submitted with 60 s is answered with a success ([improved:
    false]) and is not stored; the same game submitted again with 40 s is
    not rejected as a duplicate but accepted and stored.  The guard scans
    the stored records only. *)
Theorem resubmitted_game_not_rejected :
  let w1 := (handleLeaderboardAPI noFraction emptyWorld (day0 + 10000) aliceGame0).2 in
  let second := handleLeaderboardAPI noFraction w1 (day0 + 20000) aliceGame1Slow in
  let third := handleLeaderboardAPI noFraction second.2 (day0 + 30000) aliceGame1Fast in
  (exists data meta, second.1 = SuccessResponse 200 data meta /\ m_improved meta = Some false)
  /\ third.1 <> ErrorResponse DUPLICATE_GAME 400
  /\ third.1 = SuccessResponse 200
                 [mkScoreRecord "alice" (VNum (Fin 40)) (day0 + 30000) (VStr "g1")
                                (VNum (Fin 20)) true]
                 (mkMeta "alice" (VNum (Fin 40)) None None (Some 1) (Some (Some 12))).
Proof.
  split; [|split].
  - eexists. eexists. split; vm_compute; reflexivity.
  - vm_compute. discriminate.
  - vm_compute. reflexivity.
Qed.

(** ** The tier invariant and times that are no numbers *)

(** C2.  The code at the failing input: after a first record of 3 s, a
    submission whose top-level [time] is the string ".5e1" passes
    [validateTime] (as 5) and the score validation, is stored with time
    [parseInt(".5e1")], which is NaN and is serialised as [null], behind
    the record of 3 s: the written tier is not sorted by time. *)
Theorem nan_time_breaks_sorted_tier :
  validateTime (VStr ".5e1") = inr (Fin 5)
  /\ parseInt ".5e1" = None
  /\ exists a b,
       kvGet (w_kv afterBob.2) (day0 + 20000) (leaderboardKey Beginner)
       = Some (Json (DBoard [a; b]))
       /\ rec_time a = VNum (Fin 3) /\ rec_time b = VNull
       /\ ~ timeLe a b
       /\ ~ tierInvariant [a; b].
Proof.
  split; [reflexivity|]. split; [reflexivity|].
  eexists. eexists. split; [vm_compute; reflexivity|].
  split; [reflexivity|]. split; [reflexivity|].
  assert (Hn : ~ timeLe
                 (mkScoreRecord "alice" (VNum (Fin 3)) 1700000010000 (VStr "g1")
                                (VNum (Fin 20)) true)
                 (mkScoreRecord "bob" VNull 1700000020000 (VStr "g2") (VNum (Fin 20)) true)).
  { unfold timeLe. vm_compute. discriminate. }
  split; [exact Hn|].
  intros (_ & Hs & _). apply Hn.
  inversion Hs as [|? ? _ Hhd]; subst. inversion Hhd; subst. assumption.
Qed.

(** ** Printing and reading back a counter *)

Lemma digit_cases (d : Z) :
  0 <= d < 10 ->
  d = 0 \/ d = 1 \/ d = 2 \/ d = 3 \/ d = 4 \/ d = 5 \/ d = 6 \/ d = 7 \/ d = 8 \/ d = 9.
Proof. lia. Qed.

Lemma digitIn_digitChar (d : Z) : 0 <= d < 10 -> digitIn 10 (digitChar d) = Some d.
Proof.
  intros H. destruct (digit_cases d H) as [->|[->|[->|[->|[->|[->|[->|[->|[->| ->]]]]]]]]];
    reflexivity.
Qed.

Lemma isDecDigit_digitChar (d : Z) : 0 <= d < 10 -> isDecDigit (digitChar d) = true.
Proof.
  intros H. destruct (digit_cases d H) as [->|[->|[->|[->|[->|[->|[->|[->|[->| ->]]]]]]]]];
    reflexivity.
Qed.

Lemma radixDigits_S (f : nat) (R n : Z) (acc : string) :
  radixDigits (S f) R n acc
  = if n / R =? 0 then String (digitChar (n mod R)) acc
    else radixDigits f R (n / R) (String (digitChar (n mod R)) acc).
Proof. reflexivity. Qed.

Lemma digitsPrefix_radixDigits (f : nat) :
  forall (n : Z) (acc : string) (seen : bool),
    0 <= n < 10 ^ Z.of_nat (S f) ->
    digitsPrefix 10 (radixDigits (S f) 10 n acc) 0 seen = digitsPrefix 10 acc n true.
Proof.
  induction f as [|f IH]; intros n acc seen Hn.
  - assert (Hlt : n < 10) by (change (10 ^ Z.of_nat 1) with 10 in Hn; lia).
    cbn [radixDigits]. rewrite Z.div_small, Z.mod_small by lia.
    cbn [Z.eqb digitsPrefix]. rewrite digitIn_digitChar by lia. reflexivity.
  - rewrite radixDigits_S. destruct (n / 10 =? 0) eqn:E.
    + assert (Hlt : n < 10).
      { apply Z.eqb_eq in E. apply Z.div_small_iff in E; lia. }
      rewrite Z.mod_small by lia.
      cbn [digitsPrefix]. rewrite digitIn_digitChar by lia. reflexivity.
    + rewrite IH.
      * cbn [digitsPrefix]. rewrite digitIn_digitChar by (apply Z.mod_pos_bound; lia).
        f_equal. rewrite (Z.div_mod n 10) at 3 by lia. lia.
      * split; [apply Z.div_pos; lia|].
        apply Z.div_lt_upper_bound; [lia|].
        replace (Z.of_nat (S (S f))) with (1 + Z.of_nat (S f)) in Hn by lia.
        rewrite Z.pow_add_r in Hn by lia. lia.
Qed.

Lemma allDigits_radixDigits (f : nat) :
  forall (n : Z) (acc : string),
    0 <= n -> allChars isDecDigit acc = true ->
    allChars isDecDigit (radixDigits f 10 n acc) = true.
Proof.
  induction f as [|f IH]; intros n acc Hn Hacc; [exact Hacc|].
  rewrite radixDigits_S.
  assert (Hd : allChars isDecDigit (String (digitChar (n mod 10)) acc) = true).
  { cbn [allChars]. rewrite isDecDigit_digitChar by (apply Z.mod_pos_bound; lia).
    exact Hacc. }
  destruct (n / 10 =? 0); [exact Hd|].
  apply IH; [apply Z.div_pos; lia | exact Hd].
Qed.

Lemma radixString_bound (n : Z) : 0 <= n -> n < 10 ^ Z.of_nat (S (Z.to_nat (Z.log2 n))).
Proof.
  intros Hn. destruct (Z.eq_dec n 0) as [->|Hne]; [reflexivity|].
  assert (Hlog := Z.log2_spec n ltac:(lia)).
  assert (H0 := Z.log2_nonneg n).
  replace (Z.of_nat (S (Z.to_nat (Z.log2 n)))) with (Z.succ (Z.log2 n)) by lia.
  eapply Z.lt_le_trans; [apply Hlog|].
  apply Z.pow_le_mono_l. lia.
Qed.

Lemma digitsPrefix_radixString (n : Z) :
  0 <= n -> digitsPrefix 10 (radixString 10 n) 0 false = Some n.
Proof.
  intros Hn. unfold radixString.
  rewrite digitsPrefix_radixDigits by (split; [exact Hn | apply radixString_bound; exact Hn]).
  reflexivity.
Qed.

(** Case analysis on a character known to satisfy the test of [H]. *)
Ltac ascii_cases c H :=
  destruct c as [[] [] [] [] [] [] [] []]; try discriminate H.

(** On a string of decimal digits [parseInt] only reads the digits. *)
Lemma parseInt_digits (s : string) :
  allChars isDecDigit s = true -> parseInt s = digitsPrefix 10 s 0 false.
Proof.
  assert (Hid : forall v : option Z, option_map (fun z : Z => z) v = v)
    by (intros [z|]; reflexivity).
  destruct s as [|c r]; [reflexivity|].
  cbn [allChars]. intros H. apply andb_prop in H as [Hc Hr].
  destruct r as [|c2 r2].
  - ascii_cases c Hc; reflexivity.
  - cbn [allChars] in Hr. apply andb_prop in Hr as [Hc2 _].
    ascii_cases c Hc;
      try (unfold parseInt; cbn; apply Hid);
      ascii_cases c2 Hc2;
      unfold parseInt; cbn; apply Hid.
Qed.

Lemma parseInt_radixString (n : Z) : 0 <= n -> parseInt (radixString 10 n) = Some n.
Proof.
  intros Hn. rewrite parseInt_digits; [apply digitsPrefix_radixString; exact Hn|].
  apply allDigits_radixDigits; [exact Hn | reflexivity].
Qed.

(** [parseInt(z.toString())] is [z]. *)
Lemma parseInt_intToString (z : Z) : parseInt (intToString z) = Some z.
Proof.
  unfold intToString. destruct (z <? 0) eqn:E; [|apply parseInt_radixString; lia].
  assert (Hn : 0 <= - z) by lia.
  assert (Hd : allChars isDecDigit (radixString 10 (- z)) = true)
    by (apply allDigits_radixDigits; [exact Hn | reflexivity]).
  pose proof (parseInt_radixString (- z) Hn) as Hp.
  destruct (radixString 10 (- z)) as [|c r]; [discriminate Hp|].
  cbn [allChars] in Hd. apply andb_prop in Hd as [Hc _].
  assert (Hw : trimStart (String c r) = String c r).
  { ascii_cases c Hc; reflexivity. }
  assert (Hs : stripSign (String c r) = (false, String c r)).
  { ascii_cases c Hc; reflexivity. }
  unfold parseInt in Hp. rewrite Hw, Hs in Hp.
  unfold parseInt.
  change (trimStart (String "-" (String c r))) with (String "-" (String c r)).
  change (stripSign (String "-" (String c r))) with (true, String c r).
  cbv beta iota zeta in Hp |- *.
  destruct (stripHexPrefix (String c r)) as [r0|].
  - destruct (digitsPrefix 16 r0 0 false) as [v|]; [|discriminate Hp].
    simpl in *. injection Hp as ->. f_equal. lia.
  - destruct (digitsPrefix 10 (String c r) 0 false) as [v|]; [|discriminate Hp].
    simpl in *. injection Hp as ->. f_equal. lia.
Qed.

Lemma intToString_nonempty (z : Z) : intToString z <> EmptyString.
Proof.
  intros H. pose proof (parseInt_intToString z) as Hp. rewrite H in Hp. discriminate.
Qed.

(** ** Rate limiter: the branch that lets the request pass *)

Lemma readCount_after_put (kv : gmap string KVEntry) (now : Z) (key : string)
    (count : option Z) :
  readCount (kvPut kv now key (Raw (countToString (option_map (fun c => c + 1) count)))
                   (Some 120)) now key
  = option_map (fun c => c + 1) count.
Proof.
  unfold readCount, kvGet, kvPut. rewrite lookup_insert_eq. simpl.
  assert (E : (now + 120 * 1000 <=? now) = false) by lia.
  rewrite E. destruct count as [c|]; simpl; [|reflexivity].
  destruct (String.eqb (intToString (c + 1)) EmptyString) eqn:F.
  - apply String.eqb_eq in F. exfalso. exact (intToString_nonempty _ F).
  - apply parseInt_intToString.
Qed.

Lemma readCount_put_ne (kv : gmap string KVEntry) (now : Z) (key key' : string)
    (t : KVText) (ttl : option Z) :
  key <> key' -> readCount (kvPut kv now key t ttl) now key' = readCount kv now key'.
Proof.
  intros H. unfold readCount. rewrite kvGet_kvPut_ne by exact H. reflexivity.
Qed.

Lemma rate_keys_distinct (a b c : string) :
  "security:" +:+ "rate_limit:ip:" +:+ a <> "security:" +:+ "rate_limit:fingerprint:" +:+ b
  /\ "security:" +:+ "rate_limit:ip:" +:+ a <> "security:" +:+ "rate_limit:global:" +:+ c
  /\ "security:" +:+ "rate_limit:fingerprint:" +:+ b <> "security:" +:+ "rate_limit:global:" +:+ c.
Proof. repeat split; discriminate. Qed.

(** Some scope is at or above its ceiling exactly when the scan finds one. *)
Lemma over_limit_found (kv : gmap string KVEntry) (h : Headers) (now : Z) :
  (exists check c, check ∈ rateLimitConfig h now
                   /\ readCount kv now (securityKey check) = Some c
                   /\ rc_limit check <= c)
  <-> exists r, find overLimit (checkResults kv h now) = Some r.
Proof.
  split.
  - intros (check & c & Hin & Hc & Hle).
    destruct (find overLimit (checkResults kv h now)) as [r|] eqn:E; [eauto|].
    exfalso.
    assert (Hmem : In (mkCheckResult check (readCount kv now (securityKey check))
                                     (securityKey check))
                      (checkResults kv h now)).
    { unfold checkResults. apply in_map_iff. exists check.
      split; [reflexivity | apply list_elem_of_In; exact Hin]. }
    pose proof (find_none _ _ E _ Hmem) as Hf.
    unfold overLimit in Hf. cbn [cr_count cr_check] in Hf. rewrite Hc in Hf.
    lia.
  - intros [r Hr]. apply find_some in Hr as [Hin Hover].
    unfold checkResults in Hin. apply in_map_iff in Hin as (check & <- & Hin).
    unfold overLimit in Hover. simpl in Hover.
    destruct (readCount kv now (securityKey check)) as [c|] eqn:Hc; [|discriminate].
    exists check, c. split; [apply list_elem_of_In; exact Hin|]. split; [exact Hc | lia].
Qed.

(** When no scope is at or above its ceiling the request passes, every
    counter reads one more than before, and the remaining quota is the
    fingerprint ceiling minus the fingerprint count minus one. *)
Lemma rate_limit_accept (kv : gmap string KVEntry) (h : Headers) (now : Z) :
  find overLimit (checkResults kv h now) = None ->
  let out := checkRateLimit kv h now in
  rl_allowed out.1 = true
  /\ (exists fp, rateLimitConfig h now !! 1%nat = Some fp
                 /\ rc_type fp = LimitFingerprint /\ rc_limit fp = 15
                 /\ rl_remaining out.1
                    = option_map (fun c => rc_limit fp - c - 1)
                                 (readCount kv now (securityKey fp)))
  /\ forall check, check ∈ rateLimitConfig h now ->
                   readCount out.2 now (securityKey check)
                   = option_map (fun c => c + 1) (readCount kv now (securityKey check)).
Proof.
  intros Hnone out. unfold out, checkRateLimit, checkRateLimitWith. rewrite Hnone.
  unfold checkResults, rateLimitConfig in *.
  set (a := templateHeader (h_ip h) +:+ ":" +:+ intToString (minuteOf now)).
  set (b := generateClientFingerprint h +:+ ":" +:+ intToString (minuteOf now)).
  set (c := intToString (minuteOf now)).
  destruct (rate_keys_distinct a b c) as (Hab & Hac & Hbc).
  cbn [map find isFingerprint cr_check rc_type fst snd bumpCounters fold_left
       cr_securityKey cr_count rl_allowed rl_remaining rc_limit].
  split; [reflexivity|]. split.
  - eexists. split; [reflexivity|]. cbn. repeat split; reflexivity.
  - intros check Hin.
    apply elem_of_cons in Hin as [->|Hin]; [|apply elem_of_cons in Hin as [->|Hin]];
      [| |apply list_elem_of_singleton in Hin as ->]; unfold securityKey; cbn [rc_key].
    + rewrite !readCount_put_ne by (intros E; symmetry in E; auto).
      apply readCount_after_put.
    + rewrite readCount_put_ne by (intros E; symmetry in E; auto).
      apply readCount_after_put.
    + apply readCount_after_put.
Qed.

(** ** The tier invariant, for times that are numbers *)

Lemma timeAfter_false_le (x y : ScoreRecord) :
  numericTime x -> numericTime y -> timeAfter x y = false -> timeLe x y.
Proof.
  intros [a Ha] [b Hb]. unfold timeAfter, timeLe, Num.gt. rewrite Ha, Hb.
  cbn [ToNumber Num.sub Num.add Num.neg Num.lt Num.le].
  intros H. apply Qlt_bool_false_iff in H. apply Qle_bool_iff. lra.
Qed.

Lemma timeAfter_true_le (x y : ScoreRecord) :
  numericTime x -> numericTime y -> timeAfter x y = true -> timeLe y x.
Proof.
  intros [a Ha] [b Hb]. unfold timeAfter, timeLe, Num.gt. rewrite Ha, Hb.
  cbn [ToNumber Num.sub Num.add Num.neg Num.lt Num.le].
  intros H. apply Qlt_bool_iff in H. apply Qle_bool_iff. lra.
Qed.

Lemma insertByTime_hd (y x : ScoreRecord) (l : list ScoreRecord) :
  timeLe y x -> HdRel timeLe y l -> HdRel timeLe y (insertByTime x l).
Proof.
  intros Hyx Hl. destruct l as [|z l]; simpl; [constructor; exact Hyx|].
  destruct (timeAfter x z).
  - inversion Hl; subst. constructor. assumption.
  - constructor. exact Hyx.
Qed.

Lemma insertByTime_sorted (x : ScoreRecord) (l : list ScoreRecord) :
  numericTime x -> Forall numericTime l ->
  Sorted timeLe l -> Sorted timeLe (insertByTime x l).
Proof.
  intros Hx Hl Hs. induction l as [|y l IH]; simpl.
  - repeat constructor.
  - inversion Hl as [|? ? Hy Hl']; subst. inversion Hs as [|? ? Hs' Hhd]; subst.
    destruct (timeAfter x y) eqn:E.
    + constructor; [apply IH; assumption|].
      apply insertByTime_hd; [|exact Hhd].
      apply timeAfter_true_le; assumption.
    + constructor; [exact Hs|]. constructor.
      apply timeAfter_false_le; assumption.
Qed.

Lemma sortByTime_sorted (l : list ScoreRecord) :
  Forall numericTime l -> Sorted timeLe (sortByTime l).
Proof.
  induction l as [|x l IH]; simpl; intros H; [constructor|].
  inversion H as [|? ? Hx Hl]; subst.
  apply insertByTime_sorted; [exact Hx| |apply IH; exact Hl].
  rewrite sortByTime_perm. exact Hl.
Qed.

Lemma Sorted_take_time (n : nat) (l : list ScoreRecord) :
  Sorted timeLe l -> Sorted timeLe (take n l).
Proof.
  revert l. induction n as [|n IH]; intros l Hs; [constructor|].
  destruct l as [|x l]; simpl; [constructor|].
  inversion Hs as [|? ? Hs' Hhd]; subst.
  constructor; [apply IH; exact Hs'|].
  destruct l as [|y l]; destruct n; simpl; try constructor.
  inversion Hhd; subst. assumption.
Qed.

Lemma written_board_usernames (l : list ScoreRecord) (new : ScoreRecord)
    (board : list ScoreRecord) :
  decideBoard l new = Write board ->
  NoDup (map rec_username l) ->
  exists l', board = top20 (sortByTime l')
             /\ (length l' <= S (length l))%nat
             /\ (Forall numericTime l -> numericTime new -> Forall numericTime l')
             /\ NoDup (map rec_username l').
Proof.
  unfold decideBoard. intros H Hnd.
  destruct (existsb _ l); [discriminate|].
  destruct (findEntry _ l) as [[i existing]|] eqn:Hf.
  - destruct (jsLt (rec_time new) (rec_time existing)); [|discriminate].
    injection H as <-. exists (<[ i := new ]> l).
    destruct (findEntry_Some _ _ _ _ Hf) as [Hi Hname]. apply String.eqb_eq in Hname.
    split; [reflexivity|]. split; [rewrite length_insert; lia|]. split.
    + intros Hl Hn. apply Forall_insert; assumption.
    + rewrite list_fmap_insert. rewrite list_insert_id; [exact Hnd|].
      rewrite list_lookup_fmap, Hi. simpl. congruence.
  - injection H as <-. exists (l ++ [new])%list.
    split; [reflexivity|]. split; [rewrite length_app; simpl; lia|]. split.
    + intros Hl Hn. apply Forall_app. split; [exact Hl | repeat constructor; exact Hn].
    + rewrite fmap_app. apply NoDup_app. split; [exact Hnd|]. split.
      * intros name Hin Hin'. apply list_elem_of_singleton in Hin'. subst name.
        apply list_elem_of_fmap in Hin as (r & Hr & Hrl).
        pose proof (findEntry_None _ _ Hf r Hrl) as Hne. simpl in Hne.
        apply String.eqb_neq in Hne. congruence.
      * apply NoDup_singleton.
Qed.

(** A tier written from a board of numeric times with a numeric new time
    has at most 20 entries, is sorted by time, and has one record per user
    when the board had. *)
Lemma written_board_invariant (l : list ScoreRecord) (new : ScoreRecord)
    (board : list ScoreRecord) :
  decideBoard l new = Write board ->
  Forall numericTime l -> numericTime new -> NoDup (map rec_username l) ->
  tierInvariant board /\ Forall numericTime board.
Proof.
  intros Hd Hl Hn Hnd.
  destruct (written_board_usernames l new board Hd Hnd) as (l' & -> & _ & Hnum & Hnd').
  specialize (Hnum Hl Hn).
  split; [split; [apply top20_length|split]|].
  - apply Sorted_take_time, sortByTime_sorted. exact Hnum.
  - unfold top20. rewrite fmap_take.
    eapply sublist_NoDup; [|apply sublist_take].
    change (NoDup (rec_username <$> sortByTime l')).
    rewrite sortByTime_perm. exact Hnd'.
  - unfold top20. apply Forall_take. rewrite sortByTime_perm. exact Hnum.
Qed.

Lemma jsonRecord_numeric (r : ScoreRecord) :
  numericTime r ->
  rec_time (jsonRecord r) = rec_time r /\ rec_username (jsonRecord r) = rec_username r.
Proof. intros [q Hq]. unfold jsonRecord; simpl. rewrite Hq. auto. Qed.

(** Serialisation keeps the invariant of a tier with numeric times. *)
Lemma stored_board_invariant (board : list ScoreRecord) :
  tierInvariant board -> Forall numericTime board ->
  tierInvariant (map jsonRecord board) /\ Forall numericTime (map jsonRecord board).
Proof.
  intros (Hlen & Hs & Hnd) Hnum.
  assert (Hu : map rec_username (map jsonRecord board) = map rec_username board).
  { rewrite map_map. reflexivity. }
  split; [split; [rewrite length_map; exact Hlen | split]|].
  - clear Hlen Hnd Hu. unfold sortedByTime in *.
    induction board as [|x l IH]; simpl; [constructor|].
    inversion Hs as [|? ? Hs' Hhd]; subst. inversion Hnum as [|? ? Hx Hl]; subst.
    constructor; [apply IH; assumption|].
    destruct l as [|y l]; simpl; constructor.
    inversion Hhd; subst. inversion Hl; subst.
    unfold timeLe in *.
    rewrite (proj1 (jsonRecord_numeric x Hx)), (proj1 (jsonRecord_numeric y ltac:(assumption))).
    assumption.
  - rewrite Hu. exact Hnd.
  - apply Forall_fmap. eapply Forall_impl; [exact Hnum|].
    intros r Hr. destruct Hr as [q Hq]. exists q. simpl. rewrite Hq. reflexivity.
Qed.

Section NumericTimes.

Variable fracToString : Q -> string.

(** For a time of number type that passes [validateTime], [parseInt(time)]
    is that integer. *)
Lemma number_time_parses (n m : JsNumber) :
  validateTime (VNum n) = inr m ->
  exists z, parseIntValue fracToString (VNum n) = JInt z /\ 1 <= z <= 9999.
Proof.
  intros Hv. destruct (validateTime_number n m Hv) as (q & -> & _ & Hint & H1 & H2).
  exists (Qfloor q).
  assert (Hq : (q == inject_Z (Qfloor q))%Q).
  { apply Qeq_bool_iff. exact Hint. }
  split.
  - unfold parseIntValue, ToString, NumberToString.
    simpl in Hint. rewrite Hint.
    assert (Habs : Qlt_bool (Qabs q) (inject_Z (10 ^ 21)) = true).
    { apply Qlt_bool_iff. rewrite Qabs_pos by lra.
      eapply Qle_lt_trans; [exact H2 | reflexivity]. }
    rewrite Habs. cbn [andb]. rewrite parseInt_intToString. reflexivity.
  - rewrite Hq in H1, H2.
    change 1%Q with (inject_Z 1) in H1. change 9999%Q with (inject_Z 9999) in H2.
    rewrite <- Zle_Qle in H1, H2. lia.
Qed.

(** One step of the invariant: on a tier of numeric times with one record
    per user, the write of a submission whose time is of number type
    leaves a stored tier of at most 20 entries, sorted by time, with one
    record per user and numeric times. *)
Lemma accept_write_keeps_invariant (w w' : World) (now : Z) (d : Difficulty)
    (username : string) (n m : JsNumber) (g : GameData) (remaining : option Z)
    (status : Z) (data : list ScoreRecord) (meta : Meta) (l : list ScoreRecord) :
  readBoard w now d = Some l ->
  Forall numericTime l -> NoDup (map rec_username l) ->
  validateTime (VNum n) = inr m ->
  acceptPath fracToString w now d username (VNum n) g remaining
  = (SuccessResponse status data meta, w') ->
  m_improved meta = None ->
  tierInvariant data /\ Forall numericTime data /\ readBoard w' now d = Some data.
Proof.
  intros Hread Hnum Hnd Hv Ha Hm.
  destruct (acceptPath_written _ _ _ _ _ _ _ _ _ _ _ _ Ha Hm)
    as (l0 & board & Hread0 & Hdec & -> & ->).
  rewrite Hread in Hread0. injection Hread0 as <-.
  destruct (number_time_parses n m Hv) as (z & Hz & _).
  assert (Hnew : numericTime (newRecord fracToString now username (VNum n) g)).
  { exists (inject_Z z). unfold newRecord; simpl. rewrite Hz. reflexivity. }
  destruct (written_board_invariant l _ board Hdec Hnum Hnew Hnd) as [Hinv Hnb].
  destruct (stored_board_invariant board Hinv Hnb) as [Hinv' Hnb'].
  split; [exact Hinv'|]. split; [exact Hnb'|].
  unfold readBoard, kvGet, kvPut. simpl. rewrite lookup_insert_eq. reflexivity.
Qed.

End NumericTimes.

(** ** The two end-to-end scenarios of the specification *)

(** A beginner claim of 45 s in 12 moves with a fresh gameId from a fresh
    client on an empty store: HTTP 200, the record appended, rank 1. *)
Example scenario_beginner_accepted :
  (handleLeaderboardAPI noFraction emptyWorld (day0 + 60000)
     (submission Beginner "alice" (VNum (JInt 45)) (wonGame Beginner "g1" 45 12 day0))).1
  = SuccessResponse 200
      [mkScoreRecord "alice" (VNum (Fin 45)) (day0 + 60000) (VStr "g1") (VNum (Fin 12)) true]
      (mkMeta "alice" (VNum (Fin 45)) None None (Some 1) (Some (Some 14))).
Proof. vm_compute. reflexivity. Qed.

(** An expert claim of 10 s, below the expert world-record reference:
    HTTP 400 with code UNREASONABLE_SCORE, and no tier is written. *)
Example scenario_expert_unreasonable :
  let out := handleLeaderboardAPI noFraction emptyWorld (day0 + 60000)
               (submission Expert "alice" (VNum (JInt 10)) (wonGame Expert "g1" 10 30 day0)) in
  out.1 = ErrorResponse UNREASONABLE_SCORE 400
  /\ kvGet (w_kv out.2) (day0 + 60000) (leaderboardKey Expert) = None.
Proof. split; vm_compute; reflexivity. Qed.

(** ** The tier along a run of the service *)

Lemma leaderboardKey_not_security (x : string) (d : Difficulty) :
  "security:" +:+ x <> leaderboardKey d.
Proof. destruct d; discriminate. Qed.

Lemma leaderboardKey_inj (d d' : Difficulty) :
  leaderboardKey d = leaderboardKey d' -> d = d'.
Proof. destruct d, d'; try reflexivity; discriminate. Qed.

Lemma bumpCounters_tier (rs : list CheckResult) :
  forall (kv : gmap string KVEntry) (now : Z) (d : Difficulty),
    Forall (fun r => exists x, cr_securityKey r = "security:" +:+ x) rs ->
    bumpCounters kv now rs !! leaderboardKey d = kv !! leaderboardKey d.
Proof.
  induction rs as [|r rs IH]; intros kv now d H; [reflexivity|].
  inversion H as [|? ? [x Hx] Hrs]; subst.
  unfold bumpCounters in *. simpl. rewrite IH by exact Hrs.
  unfold kvPut. rewrite lookup_insert_ne; [reflexivity|].
  rewrite Hx. apply leaderboardKey_not_security.
Qed.

(** The rate limiter does not touch a tier. *)
Lemma checkRateLimit_tier (kv : gmap string KVEntry) (h : Headers) (now : Z)
    (d : Difficulty) :
  (checkRateLimit kv h now).2 !! leaderboardKey d = kv !! leaderboardKey d.
Proof.
  unfold checkRateLimit, checkRateLimitWith.
  destruct (find overLimit (checkResults kv h now)); [reflexivity|].
  assert (H : bumpCounters kv now (checkResults kv h now) !! leaderboardKey d
              = kv !! leaderboardKey d).
  { apply bumpCounters_tier. unfold checkResults, rateLimitConfig, securityKey.
    repeat constructor; eexists; reflexivity. }
  destruct (find isFingerprint (checkResults kv h now)); exact H.
Qed.

Section Run.

Variable fracToString : Q -> string.

(** The behaviour analyser does not touch a tier. *)
Lemma analyzeUserBehavior_tier (username : string) (time : JsValue) (d d' : Difficulty)
    (w : World) (now : Z) :
  w_kv (analyzeUserBehavior fracToString username time d w now).2 !! leaderboardKey d'
  = w_kv w !! leaderboardKey d'.
Proof.
  unfold analyzeUserBehavior.
  pose proof (safeGet_store_unchanged true w now (userStatsKey username d)
                (DStats defaultStats) None) as Hkv.
  destruct (safeGet true w now (userStatsKey username d) (DStats defaultStats) None)
    as [[loaded shared] w1]. simpl in Hkv.
  assert (Hput : forall v, w_kv (safePut true w1 now (userStatsKey username d) v
                                        (Some 604800)).2 !! leaderboardKey d'
                           = w_kv w !! leaderboardKey d').
  { intros v. unfold safePut, kvPut. simpl.
    rewrite lookup_insert_ne; [rewrite Hkv; reflexivity|].
    apply (leaderboardKey_not_security _ d'). }
  destruct loaded as [l|stats].
  - specialize (Hput (DBoard l)).
    destruct (safePut true w1 now (userStatsKey username d) (DBoard l) (Some 604800)).
    exact Hput.
  - destruct (suspicionStep now stats) as [stats1 blocked].
    destruct blocked.
    + destruct shared; simpl; rewrite Hkv; reflexivity.
    + specialize (Hput (DStats (recordSubmission fracToString now time stats1))).
      destruct (safePut true w1 now (userStatsKey username d)
                        (DStats (recordSubmission fracToString now time stats1))
                        (Some 604800)).
      exact Hput.
Qed.

(** What a POST does to the tier of [d']: nothing, or the write of the
    accepted response. *)
Lemma handleLeaderboardAPI_tier (w : World) (now : Z) (rq : Request) (d' : Difficulty) :
  let out := handleLeaderboardAPI fracToString w now rq in
  w_kv out.2 !! leaderboardKey d' = w_kv w !! leaderboardKey d'
  \/ exists status data meta,
       out.1 = SuccessResponse status data meta /\ m_improved meta = None
       /\ w_kv out.2 !! leaderboardKey d' = Some (mkKVEntry (Json (DBoard data)) None).
Proof.
  intros out.
  destruct out as [resp w'] eqn:Eout. simpl.
  destruct resp as [code status|status data meta].
  - left. revert Eout. subst out. unfold handleLeaderboardAPI.
    destruct (difficultyOfKey (rq_pathTail rq)) as [d|];
      [|intros H; inversion H; reflexivity].
    pose proof (checkRateLimit_tier (w_kv w) (rq_headers rq) now d') as Hr.
    destruct (checkRateLimit (w_kv w) (rq_headers rq) now) as [rl kv1]. simpl in Hr.
    destruct (rl_allowed rl); simpl; [|intros H; inversion H; exact Hr].
    unfold handlePost.
    destruct (rq_body rq) as [|username time [| |g]];
      try (intros H; inversion H; exact Hr).
    + destruct (validateUsername username), (validateTime time);
        intros H; inversion H; exact Hr.
    + destruct (validateUsername username); [intros H; inversion H; exact Hr|].
      destruct (validateTime time); [intros H; inversion H; exact Hr|].
      destruct (validateGameDataStructure g); [intros H; inversion H; exact Hr|].
      destruct (validateScoreReasonableness now time d (Some g)) as [|[]];
        [intros H; inversion H; exact Hr|].
      pose proof (analyzeUserBehavior_tier
                    (match username with VStr s0 => s0 | _ => EmptyString end)
                    time d d' (mkWorld kv1 (w_cache w)) now) as Ha.
      destruct (analyzeUserBehavior fracToString _ time d (mkWorld kv1 (w_cache w)) now)
        as [[|stats saved] w1]; simpl in Ha.
      * intros H; inversion H; subst. rewrite Ha. exact Hr.
      * unfold acceptPath.
        destruct (readBoard w1 now d) as [l|];
          [|intros H; inversion H; subst; rewrite Ha; exact Hr].
        destruct (decideBoard l _);
          intros H; inversion H; subst; rewrite Ha; exact Hr.
  - destruct (m_improved meta) as [b|] eqn:Em.
    + left. subst out.
      destruct (handleLeaderboardAPI_success _ _ _ _ _ _ _ _ Eout)
        as (d & rl & kv1 & _ & Hr & _ & Hp).
      destruct (handlePost_success _ _ _ _ _ _ _ _ _ _ Hp)
        as (username & time & g & stats & saved & w1 & _ & _ & _ & Ha & Hacc).
      pose proof (checkRateLimit_tier (w_kv w) (rq_headers rq) now d') as Hr'.
      rewrite Hr in Hr'. simpl in Hr'.
      pose proof (analyzeUserBehavior_tier username time d d'
                    (mkWorld kv1 (w_cache w)) now) as Ha'.
      rewrite Ha in Ha'. simpl in Ha'.
      revert Hacc. unfold acceptPath.
      destruct (readBoard w1 now d) as [l|]; [|discriminate].
      destruct (decideBoard l _); intros H; inversion H; subst; try discriminate.
      rewrite Ha'. exact Hr'.
    + subst out.
      destruct (handleLeaderboardAPI_success _ _ _ _ _ _ _ _ Eout)
        as (d & rl & kv1 & _ & Hr & _ & Hp).
      destruct (handlePost_success _ _ _ _ _ _ _ _ _ _ Hp)
        as (username & time & g & stats & saved & w1 & _ & _ & _ & Ha & Hacc).
      destruct (acceptPath_written _ _ _ _ _ _ _ _ _ _ _ _ Hacc Em)
        as (l & board & _ & _ & _ & ->).
      destruct (decide (leaderboardKey d = leaderboardKey d')) as [E|Hne];
        [apply leaderboardKey_inj in E; subst d'|].
      * right. exists status, data, meta. split; [reflexivity|]. split; [exact Em|].
        unfold kvPut. simpl. apply lookup_insert_eq.
      * left. unfold kvPut. simpl.
        rewrite lookup_insert_ne by exact Hne.
        pose proof (checkRateLimit_tier (w_kv w) (rq_headers rq) now d') as Hr'.
        rewrite Hr in Hr'. simpl in Hr'.
        pose proof (analyzeUserBehavior_tier username time d d'
                      (mkWorld kv1 (w_cache w)) now) as Ha'.
        rewrite Ha in Ha'. simpl in Ha'. rewrite Ha'. exact Hr'.
Qed.

End Run.

Section Invariant.

Variable fracToString : Q -> string.

Lemma goodTier_readBoard (w : World) (now : Z) (d : Difficulty) :
  goodTier w d ->
  exists l, readBoard w now d = Some l
            /\ Forall numericTime l /\ NoDup (map rec_username l).
Proof.
  unfold readBoard, kvGet.
  intros [H|(l & H & (_ & _ & Hnd) & Hnum)]; rewrite H.
  - exists []. split; [reflexivity|]. split; constructor.
  - exists l. simpl. auto.
Qed.

(** One POST whose time is of number type keeps every tier good. *)
Lemma goodTier_step (w : World) (now : Z) (rq : Request) :
  (forall d, goodTier w d) -> numberTimed rq ->
  forall d, goodTier (handleLeaderboardAPI fracToString w now rq).2 d.
Proof.
  intros Hgood Hnum d'.
  destruct (handleLeaderboardAPI_tier fracToString w now rq d')
    as [Hsame|(status & data & meta & Hresp & Em & Hlook)].
  - unfold goodTier. rewrite Hsame. exact (Hgood d').
  - right. exists data. split; [exact Hlook|].
    destruct (handleLeaderboardAPI fracToString w now rq) as [resp w'] eqn:Eout.
    simpl in Hresp. subst resp.
    destruct (handleLeaderboardAPI_success _ _ _ _ _ _ _ _ Eout)
      as (d & rl & kv1 & _ & Hr & _ & Hp).
    destruct (handlePost_success _ _ _ _ _ _ _ _ _ _ Hp)
      as (username & time & g & stats & saved & w1 & Hbody & Hvalid & _ & Ha & Hacc).
    unfold numberTimed in Hnum. rewrite Hbody in Hnum.
    destruct time as [| | |n|]; try contradiction.
    unfold validTime in Hvalid.
    destruct (validateTime (VNum n)) as [|m] eqn:Ev; [discriminate|].
    assert (Hw1 : goodTier w1 d).
    { unfold goodTier.
      pose proof (analyzeUserBehavior_tier fracToString username (VNum n) d d
                    (mkWorld kv1 (w_cache w)) now) as Ha'.
      rewrite Ha in Ha'. simpl in Ha'. rewrite Ha'.
      pose proof (checkRateLimit_tier (w_kv w) (rq_headers rq) now d) as Hr'.
      rewrite Hr in Hr'. simpl in Hr'. rewrite Hr'. exact (Hgood d). }
    destruct (goodTier_readBoard w1 now d Hw1) as (l & Hread & Hl & Hnd).
    destruct (accept_write_keeps_invariant fracToString w1 w' now d username n m g
                (rl_remaining rl) status data meta l Hread Hl Hnd Ev Hacc Em)
      as (Hinv & Hnumeric & _).
    split; assumption.
Qed.

(** From a store without tiers, along any sequence of POST requests whose
    times are of number type, every stored tier has at most 20 entries, is
    sorted by time and has one record per user. *)
Lemma tier_invariant_along_run (rqs : list (Z * Request)) :
  forall w : World,
    (forall d, goodTier w d) ->
    Forall (fun r => numberTimed r.2) rqs ->
    forall d, goodTier (runRequests fracToString w rqs) d.
Proof.
  induction rqs as [|[now rq] rqs IH]; intros w Hgood Hall d; [exact (Hgood d)|].
  inversion Hall as [|? ? Hrq Hrest]; subst. simpl.
  apply IH; [|exact Hrest].
  apply goodTier_step; assumption.
Qed.

Lemma emptyWorld_good (d : Difficulty) : goodTier emptyWorld d.
Proof. left. apply lookup_empty. Qed.

End Invariant.

(** X18.  A POST for a tier that stores a record whose gameId is strictly
    equal to the submitted one is never answered with a success, whatever
    else the request holds. *)
Lemma stored_game_never_accepted (fracToString : Q -> string) (w : World) (now : Z)
    (rq : Request) (d : Difficulty) (l : list ScoreRecord) (r : ScoreRecord)
    (username time : JsValue) (g : GameData) :
  difficultyOfKey (rq_pathTail rq) = Some d ->
  w_kv w !! leaderboardKey d = Some (mkKVEntry (Json (DBoard l)) None) ->
  r ∈ l ->
  rq_body rq = BodyFields username time (GdObject g) ->
  sameGame (gd_gameId g) r = true ->
  forall status data meta,
    (handleLeaderboardAPI fracToString w now rq).1 <> SuccessResponse status data meta.
Proof.
  intros Hd Hlook Hr Hbody Hgame status data meta Hresp.
  destruct (handleLeaderboardAPI fracToString w now rq) as [resp w'] eqn:Eout.
  simpl in Hresp. subst resp.
  destruct (handleLeaderboardAPI_success _ _ _ _ _ _ _ _ Eout)
    as (d0 & rl & kv1 & Hd0 & Hrate & _ & Hp).
  rewrite Hd in Hd0. injection Hd0 as <-.
  destruct (handlePost_success _ _ _ _ _ _ _ _ _ _ Hp)
    as (name & time0 & g0 & stats & saved & w1 & Hbody0 & _ & _ & Ha & Hacc).
  rewrite Hbody in Hbody0. injection Hbody0 as -> -> ->.
  assert (Hread : readBoard w1 now d = Some l).
  { unfold readBoard, kvGet.
    pose proof (analyzeUserBehavior_tier fracToString name time0 d d
                  (mkWorld kv1 (w_cache w)) now) as Ha'.
    rewrite Ha in Ha'. simpl in Ha'. rewrite Ha'.
    pose proof (checkRateLimit_tier (w_kv w) (rq_headers rq) now d) as Hr'.
    rewrite Hrate in Hr'. simpl in Hr'. rewrite Hr', Hlook. reflexivity. }
  rewrite (duplicate_rejected fracToString w1 now d name time0 g0 (rl_remaining rl) l r
             Hread Hr Hgame) in Hacc.
  discriminate.
Qed.

(** ** Claims settled at a failing input *)

(** C1.  The code at the failing inputs.  "alice" holds a record of 50 s.
    Her submission with the top-level [time] "9e2" is validated as 900 s
    (by [validateTime] and by the score validation, which convert with
    [Number]), which is no better than 50 s; yet the record is built and
    compared with [parseInt("9e2")], which is 9: the stored record is
    replaced and the tier now holds 9 s.  Her submission with the time
    ".5e1" is validated as 5 s, which is strictly better than 50 s; yet
    [parseInt(".5e1")] is NaN, the comparison is false and the answer is
    the success with [improved: false], the tier unchanged. *)
Theorem string_time_replacement_ignores_validated_time :
  forall fracToString : Q -> string,
    (validateTime (VStr "9e2") = inr (Fin 900)
     /\ parseInt "9e2" = Some 9
     /\ jsLt (VNum (Fin 900)) (rec_time aliceRecord) = false
     /\ let out := handleLeaderboardAPI fracToString worldWithBoard (day0 + 1000000)
                                         aliceSlowString in
        out.1 = SuccessResponse 200
                  [mkScoreRecord "alice" (VNum (Fin 9)) (day0 + 1000000) (VStr "g1")
                                 (VNum (Fin 20)) true]
                  (mkMeta "alice" (VNum (Fin 9)) None None (Some 1) (Some (Some 14)))
        /\ kvGet (w_kv out.2) (day0 + 1000000) (leaderboardKey Beginner)
           = Some (Json (DBoard [mkScoreRecord "alice" (VNum (Fin 9)) (day0 + 1000000)
                                               (VStr "g1") (VNum (Fin 20)) true])))
    /\ (validateTime (VStr ".5e1") = inr (Fin 5)
        /\ parseInt ".5e1" = None
        /\ jsLt (VNum (Fin 5)) (rec_time aliceRecord) = true
        /\ let out := handleLeaderboardAPI fracToString worldWithBoard (day0 + 20000)
                                            aliceFastString in
           out.1 = SuccessResponse 200 [aliceRecord]
                     (mkMeta "alice" VNull (Some false) (Some (VNum (Fin 50))) (Some 1) None)
           /\ kvGet (w_kv out.2) (day0 + 20000) (leaderboardKey Beginner)
              = Some (Json (DBoard [aliceRecord]))).
Proof.
  intros fracToString. split.
  - split; [reflexivity|]. split; [reflexivity|]. split; [reflexivity|].
    cbv zeta. split; vm_compute; reflexivity.
  - split; [reflexivity|]. split; [reflexivity|]. split; [reflexivity|].
    cbv zeta. split; vm_compute; reflexivity.
Qed.

(** C6.  The code at the failing input.  On the expert tier the string
    "40" is the integer 40, which is at least the floor and the world
    record and below twice the world record (62.266 s); the number 40 is
    rejected as a suspicious round time, but for the string
    [Number.isInteger] answers false and the score validation lets the
    claim pass, with or without game data. *)
Theorem integer_string_time_passes_round_check :
  forall now : Z,
    ToNumber (VStr "40") = Fin 40
    /\ Num.isIntegral (ToNumber (VStr "40")) = true
    /\ (40 < worldRecords Expert * 2)%Q
    /\ Number_isInteger (VStr "40") = false
    /\ validateScoreReasonableness now (VNum (Fin 40)) Expert None
       = inl (SuspiciousRound, SevMedium)
    /\ validateScoreReasonableness now (VStr "40") Expert None = inr tt
    /\ validateScoreReasonableness (day0 + 60000) (VStr "40") Expert
         (Some (wonGame Expert "g1" 40 100 day0)) = inr tt.
Proof.
  intros now. repeat split; reflexivity.
Qed.


(** ** The comparison of signatures *)

Lemma charCode_inj (x y : ascii) : charCode x = charCode y -> x = y.
Proof.
  unfold charCode. intros H. apply N2Z.inj in H.
  rewrite <- (ascii_N_embedding x), <- (ascii_N_embedding y). congruence.
Qed.

Lemma xorFold_zero (a : string) :
  forall (b : string) (r : Z),
    String.length a = String.length b ->
    (xorFold a b r = 0 <-> r = 0 /\ a = b).
Proof.
  induction a as [|x a IH]; intros [|y b] r Hlen; simpl in Hlen; try discriminate.
  - simpl. split; [intros ->; split; reflexivity | intros [-> _]; reflexivity].
  - simpl. injection Hlen as Hlen. rewrite (IH b _ Hlen), Z.lor_eq_0_iff. split.
    + intros [[-> Hx] ->]. apply Z.lxor_eq in Hx. apply charCode_inj in Hx. subst.
      split; reflexivity.
    + intros [-> Heq]. injection Heq as -> ->. rewrite Z.lxor_nilpotent.
      repeat split; reflexivity.
Qed.

(** X1.  [secureCompare] decides equality of strings: it answers true
    exactly when the two strings are the same, whatever their lengths. *)
Theorem secureCompare_iff_equal (a b : string) :
  secureCompare a b = true <-> a = b.
Proof.
  unfold secureCompare.
  destruct (Nat.eqb_spec (String.length a) (String.length b)) as [Hlen|Hlen]; simpl.
  - rewrite Z.eqb_eq, (xorFold_zero a b 0 Hlen). split; [intros [_ H]; exact H | auto].
  - split; [discriminate | intros ->; contradiction].
Qed.

(** ** Admin tokens: window and single use *)

(** X2.  For a token whose timestamp part reads as the integer [t], the
    answer is [token_expired] exactly when [t] lies outside the five
    minutes that end at [now], whatever the signature and the store. *)
Theorem admin_token_window (token adminKey decoded timestampStr signature : string)
    (kv : gmap string KVEntry) (now t : Z) :
  atob token = Some decoded ->
  splitColon decoded = [timestampStr; signature] ->
  parseInt timestampStr = Some t ->
  ((validateAdminToken token adminKey kv now).1 = Some token_expired
   <-> ~ (now - 300000 <= t <= now)).
Proof.
  intros Hdec Hsplit Hparse.
  rewrite (token_expired_iff token adminKey decoded timestampStr signature kv now Hdec Hsplit).
  apply timestamp_window. exact Hparse.
Qed.

Lemma admin_token_window_witness :
  (validateAdminToken tokenAtDay0 adminKey0 ∅ (day0 + 300001)).1 = Some token_expired.
Proof.
  apply (admin_token_window tokenAtDay0 adminKey0 "1700000000000:scqjk0" "1700000000000"
           "scqjk0" ∅ (day0 + 300001) day0).
  - vm_compute. reflexivity.
  - vm_compute. reflexivity.
  - vm_compute. reflexivity.
  - unfold day0. lia.
Defined.

Lemma validateAdminToken_accepted (token adminKey : string) (kv kv' : gmap string KVEntry)
    (now : Z) :
  validateAdminToken token adminKey kv now = (None, kv') ->
  exists decoded timestampStr signature,
    atob token = Some decoded
    /\ splitColon decoded = [timestampStr; signature]
    /\ tokenAgeRejected now (parseInt timestampStr) = false
    /\ secureCompare signature (generateTokenSignature timestampStr adminKey) = true
    /\ kv' = kvPut kv now (usedTokenKey token) (Raw "used") (Some 600).
Proof.
  unfold validateAdminToken. intros H.
  destruct (atob token) as [decoded|] eqn:Hdec; [|discriminate].
  destruct (splitColon decoded) as [|ts [|sig [|? ?]]] eqn:Hsplit; try discriminate.
  destruct (tokenAgeRejected now (parseInt ts)) eqn:Hage; [discriminate|].
  destruct (secureCompare sig (generateTokenSignature ts adminKey)) eqn:Hsig;
    simpl in H; [|discriminate].
  exists decoded, ts, sig.
  split; [reflexivity|]. split; [exact Hsplit|]. split; [exact Hage|].
  split; [exact Hsig|].
  destruct (kvGet kv now (usedTokenKey token)) as [t|].
  - destruct (textTruthy t); [discriminate|]. inversion H. reflexivity.
  - inversion H. reflexivity.
Qed.

Lemma validateAdminToken_rejected (token adminKey : string) (kv kv' : gmap string KVEntry)
    (now : Z) (r : TokenReason) :
  validateAdminToken token adminKey kv now = (Some r, kv') -> kv' = kv.
Proof.
  unfold validateAdminToken. intros H.
  destruct (atob token) as [decoded|]; [|congruence].
  destruct (splitColon decoded) as [|ts [|sig [|? ?]]]; try congruence.
  destruct (tokenAgeRejected now (parseInt ts)); [congruence|].
  destruct (negb (secureCompare sig (generateTokenSignature ts adminKey))); [congruence|].
  destruct (kvGet kv now (usedTokenKey token)) as [t|]; [|discriminate].
  destruct (textTruthy t); [congruence | discriminate].
Qed.

Lemma used_marker_rejects (token adminKey : string) (kv : gmap string KVEntry) (now : Z) :
  kvGet kv now (usedTokenKey token) = Some (Raw "used") ->
  (validateAdminToken token adminKey kv now).1 <> None.
Proof.
  intros Hused. unfold validateAdminToken.
  destruct (atob token) as [decoded|]; [|discriminate].
  destruct (splitColon decoded) as [|ts [|sig [|? ?]]]; try discriminate.
  destruct (tokenAgeRejected now (parseInt ts)); [discriminate|].
  destruct (negb (secureCompare sig (generateTokenSignature ts adminKey))); [discriminate|].
  rewrite Hused. simpl. discriminate.
Qed.

Lemma used_marker_lives (token : string) (kv : gmap string KVEntry) (now now2 : Z) :
  now2 < now + 600000 ->
  kvGet (kvPut kv now (usedTokenKey token) (Raw "used") (Some 600)) now2 (usedTokenKey token)
  = Some (Raw "used").
Proof.
  intros Hlt. unfold kvGet, kvPut. rewrite lookup_insert_eq. simpl.
  destruct (Z.leb_spec (now + 600 * 1000) now2); [lia | reflexivity].
Qed.



(** ** The admin endpoint *)

Lemma prefix_bearer (header : string) :
  String.prefix "Bearer " header = true ->
  header = "Bearer " +:+ substringFrom 7 header.
Proof.
  intros H.
  do 7 (destruct header as [|c header]; [discriminate|];
        match type of H with
        | String.prefix (String ?a ?p) _ = true =>
            change (String.prefix (String a p) (String c header))
              with (if ascii_dec a c then String.prefix p header else false) in H
        end;
        destruct (ascii_dec _ c); [subst c|discriminate]).
  reflexivity.
Qed.

Lemma prefix_append (p s : string) : String.prefix p (p +:+ s) = true.
Proof.
  induction p as [|a p IH]; [destruct s; reflexivity|].
  change (String.prefix (String a p) (String a p +:+ s))
    with (if ascii_dec a a then String.prefix p (p +:+ s) else false).
  destruct (ascii_dec a a); [exact IH | contradiction].
Qed.

Lemma substringFrom_append (p s : string) : substringFrom (String.length p) (p +:+ s) = s.
Proof. induction p as [|a p IH]; [reflexivity | exact IH]. Qed.

Lemma handleAdminAPI_after_use (token : string) (ADMIN_KEY : option string)
    (action today : string) (kv : gmap string KVEntry) (now : Z) :
  kvGet kv now (usedTokenKey token) = Some (Raw "used") ->
  authenticated (handleAdminAPI (Some ("Bearer " +:+ token)) ADMIN_KEY action today kv now).1
  = false.
Proof.
  intros Hused. unfold handleAdminAPI.
  rewrite prefix_append.
  replace (substringFrom 7 ("Bearer " +:+ token)) with token
    by (symmetry; apply (substringFrom_append "Bearer " token)).
  cbn [negb]. destruct ADMIN_KEY as [adminKey|]; [|reflexivity].
  destruct (String.eqb adminKey EmptyString); [reflexivity|].
  destruct (String.length adminKey <? 32)%nat; [reflexivity|].
  pose proof (used_marker_rejects token adminKey kv now Hused) as Hrej.
  destruct (validateAdminToken token adminKey kv now) as [[r|] kv1]; [reflexivity|].
  exfalso. apply Hrej. reflexivity.
Qed.

(** X4.  The admin endpoint serves a request only past all of its guards:
    a rejection (401 or the 500 of a missing or short key) leaves the store
    as it was, and any other answer means that the header carried
    ["Bearer " + token], that the configured key has at least 32 characters
    and that the token was accepted, the only change of the store being the
    marker of its use.  The same header is then refused for the next ten
    minutes, whatever the action. *)
Theorem admin_endpoint_guards (authHeader ADMIN_KEY : option string) (action today : string)
    (kv kv' : gmap string KVEntry) (now : Z) (r : AdminResponse) :
  handleAdminAPI authHeader ADMIN_KEY action today kv now = (r, kv') ->
  (authenticated r = false -> kv' = kv)
  /\ (authenticated r = true ->
      exists token adminKey,
        authHeader = Some ("Bearer " +:+ token)
        /\ ADMIN_KEY = Some adminKey
        /\ (32 <= String.length adminKey)%nat
        /\ validateAdminToken token adminKey kv now = (None, kv')
        /\ kv' = kvPut kv now (usedTokenKey token) (Raw "used") (Some 600)
        /\ forall (action2 today2 : string) (key2 : option string) (now2 : Z),
             now2 < now + 600000 ->
             authenticated (handleAdminAPI authHeader key2 action2 today2 kv' now2).1 = false).
Proof.
  intros H. unfold handleAdminAPI in H.
  destruct authHeader as [header|]; [|inversion H; split; [reflexivity|discriminate]].
  destruct (String.prefix "Bearer " header) eqn:Hpre; cbn [negb] in H;
    [|inversion H; split; [reflexivity|discriminate]].
  destruct ADMIN_KEY as [adminKey|]; [|inversion H; split; [reflexivity|discriminate]].
  destruct (String.eqb adminKey EmptyString);
    [inversion H; split; [reflexivity|discriminate]|].
  destruct (Nat.ltb_spec (String.length adminKey) 32) as [Hshort|Hlong];
    [inversion H; split; [reflexivity|discriminate]|].
  destruct (validateAdminToken (substringFrom 7 header) adminKey kv now) as [[reason|] kv1]
    eqn:Hval.
  - inversion H; subst. split; [|discriminate].
    intros _. apply (validateAdminToken_rejected _ _ _ _ _ _ Hval).
  - assert (Hkv : kv' = kv1 /\ authenticated r = true).
    { destruct (String.eqb action "stats").
      - destruct (kvGet kv1 now ("logs:daily_stats:" +:+ today)) as [t|].
        + destruct (negb (textTruthy t)).
          * inversion H. split; reflexivity.
          * destruct (JSON_parse t); inversion H; split; reflexivity.
        + inversion H. split; reflexivity.
      - destruct (String.eqb action "security"); inversion H; split; reflexivity. }
    destruct Hkv as [-> Hauth]. split; [rewrite Hauth; discriminate|].
    intros _. exists (substringFrom 7 header), adminKey.
    destruct (validateAdminToken_accepted _ _ _ _ _ Hval) as (_ & _ & _ & _ & _ & _ & _ & Hput).
    split; [f_equal; apply prefix_bearer; exact Hpre|].
    split; [reflexivity|]. split; [exact Hlong|]. split; [exact Hval|].
    split; [exact Hput|].
    intros action2 today2 key2 now2 Hlt.
    pose proof (handleAdminAPI_after_use (substringFrom 7 header) key2 action2 today2
                  kv1 now2) as Hagain.
    rewrite <- (prefix_bearer header Hpre) in Hagain.
    apply Hagain. rewrite Hput. apply used_marker_lives. exact Hlt.
Qed.

Lemma admin_endpoint_guards_witness :
  (handleAdminAPI (Some ("Bearer " +:+ tokenAtDay0)) (Some adminKey0) "security" "2023-11-14"
                  ∅ (day0 + 1000)).1 = AdminOk SecuritySummary
  /\ authenticated
       (handleAdminAPI (Some ("Bearer " +:+ tokenAtDay0)) (Some adminKey0) "stats" "2023-11-14"
          (handleAdminAPI (Some ("Bearer " +:+ tokenAtDay0)) (Some adminKey0) "security"
                          "2023-11-14" ∅ (day0 + 1000)).2
          (day0 + 2000)).1 = false.
Proof.
  split; [vm_compute; reflexivity|].
  destruct (admin_endpoint_guards (Some ("Bearer " +:+ tokenAtDay0)) (Some adminKey0)
              "security" "2023-11-14" ∅
              (handleAdminAPI (Some ("Bearer " +:+ tokenAtDay0)) (Some adminKey0) "security"
                              "2023-11-14" ∅ (day0 + 1000)).2
              (day0 + 1000) (AdminOk SecuritySummary)
              ltac:(apply injective_projections; [vm_compute; reflexivity | reflexivity]))
    as [_ Hserved].
  destruct (Hserved eq_refl) as (token & adminKey & _ & _ & _ & _ & _ & Hreplay).
  apply Hreplay. unfold day0. lia.
Defined.

(** ** The cache: round trips and clean-up *)

Lemma cacheGet_value (c : CacheManager) (now : Z) (key : string) :
  (cacheGet c now key).1
  = match cm_cache c !! key with
    | Some e => if ce_expiry e <? now then None else Some (ce_data e)
    | None => None
    end.
Proof.
  unfold cacheGet. destruct (cm_cache c !! key) as [e|]; [|reflexivity].
  destruct (ce_expiry e <? now); reflexivity.
Qed.

(** What a later [get] sees of an entry: its data and its expiry. *)
Lemma cacheGet_lookup_after (c : CacheManager) (now : Z) (key key' : string) :
  option_map (fun e => (ce_data e, ce_expiry e)) (cm_cache (cacheGet c now key).2 !! key')
  = if decide (key' = key)
    then match cm_cache c !! key with
         | Some e => if ce_expiry e <? now then None else Some (ce_data e, ce_expiry e)
         | None => None
         end
    else option_map (fun e => (ce_data e, ce_expiry e)) (cm_cache c !! key').
Proof.
  unfold cacheGet. destruct (decide (key' = key)) as [->|Hne].
  - destruct (cm_cache c !! key) as [e|] eqn:He; simpl; [|rewrite He; reflexivity].
    destruct (ce_expiry e <? now); simpl.
    + rewrite lookup_delete_eq. reflexivity.
    + rewrite lookup_insert_eq. reflexivity.
  - destruct (cm_cache c !! key) as [e|] eqn:He; simpl; [|reflexivity].
    destruct (ce_expiry e <? now); simpl.
    + rewrite lookup_delete_ne by congruence. reflexivity.
    + rewrite lookup_insert_ne by congruence. reflexivity.
Qed.

Lemma cacheCleanup_lookup (c : CacheManager) (now : Z) (key : string) :
  cm_cache (cacheCleanup c now) !! key
  = match cm_cache c !! key with
    | Some e => if ce_expiry e <? now then None else Some e
    | None => None
    end.
Proof.
  unfold cacheCleanup. simpl.
  destruct (cm_cache c !! key) as [e|] eqn:He.
  - destruct (ce_expiry e <? now) eqn:Hexp.
    + apply map_lookup_filter_None_2. right. intros x Hx. rewrite He in Hx.
      injection Hx as <-. simpl. rewrite Hexp. discriminate.
    + apply map_lookup_filter_Some_2; [exact He|]. simpl. rewrite Hexp. reflexivity.
  - apply map_lookup_filter_None_2. left. exact He.
Qed.

Lemma cacheSet_lookup_value (c : CacheManager) (now : Z) (key key' : string) (data : Data)
    (ttl : option Z) :
  let written := <[ key := mkCacheEntry data (now + effectiveTTL c ttl) now now ]> (cm_cache c) in
  cm_cache (cacheSet c now key data ttl) !! key'
  = if (cs_sets (cm_stats c) + 1) mod 100 =? 0
    then match written !! key' with
         | Some e => if ce_expiry e <? now then None else Some e
         | None => None
         end
    else written !! key'.
Proof.
  intros written. unfold cacheSet.
  destruct ((cs_sets (cm_stats c) + 1) mod 100 =? 0); [|reflexivity].
  rewrite cacheCleanup_lookup. reflexivity.
Qed.

Lemma cacheGet_after_set (c : CacheManager) (now now1 : Z) (key : string) (data : Data)
    (ttl : option Z) :
  now <= now1 ->
  (cacheGet (cacheSet c now key data ttl) now1 key).1
  = (if now1 <=? now + effectiveTTL c ttl then Some data else None).
Proof.
  intros H1. rewrite cacheGet_value, cacheSet_lookup_value, lookup_insert_eq.
  destruct ((cs_sets (cm_stats c) + 1) mod 100 =? 0); simpl.
  - destruct (Z.ltb_spec (now + effectiveTTL c ttl) now); simpl.
    + destruct (Z.leb_spec now1 (now + effectiveTTL c ttl)); [lia | reflexivity].
    + destruct (Z.ltb_spec (now + effectiveTTL c ttl) now1),
               (Z.leb_spec now1 (now + effectiveTTL c ttl)); (reflexivity || lia).
  - destruct (Z.ltb_spec (now + effectiveTTL c ttl) now1),
             (Z.leb_spec now1 (now + effectiveTTL c ttl)); (reflexivity || lia).
Qed.

(** X5.  An entry lives for the time given when it is set, no longer and
    no shorter: with a clock that does not go back, [get] returns the data
    that was set until [now + (ttl || defaultTTL)] and misses afterwards,
    and an access in between does not extend the lifetime. *)
Theorem cache_entry_lifetime (c : CacheManager) (now now1 now2 : Z) (key : string)
    (data : Data) (ttl : option Z) :
  now <= now1 -> now1 <= now2 ->
  let c1 := cacheSet c now key data ttl in
  (cacheGet c1 now1 key).1
  = (if now1 <=? now + effectiveTTL c ttl then Some data else None)
  /\ (cacheGet (cacheGet c1 now1 key).2 now2 key).1
     = (if now2 <=? now + effectiveTTL c ttl then Some data else None).
Proof.
  intros H1 H2 c1.
  assert (Hlook : option_map (fun e => (ce_data e, ce_expiry e)) (cm_cache c1 !! key)
                  = if (cs_sets (cm_stats c) + 1) mod 100 =? 0
                    then (if now + effectiveTTL c ttl <? now then None
                          else Some (data, now + effectiveTTL c ttl))
                    else Some (data, now + effectiveTTL c ttl)).
  { unfold c1. rewrite cacheSet_lookup_value. rewrite lookup_insert_eq. simpl.
    destruct ((cs_sets (cm_stats c) + 1) mod 100 =? 0); [|reflexivity].
    destruct (now + effectiveTTL c ttl <? now); reflexivity. }
  split.
  - apply cacheGet_after_set. exact H1.
  - rewrite cacheGet_value.
    pose proof (cacheGet_lookup_after c1 now1 key key) as Hafter.
    destruct (decide (key = key)) as [_|Hne]; [|contradiction].
    destruct (cm_cache c1 !! key) as [e|] eqn:He.
    + simpl in Hlook.
      assert (He' : ce_data e = data /\ ce_expiry e = now + effectiveTTL c ttl).
      { destruct ((cs_sets (cm_stats c) + 1) mod 100 =? 0);
          [destruct (now + effectiveTTL c ttl <? now); [discriminate|]|];
          injection Hlook as -> ->; split; reflexivity. }
      destruct He' as [Hd Hx]. rewrite Hd, Hx in Hafter.
      destruct (cm_cache (cacheGet c1 now1 key).2 !! key) as [e'|]; simpl in Hafter.
      * destruct (Z.ltb_spec (now + effectiveTTL c ttl) now1); [discriminate|].
        injection Hafter as -> ->.
        destruct (Z.ltb_spec (now + effectiveTTL c ttl) now2),
                 (Z.leb_spec now2 (now + effectiveTTL c ttl)); (reflexivity || lia).
      * destruct (Z.ltb_spec (now + effectiveTTL c ttl) now1); [|discriminate].
        destruct (Z.leb_spec now2 (now + effectiveTTL c ttl)); [lia | reflexivity].
    + destruct (cm_cache (cacheGet c1 now1 key).2 !! key) as [e'|]; [discriminate|].
      simpl in Hlook.
      destruct ((cs_sets (cm_stats c) + 1) mod 100 =? 0); [|discriminate].
      destruct (Z.ltb_spec (now + effectiveTTL c ttl) now); [|discriminate].
      destruct (Z.leb_spec now2 (now + effectiveTTL c ttl)); [lia | reflexivity].
Qed.

Lemma cache_entry_lifetime_witness :
  (cacheGet (cacheSet emptyCache day0 "k" (DBoard []) (Some 30000)) (day0 + 30000) "k").1
  = Some (DBoard [])
  /\ (cacheGet (cacheGet (cacheSet emptyCache day0 "k" (DBoard []) (Some 30000))
                         (day0 + 30000) "k").2 (day0 + 30001) "k").1 = None.
Proof.
  destruct (cache_entry_lifetime emptyCache day0 (day0 + 30000) (day0 + 30001) "k" (DBoard [])
              (Some 30000) ltac:(unfold day0; lia) ltac:(unfold day0; lia)) as [Hfirst Hsecond].
  split; [exact Hfirst | exact Hsecond].
Defined.

(** X6.  Clean-up cannot be observed through [get], and operations on one
    key do not disturb another: with a clock that does not go back, a [get]
    of [key'] answers the same after a [cleanup], after a [set] of another
    key (which runs the clean-up on every hundredth call), after a [delete]
    of another key and after a [get] of another key. *)
Theorem cache_cleanup_unobservable (c : CacheManager) (now now' : Z) (key key' : string)
    (data : Data) (ttl : option Z) :
  now <= now' ->
  (cacheGet (cacheCleanup c now) now' key').1 = (cacheGet c now' key').1
  /\ (key <> key' ->
      (cacheGet (cacheSet c now key data ttl) now' key').1 = (cacheGet c now' key').1
      /\ (cacheGet (cacheDelete c key) now' key').1 = (cacheGet c now' key').1
      /\ (cacheGet (cacheGet c now key).2 now' key').1 = (cacheGet c now' key').1).
Proof.
  intros Hle.
  assert (Hclean : forall o : option CacheEntry,
            match match o with
                  | Some e => if ce_expiry e <? now then None else Some e
                  | None => None
                  end with
            | Some e => if ce_expiry e <? now' then None else Some (ce_data e)
            | None => None
            end
            = match o with
              | Some e => if ce_expiry e <? now' then None else Some (ce_data e)
              | None => None
              end).
  { intros [e|]; [|reflexivity].
    destruct (Z.ltb_spec (ce_expiry e) now); [|reflexivity].
    destruct (Z.ltb_spec (ce_expiry e) now'); [reflexivity | lia]. }
  split.
  - rewrite !cacheGet_value, cacheCleanup_lookup. apply Hclean.
  - intros Hne. split; [|split].
    + rewrite !cacheGet_value, cacheSet_lookup_value.
      rewrite lookup_insert_ne by exact Hne.
      destruct ((cs_sets (cm_stats c) + 1) mod 100 =? 0); [apply Hclean | reflexivity].
    + rewrite !cacheGet_value. unfold cacheDelete. simpl.
      rewrite lookup_delete_ne by exact Hne. reflexivity.
    + rewrite !cacheGet_value.
      pose proof (cacheGet_lookup_after c now key key') as Hafter.
      destruct (decide (key' = key)) as [Heq|_]; [congruence|].
      destruct (cm_cache (cacheGet c now key).2 !! key') as [e1|],
               (cm_cache c !! key') as [e2|]; simpl in Hafter; try discriminate.
      * injection Hafter as -> ->. reflexivity.
      * reflexivity.
Qed.

Lemma cache_cleanup_unobservable_witness :
  (cacheGet (cacheCleanup warmCache (day0 + 40000)) (day0 + 50000) "leaderboard:beginner").1
  = (cacheGet warmCache (day0 + 50000) "leaderboard:beginner").1.
Proof.
  destruct (cache_cleanup_unobservable warmCache (day0 + 40000) (day0 + 50000) "x"
              "leaderboard:beginner" (DBoard []) None ltac:(unfold day0; lia)) as [Hclean _].
  exact Hclean.
Defined.

(** ** The store adapter: round trips *)

Lemma kvGet_kvPut_alive (kv : gmap string KVEntry) (now now' : Z) (key : string)
    (t : KVText) (ttl : option Z) :
  storeAlive now now' ttl -> kvGet (kvPut kv now key t ttl) now' key = Some t.
Proof.
  intros Halive. unfold kvGet, kvPut. rewrite lookup_insert_eq.
  destruct ttl as [s|]; simpl; [|reflexivity].
  simpl in Halive. destruct (Z.leb_spec (now + s * 1000) now'); [lia | reflexivity].
Qed.

(** X7.  What is read back after [safePut].  While the cache entry lives,
    a cached read returns the very object that was put; a read that goes
    to the store (no cache, or the entry has expired) returns its JSON
    normalisation, in which NaN has become [null]. *)
Theorem safePut_safeGet_roundtrip (w : World) (now now' : Z) (key : string)
    (v defaultValue : Data) (expirationTtl cacheTTL : option Z) :
  now <= now' ->
  let w1 := (safePut true w now key v expirationTtl).2 in
  let lifetime := effectiveTTL (w_cache w) (putCacheTTL expirationTtl) in
  (now' <= now + lifetime ->
   (safeGet true w1 now' key defaultValue cacheTTL).1 = (v, true))
  /\ (storeAlive now now' expirationTtl ->
      (safeGet false w1 now' key defaultValue cacheTTL).1 = (jsonData v, false))
  /\ (now + lifetime < now' -> storeAlive now now' expirationTtl ->
      (safeGet true w1 now' key defaultValue cacheTTL).1 = (jsonData v, true)).
Proof.
  intros Hle w1 lifetime.
  assert (Hcache : (cacheGet (w_cache w1) now' (kvCacheKey key)).1
                   = if now' <=? now + lifetime then Some v else None).
  { apply (cacheGet_after_set (w_cache w) now now' (kvCacheKey key) v
             (putCacheTTL expirationTtl) Hle). }
  assert (Hstore : storeAlive now now' expirationTtl ->
                   kvGet (w_kv w1) now' key = Some (Json (jsonData v))).
  { intros Halive. apply kvGet_kvPut_alive. exact Halive. }
  split; [|split].
  - intros Hlive. unfold safeGet.
    destruct (cacheGet (w_cache w1) now' (kvCacheKey key)) as [cached c1].
    simpl in Hcache. destruct (Z.leb_spec now' (now + lifetime)); [|lia].
    subst cached. reflexivity.
  - intros Halive. unfold safeGet. rewrite (Hstore Halive). reflexivity.
  - intros Hdead Halive. unfold safeGet.
    destruct (cacheGet (w_cache w1) now' (kvCacheKey key)) as [cached c1].
    simpl in Hcache. destruct (Z.leb_spec now' (now + lifetime)); [lia|].
    subst cached. rewrite (Hstore Halive). reflexivity.
Qed.

Lemma safePut_safeGet_roundtrip_witness :
  (safeGet true (safePut true emptyWorld day0 "k" (DStats aliceStats) (Some 60)).2
           (day0 + 60000) "k" (DStats defaultStats) None).1
  = (DStats aliceStats, true).
Proof.
  destruct (safePut_safeGet_roundtrip emptyWorld day0 (day0 + 60000) "k" (DStats aliceStats)
              (DStats defaultStats) (Some 60) None ltac:(unfold day0; lia)) as [Hcached _].
  apply Hcached. vm_compute. discriminate.
Defined.

(** ** The counter of the store adapter *)

Lemma roundDouble_safe (z : Z) : Z.abs z <= 2 ^ 53 -> roundDouble (inject_Z z) = JInt z.
Proof.
  intros Hz. unfold roundDouble. rewrite Qfloor_Z.
  assert (H1 : Qeq_bool (inject_Z z) (inject_Z z) = true) by (apply Qeq_bool_iff; reflexivity).
  assert (H2 : Qle_bool (Qabs (inject_Z z)) (inject_Z (2 ^ 53)) = true).
  { apply Qle_bool_iff. apply Qabs_Qle_condition. rewrite <- inject_Z_opp, <- !Zle_Qle. lia. }
  rewrite H1, H2. reflexivity.
Qed.

Lemma addDouble_safe (a b : Z) :
  Z.abs (a + b) <= 2 ^ 53 -> addDouble (JInt a) (JInt b) = JInt (a + b).
Proof.
  intros H. unfold addDouble, JInt. cbn [Num.add].
  assert (Heq : (inject_Z a + inject_Z b == inject_Z (a + b))%Q)
    by (rewrite inject_Z_plus; reflexivity).
  unfold roundDouble. rewrite (Qfloor_comp _ _ Heq), Qfloor_Z.
  assert (H1 : Qeq_bool (inject_Z a + inject_Z b) (inject_Z (a + b)) = true)
    by (apply Qeq_bool_iff; exact Heq).
  assert (H2 : Qle_bool (Qabs (inject_Z a + inject_Z b)) (inject_Z (2 ^ 53)) = true).
  { apply Qle_bool_iff. rewrite Heq. apply Qabs_Qle_condition.
    rewrite <- inject_Z_opp, <- !Zle_Qle. lia. }
  rewrite H1, H2. reflexivity.
Qed.

Lemma NumberToString_safe (fracToString : Q -> string) (z : Z) :
  Z.abs z <= 2 ^ 53 -> NumberToString fracToString (JInt z) = intToString z.
Proof.
  intros Hz. unfold NumberToString, JInt. rewrite Qfloor_Z.
  assert (H1 : Qeq_bool (inject_Z z) (inject_Z z) = true) by (apply Qeq_bool_iff; reflexivity).
  assert (H2 : Qlt_bool (Qabs (inject_Z z)) (inject_Z (10 ^ 21)) = true).
  { apply Qlt_bool_iff. apply Qle_lt_trans with (y := inject_Z (2 ^ 53)).
    - apply Qabs_Qle_condition. rewrite <- inject_Z_opp, <- !Zle_Qle. lia.
    - rewrite <- Zlt_Qlt. reflexivity. }
  rewrite H1, H2. reflexivity.
Qed.

Lemma atomicIncrement_step (fracToString : Q -> string) (kv : gmap string KVEntry)
    (now : Z) (key : string) (c i : Z) (ttl : option Z) :
  storeAlive now now ttl ->
  currentCount kv now key = JInt c ->
  Z.abs (c + i) <= 2 ^ 53 ->
  atomicIncrement fracToString kv now key (JInt i) ttl
  = (JInt (c + i), kvPut kv now key (Raw (intToString (c + i))) ttl)
  /\ currentCount (atomicIncrement fracToString kv now key (JInt i) ttl).2 now key
     = JInt (c + i).
Proof.
  intros Halive Hc Hsafe.
  assert (Hrun : atomicIncrement fracToString kv now key (JInt i) ttl
                 = (JInt (c + i), kvPut kv now key (Raw (intToString (c + i))) ttl)).
  { unfold atomicIncrement. rewrite Hc, (addDouble_safe c i Hsafe).
    rewrite (NumberToString_safe fracToString _ Hsafe). reflexivity. }
  split; [exact Hrun|]. rewrite Hrun. cbn [snd].
  unfold currentCount. rewrite (kvGet_kvPut_alive _ _ _ _ _ _ Halive).
  destruct (String.eqb_spec (intToString (c + i)) EmptyString) as [He|_].
  - exfalso. exact (intToString_nonempty _ He).
  - unfold parseIntNumber. rewrite parseInt_intToString. apply roundDouble_safe. exact Hsafe.
Qed.

Lemma atomicIncrement_nan (fracToString : Q -> string) (kv : gmap string KVEntry)
    (now : Z) (key : string) (i : Z) (ttl : option Z) :
  storeAlive now now ttl ->
  currentCount kv now key = NaN ->
  (atomicIncrement fracToString kv now key (JInt i) ttl).1 = NaN
  /\ currentCount (atomicIncrement fracToString kv now key (JInt i) ttl).2 now key = NaN.
Proof.
  intros Halive Hc. unfold atomicIncrement. rewrite Hc. cbn [fst snd addDouble Num.add JInt].
  split; [reflexivity|].
  unfold currentCount. rewrite (kvGet_kvPut_alive _ _ _ _ _ _ Halive). reflexivity.
Qed.

(** X8.  [atomicIncrement] adds up as long as the counts are safe integers.
    When the counter reads as the integer [c] and the increments are
    integers such that they and all partial sums stay within 2^53 in
    magnitude, the counter reads as [c] plus their sum after the sequence
    of increments, each value surviving the round trip through its decimal
    text and [parseInt]; the last call returns that value.  A counter that
    reads as NaN stays NaN. *)
Theorem atomicIncrement_adds_up (fracToString : Q -> string) (increments : list Z) :
  forall (kv : gmap string KVEntry) (now : Z) (key : string) (ttl : option Z),
    storeAlive now now ttl ->
    (forall c : Z,
        currentCount kv now key = JInt c -> safeSums c increments ->
        currentCount (incrementAll fracToString kv now key increments ttl) now key
        = JInt (c + fold_right Z.add 0 increments))
    /\ (currentCount kv now key = NaN ->
        currentCount (incrementAll fracToString kv now key increments ttl) now key = NaN).
Proof.
  induction increments as [|i rest IH]; intros kv now key ttl Halive.
  - split.
    + intros c Hc _. simpl. rewrite Hc, Z.add_0_r. reflexivity.
    + intros Hc. exact Hc.
  - unfold incrementAll. cbn [fold_left].
    change (fold_left _ rest ?kv1) with (incrementAll fracToString kv1 now key rest ttl).
    destruct (IH (atomicIncrement fracToString kv now key (JInt i) ttl).2 now key ttl Halive)
      as [IHnum IHnan].
    split.
    + intros c Hc (Hi & Hci & Hrest).
      destruct (atomicIncrement_step fracToString kv now key c i ttl Halive Hc Hci)
        as [_ Hread].
      rewrite (IHnum (c + i) Hread Hrest). cbn [fold_right]. f_equal. lia.
    + intros Hc. apply IHnan.
      apply (atomicIncrement_nan fracToString kv now key i ttl Halive Hc).
Qed.

Lemma atomicIncrement_adds_up_witness :
  currentCount (incrementAll noFraction ∅ day0 "visits" [1; 2; 3] (Some 60)) day0 "visits"
  = JInt (0 + fold_right Z.add 0 [1; 2; 3]).
Proof.
  destruct (atomicIncrement_adds_up noFraction [1; 2; 3] ∅ day0 "visits" (Some 60)
              ltac:(simpl; lia)) as [Hsum _].
  apply Hsum.
  - reflexivity.
  - simpl. lia.
Defined.

(** ** The rate limiter: the ceiling of a minute *)

Lemma minuteOf_bounds (t : Z) : minuteOf t * 60000 <= t < minuteOf t * 60000 + 60000.
Proof.
  unfold minuteOf. pose proof (Z.div_mod t 60000 ltac:(lia)).
  pose proof (Z.mod_pos_bound t 60000 ltac:(lia)). lia.
Qed.

Lemma rateLimitConfig_minute (h : Headers) (t t' : Z) :
  minuteOf t = minuteOf t' -> rateLimitConfig h t = rateLimitConfig h t'.
Proof. intros H. unfold rateLimitConfig. rewrite H. reflexivity. Qed.

Lemma readCount_after_put_later (kv : gmap string KVEntry) (now now' : Z) (key : string)
    (count : option Z) :
  now' < now + 120000 ->
  readCount (kvPut kv now key (Raw (countToString (option_map (fun c => c + 1) count)))
                   (Some 120)) now' key
  = option_map (fun c => c + 1) count.
Proof.
  intros Hlt. unfold readCount.
  rewrite kvGet_kvPut_alive by (simpl; lia).
  destruct count as [c|]; simpl; [|reflexivity].
  destruct (String.eqb_spec (intToString (c + 1)) EmptyString) as [He|_].
  - exfalso. exact (intToString_nonempty _ He).
  - apply parseInt_intToString.
Qed.

Lemma readCount_put_other (kv : gmap string KVEntry) (now now' : Z) (key key' : string)
    (t : KVText) (ttl : option Z) :
  key <> key' -> readCount (kvPut kv now key t ttl) now' key' = readCount kv now' key'.
Proof.
  intros H. unfold readCount. rewrite kvGet_kvPut_ne by exact H. reflexivity.
Qed.

(** The counters written by a request that passes, read in the same minute. *)
Lemma accept_counts_same_minute (kv : gmap string KVEntry) (h : Headers) (now now' : Z) :
  find overLimit (checkResults kv h now) = None ->
  minuteOf now' = minuteOf now ->
  forall check, check ∈ rateLimitConfig h now ->
                readCount (checkRateLimit kv h now).2 now' (securityKey check)
                = option_map (fun c => c + 1) (readCount kv now (securityKey check)).
Proof.
  intros Hnone Hmin check Hin.
  assert (Hlt : now' < now + 120000).
  { pose proof (minuteOf_bounds now). pose proof (minuteOf_bounds now'). lia. }
  revert check Hin.
  unfold checkRateLimit, checkRateLimitWith. rewrite Hnone.
  unfold checkResults, rateLimitConfig in *.
  set (a := templateHeader (h_ip h) +:+ ":" +:+ intToString (minuteOf now)).
  set (b := generateClientFingerprint h +:+ ":" +:+ intToString (minuteOf now)).
  set (c := intToString (minuteOf now)).
  destruct (rate_keys_distinct a b c) as (Hab & Hac & Hbc).
  cbn [map find isFingerprint cr_check rc_type fst snd bumpCounters fold_left
       cr_securityKey cr_count rl_allowed rl_remaining rc_limit].
  intros check Hin.
  apply elem_of_cons in Hin as [->|Hin]; [|apply elem_of_cons in Hin as [->|Hin]];
    [| |apply list_elem_of_singleton in Hin as ->]; unfold securityKey; cbn [rc_key].
  - rewrite !readCount_put_other by (intros E; symmetry in E; auto).
    apply readCount_after_put_later. exact Hlt.
  - rewrite readCount_put_other by (intros E; symmetry in E; auto).
    apply readCount_after_put_later. exact Hlt.
  - apply readCount_after_put_later. exact Hlt.
Qed.

Lemma rateLimitConfig_limits (h : Headers) (now : Z) (check : RateCheck) :
  check ∈ rateLimitConfig h now -> 15 <= rc_limit check.
Proof.
  unfold rateLimitConfig. intros Hin.
  apply elem_of_cons in Hin as [->|Hin]; [simpl; lia|].
  apply elem_of_cons in Hin as [->|Hin]; [simpl; lia|].
  apply list_elem_of_singleton in Hin as ->. simpl. lia.
Qed.

(** All three counters of the minute read [k] throughout the minute. *)
Lemma ceiling_run (h : Headers) (now : Z) (times : list Z) :
  forall (k : Z) (kv : gmap string KVEntry),
    0 <= k <= 15 ->
    (forall t check, minuteOf t = minuteOf now -> check ∈ rateLimitConfig h now ->
                     readCount kv t (securityKey check) = Some k) ->
    Forall (fun t => minuteOf t = minuteOf now) times ->
    forall (i : nat) (r : RateLimitResult),
      rateRun kv h times !! i = Some r ->
      rl_allowed r = bool_decide (k + Z.of_nat i < 15)
      /\ (k + Z.of_nat i < 15 -> rl_remaining r = Some (14 - k - Z.of_nat i)).
Proof.
  induction times as [|t rest IH]; intros k kv Hk Hinv Hall i r Hi; [discriminate|].
  apply Forall_cons in Hall as [Ht Hrest].
  pose proof (rateLimitConfig_minute h t now Ht) as Hcfg.
  cbn [rateRun] in Hi.
  destruct (checkRateLimit kv h t) as [r0 kv'] eqn:Hrun.
  destruct (find overLimit (checkResults kv h t)) as [over|] eqn:Hfind.
  - (* at the ceiling: the request is refused and the counters stay *)
    assert (Hk15 : k = 15).
    { destruct (proj2 (over_limit_found kv h t) (ex_intro _ over Hfind))
        as (check & c & Hin & Hc & Hle).
      rewrite Hcfg in Hin. rewrite (Hinv t check Ht Hin) in Hc. injection Hc as <-.
      apply find_some in Hfind as [Hmem Hover].
      unfold checkResults in Hmem. apply in_map_iff in Hmem as (check' & <- & Hin').
      apply list_elem_of_In in Hin'. rewrite Hcfg in Hin'.
      unfold overLimit in Hover. cbn [cr_count cr_check] in Hover.
      rewrite (Hinv t check' Ht Hin') in Hover.
      apply Z.leb_le in Hover. pose proof (rateLimitConfig_limits h now check' Hin'). lia. }
    destruct (rate_limit_rejection None kv h t over Hfind) as (Hallow & _ & Hsame).
    specialize (Hsame eq_refl). unfold checkRateLimit in Hrun. rewrite Hrun in Hsame.
    injection Hsame as -> ->.
    destruct i as [|i].
    + injection Hi as <-. simpl. split; [|lia].
      symmetry. apply bool_decide_eq_false. lia.
    + simpl in Hi.
      destruct (IH k kv Hk Hinv Hrest i r Hi) as [Ha Hr].
      split; [|lia]. rewrite Ha. subst k.
      rewrite !bool_decide_eq_false_2 by lia. reflexivity.
  - (* below the ceiling *)
    assert (Hk15 : k < 15).
    { destruct (Z.lt_ge_cases k 15) as [Hlt|Hge]; [exact Hlt|]. exfalso.
      assert (Hex : exists r, find overLimit (checkResults kv h t) = Some r).
      { apply over_limit_found.
        exists (mkRateCheck ("rate_limit:fingerprint:" +:+ generateClientFingerprint h +:+ ":"
                             +:+ intToString (minuteOf t)) 15 LimitFingerprint), k.
        assert (Hin : mkRateCheck ("rate_limit:fingerprint:" +:+ generateClientFingerprint h
                                   +:+ ":" +:+ intToString (minuteOf t)) 15 LimitFingerprint
                      ∈ rateLimitConfig h t).
        { unfold rateLimitConfig. apply elem_of_cons. right. apply elem_of_cons. left.
          reflexivity. }
        split; [exact Hin|]. split; [|simpl; lia].
        rewrite Hcfg in Hin. apply (Hinv t _ Ht Hin). }
      destruct Hex as [x Hx]. congruence. }
    destruct (rate_limit_accept kv h t Hfind) as (Hallow & (fp & Hfp & _ & Hlim & Hrem) & _).
    rewrite Hrun in Hallow, Hrem. cbn [fst] in Hallow, Hrem.
    assert (Hfpin : fp ∈ rateLimitConfig h now).
    { rewrite <- Hcfg. eapply list_elem_of_lookup_2. exact Hfp. }
    rewrite (Hinv t fp Ht Hfpin), Hlim in Hrem. simpl in Hrem.
    destruct i as [|i].
    + injection Hi as <-. split.
      * rewrite Hallow. symmetry. apply bool_decide_eq_true. lia.
      * intros _. rewrite Hrem. f_equal. lia.
    + simpl in Hi.
      assert (Hinv' : forall t' check, minuteOf t' = minuteOf now ->
                        check ∈ rateLimitConfig h now ->
                        readCount kv' t' (securityKey check) = Some (k + 1)).
      { intros t' check Ht' Hin.
        pose proof (accept_counts_same_minute kv h t t' Hfind ltac:(congruence) check
                      ltac:(rewrite Hcfg; exact Hin)) as Hc.
        rewrite Hrun in Hc. cbn [snd] in Hc. rewrite Hc, (Hinv t check Ht Hin).
        reflexivity. }
      destruct (IH (k + 1) kv' ltac:(lia) Hinv' Hrest i r Hi) as [Ha Hr].
      split.
      * rewrite Ha. apply bool_decide_ext. lia.
      * intros Hlt. rewrite Hr by lia. f_equal. lia.
Qed.

(** X9.  The ceiling of a minute.  Starting from a minute without counters,
    requests with the same headers handled within that minute are let
    through exactly fifteen times: the request number [i] (from 0) passes
    if and only if [i < 15], with a remaining quota of [14 - i], and every
    later one of the minute is refused. *)
Theorem fingerprint_ceiling_per_minute (kv : gmap string KVEntry) (h : Headers) (now : Z)
    (times : list Z) :
  (forall check, check ∈ rateLimitConfig h now -> kv !! securityKey check = None) ->
  Forall (fun t => minuteOf t = minuteOf now) times ->
  forall (i : nat) (r : RateLimitResult),
    rateRun kv h times !! i = Some r ->
    rl_allowed r = bool_decide (i < 15)%nat
    /\ ((i < 15)%nat -> rl_remaining r = Some (14 - Z.of_nat i)).
Proof.
  intros Hfresh Hall i r Hi.
  destruct (ceiling_run h now times 0 kv ltac:(lia)
              ltac:(intros t check _ Hin; unfold readCount, kvGet;
                    rewrite (Hfresh check Hin); reflexivity)
              Hall i r Hi) as [Ha Hr].
  split.
  - rewrite Ha. apply bool_decide_ext. lia.
  - intros Hlt. rewrite Hr by lia. f_equal.
Qed.

Lemma fingerprint_ceiling_per_minute_witness :
  rateRun ∅ someHeaders [day0; day0 + 1000] !! 1%nat
  = Some (mkRateLimitResult true (Some 13) None)
  /\ rl_remaining (mkRateLimitResult true (Some 13) None) = Some (14 - Z.of_nat 1).
Proof.
  split; [vm_compute; reflexivity|].
  destruct (fingerprint_ceiling_per_minute ∅ someHeaders day0 [day0; day0 + 1000]
              ltac:(intros; apply lookup_empty)
              ltac:(repeat constructor) 1%nat (mkRateLimitResult true (Some 13) None)
              ltac:(vm_compute; reflexivity)) as [_ Hremaining].
  apply Hremaining. lia.
Defined.

(** ** The rate limiter: minutes do not interfere *)

Lemma containsChar_append (n : Z) (a b : string) :
  containsChar n (a +:+ b) = containsChar n a || containsChar n b.
Proof.
  induction a as [|c a IH]; [reflexivity|].
  simpl. rewrite IH. apply orb_assoc.
Qed.

Lemma append_nil_l (b : string) : EmptyString +:+ b = b.
Proof. reflexivity. Qed.

Lemma append_cons_l (c : ascii) (a b : string) : String c a +:+ b = String c (a +:+ b).
Proof. reflexivity. Qed.

Lemma suffix_after_colon (a : string) :
  forall a' s s' : string,
    containsChar 58 s = false -> containsChar 58 s' = false ->
    a +:+ ":" +:+ s = a' +:+ ":" +:+ s' -> s = s'.
Proof.
  induction a as [|c a IH]; intros [|c' a'] s s' Hs Hs' Heq;
    rewrite ?append_cons_l, ?append_nil_l in Heq.
  - injection Heq as ->. reflexivity.
  - injection Heq as _ ->. rewrite containsChar_append in Hs. simpl in Hs.
    rewrite orb_true_r in Hs. discriminate.
  - injection Heq as _ <-. rewrite containsChar_append in Hs'. simpl in Hs'.
    rewrite orb_true_r in Hs'. discriminate.
  - injection Heq as _ Heq. exact (IH a' s s' Hs Hs' Heq).
Qed.

Lemma digits_no_colon (s : string) :
  allChars isDecDigit s = true -> containsChar 58 s = false.
Proof.
  induction s as [|c s IH]; [reflexivity|].
  simpl. intros H. apply andb_true_iff in H as [Hc Hs].
  rewrite (IH Hs), orb_false_r. unfold isDecDigit in Hc.
  apply andb_true_iff in Hc as [_ Hc]. apply Z.leb_le in Hc.
  apply Z.eqb_neq. lia.
Qed.

Lemma intToString_no_colon (z : Z) : containsChar 58 (intToString z) = false.
Proof.
  unfold intToString, radixString.
  destruct (z <? 0) eqn:Hz.
  - apply Z.ltb_lt in Hz.
    change (containsChar 58 (String "-" ?s)) with (containsChar 58 s).
    apply digits_no_colon, allDigits_radixDigits; [lia | reflexivity].
  - apply Z.ltb_ge in Hz.
    apply digits_no_colon, allDigits_radixDigits; [lia | reflexivity].
Qed.

Lemma intToString_inj (a b : Z) : intToString a = intToString b -> a = b.
Proof.
  intros H. pose proof (parseInt_intToString a) as Ha.
  rewrite H, parseInt_intToString in Ha. congruence.
Qed.

Lemma append_cancel (p x y : string) : p +:+ x = p +:+ y -> x = y.
Proof.
  induction p as [|c p IH]; rewrite ?append_cons_l, ?append_nil_l; intros H; [exact H|].
  injection H as H. exact (IH H).
Qed.

(** The counters of two different minutes have different keys. *)
Lemma minute_keys_distinct (h h' : Headers) (now now' : Z) (check check' : RateCheck) :
  minuteOf now <> minuteOf now' ->
  check ∈ rateLimitConfig h now -> check' ∈ rateLimitConfig h' now' ->
  securityKey check <> securityKey check'.
Proof.
  intros Hmin Hin Hin'.
  assert (Hsuffix : forall a a' : string,
            a +:+ ":" +:+ intToString (minuteOf now)
            <> a' +:+ ":" +:+ intToString (minuteOf now')).
  { intros a a' Heq. apply Hmin, intToString_inj.
    exact (suffix_after_colon a a' _ _ (intToString_no_colon _) (intToString_no_colon _) Heq). }
  unfold rateLimitConfig in Hin, Hin'.
  set (m := intToString (minuteOf now)) in *.
  set (m' := intToString (minuteOf now')) in *.
  apply elem_of_cons in Hin as [->|Hin]; [|apply elem_of_cons in Hin as [->|Hin]];
    [| |apply list_elem_of_singleton in Hin as ->];
    (apply elem_of_cons in Hin' as [->|Hin']; [|apply elem_of_cons in Hin' as [->|Hin']];
     [| |apply list_elem_of_singleton in Hin' as ->]);
    unfold securityKey; cbn [rc_key]; intros Heq.
  - apply (append_cancel "security:rate_limit:ip:") in Heq. exact (Hsuffix _ _ Heq).
  - exact (proj1 (rate_keys_distinct _ _ EmptyString) Heq).
  - exact (proj1 (proj2 (rate_keys_distinct _ EmptyString _)) Heq).
  - exact (proj1 (rate_keys_distinct _ _ EmptyString) (eq_sym Heq)).
  - apply (append_cancel "security:rate_limit:fingerprint:") in Heq. exact (Hsuffix _ _ Heq).
  - exact (proj2 (proj2 (rate_keys_distinct EmptyString _ _)) Heq).
  - exact (proj1 (proj2 (rate_keys_distinct _ EmptyString _)) (eq_sym Heq)).
  - exact (proj2 (proj2 (rate_keys_distinct EmptyString _ _)) (eq_sym Heq)).
  - apply (append_cancel "security:rate_limit:global:") in Heq.
    apply Hmin, intToString_inj. exact Heq.
Qed.

Lemma bumpCounters_readCount_other (rs : list CheckResult) :
  forall (kv : gmap string KVEntry) (now now' : Z) (key : string),
    Forall (fun r => cr_securityKey r <> key) rs ->
    readCount (bumpCounters kv now rs) now' key = readCount kv now' key.
Proof.
  induction rs as [|r rs IH]; intros kv now now' key Hall; [reflexivity|].
  apply Forall_cons in Hall as [Hr Hrs].
  unfold bumpCounters. cbn [fold_left].
  change (readCount (bumpCounters (kvPut kv now (cr_securityKey r)
                       (Raw (countToString (option_map (fun c => c + 1) (cr_count r))))
                       (Some 120)) now rs) now' key = readCount kv now' key).
  rewrite (IH _ _ _ _ Hrs). apply readCount_put_other. exact Hr.
Qed.

Lemma checkRateLimit_store (kv : gmap string KVEntry) (h : Headers) (now : Z) :
  (checkRateLimit kv h now).2 = kv
  \/ (checkRateLimit kv h now).2 = bumpCounters kv now (checkResults kv h now).
Proof.
  unfold checkRateLimit, checkRateLimitWith.
  destruct (find overLimit (checkResults kv h now)); [left; reflexivity|].
  right. destruct (find isFingerprint (checkResults kv h now)); reflexivity.
Qed.

(** The verdict depends on the store through the three counters only. *)
Lemma checkRateLimit_verdict_ext (kv1 kv2 : gmap string KVEntry) (h : Headers) (now : Z) :
  (forall check, check ∈ rateLimitConfig h now ->
                 readCount kv1 now (securityKey check) = readCount kv2 now (securityKey check)) ->
  (checkRateLimit kv1 h now).1 = (checkRateLimit kv2 h now).1.
Proof.
  intros Hext.
  assert (Hres : checkResults kv1 h now = checkResults kv2 h now).
  { unfold checkResults. apply map_ext_in. intros check Hin.
    rewrite (Hext check) by (apply list_elem_of_In; exact Hin). reflexivity. }
  unfold checkRateLimit, checkRateLimitWith. rewrite Hres.
  destruct (find overLimit (checkResults kv2 h now)); [reflexivity|].
  destruct (find isFingerprint (checkResults kv2 h now)); reflexivity.
Qed.

(** X10.  The window is the calendar minute: a request handled in one
    minute has no effect on the verdict given to any request, from the same
    client or another, handled in a different minute. *)
Theorem rate_minutes_independent (kv : gmap string KVEntry) (h h' : Headers) (now now' : Z) :
  minuteOf now <> minuteOf now' ->
  (checkRateLimit (checkRateLimit kv h now).2 h' now').1 = (checkRateLimit kv h' now').1.
Proof.
  intros Hmin. apply checkRateLimit_verdict_ext. intros check' Hin'.
  destruct (checkRateLimit_store kv h now) as [->| ->]; [reflexivity|].
  apply bumpCounters_readCount_other.
  unfold checkResults. apply Forall_forall. intros r Hr.
  apply list_elem_of_In, in_map_iff in Hr as (check & <- & Hin).
  cbn [cr_securityKey].
  apply (minute_keys_distinct h h' now now' check check' Hmin);
    [apply list_elem_of_In; exact Hin | exact Hin'].
Qed.

Lemma rate_minutes_independent_witness :
  (checkRateLimit (checkRateLimit storeAtIpLimit someHeaders day0).2 someHeaders
                  (day0 + 60000)).1
  = (checkRateLimit storeAtIpLimit someHeaders (day0 + 60000)).1.
Proof.
  apply (rate_minutes_independent storeAtIpLimit someHeaders someHeaders day0 (day0 + 60000)).
  vm_compute. discriminate.
Defined.

(** ** Usernames: the accepted form *)

Lemma trimStart_length (s : string) : (String.length (trimStart s) <= String.length s)%nat.
Proof.
  induction s as [|c s IH]; simpl; [lia|].
  destruct (isWhite c); simpl; lia.
Qed.

Lemma trimStart_head (s : string) :
  match trimStart s with
  | String c _ => isWhite c = false
  | EmptyString => True
  end.
Proof.
  induction s as [|c s IH]; simpl; [exact I|].
  destruct (isWhite c) eqn:Hc; [exact IH | exact Hc].
Qed.

Lemma trimEnd_head (c : ascii) (s : string) :
  isWhite c = false -> exists r, trimEnd (String c s) = String c r.
Proof.
  intros Hc. simpl. destruct (trimEnd s) as [|c' r'].
  - rewrite Hc. eexists. reflexivity.
  - eexists. reflexivity.
Qed.

Lemma trimEnd_idem (s : string) : trimEnd (trimEnd s) = trimEnd s.
Proof.
  induction s as [|c s IH]; [reflexivity|].
  simpl. destruct (trimEnd s) as [|c' r'] eqn:He.
  - destruct (isWhite c) eqn:Hc; [reflexivity|]. simpl. rewrite Hc. reflexivity.
  - change (trimEnd (String c (String c' r'))) with
      (match trimEnd (String c' r') with
       | EmptyString => if isWhite c then EmptyString else String c EmptyString
       | r => String c r
       end).
    rewrite IH. reflexivity.
Qed.

Lemma trim_idem (s : string) : trim (trim s) = trim s.
Proof.
  unfold trim. pose proof (trimStart_head s) as Hhead.
  destruct (trimStart s) as [|c r]; [reflexivity|].
  destruct (trimEnd_head c r Hhead) as [r' Hr']. rewrite Hr'.
  cbn [trimStart]. rewrite Hhead, <- Hr'. apply trimEnd_idem.
Qed.

Lemma allowed_no_tag (s : string) : allChars isAllowedChar s = true -> hasHtmlTag s = false.
Proof.
  induction s as [|c s IH]; [reflexivity|].
  simpl. intros H. apply andb_true_iff in H as [Hc Hs]. rewrite (IH Hs), orb_false_r.
  destruct (Z.eqb_spec (charCode c) 60) as [He|_]; [|reflexivity].
  exfalso. unfold isAllowedChar, isSpecialChar, isWhite in Hc. rewrite He in Hc.
  discriminate.
Qed.

(** X11.  An accepted username is in normal form: it is the trimmed text
    of the string that was submitted, has between 1 and 16 characters, all
    of them allowed and not all of them separators, carries no white space
    at either end, and is accepted unchanged when validated again. *)
Theorem validateUsername_normal_form (username : JsValue) (name : string) :
  validateUsername username = inr name ->
  (exists s, username = VStr s /\ name = trim s)
  /\ (1 <= String.length name <= 16)%nat
  /\ allChars isAllowedChar name = true
  /\ allChars isSpecialChar name = false
  /\ trim name = name
  /\ validateUsername (VStr name) = inr name.
Proof.
  intros H.
  assert (Hform : exists s, username = VStr s /\ name = trim s
                            /\ (1 <= String.length name <= 16)%nat
                            /\ allChars isAllowedChar name = true
                            /\ allChars isSpecialChar name = false).
  { unfold validateUsername in H. destruct username as [| | |n|s]; try discriminate.
    destruct (String.eqb s EmptyString); [discriminate|].
    destruct (Nat.eqb_spec (String.length (trim s)) 0) as [|Hlen]; [discriminate|].
    destruct (Nat.ltb_spec 16 (String.length (trim s))) as [|Hmax]; [discriminate|].
    destruct (allChars isAllowedChar (trim s)) eqn:Hallowed; [|discriminate].
    destruct (allChars isSpecialChar (trim s)) eqn:Hspecial; [discriminate|].
    cbn [negb] in H. destruct (hasHtmlTag (trim s)); [discriminate|].
    injection H as <-. exists s. repeat split; try assumption; lia. }
  destruct Hform as (s & -> & -> & Hlen & Hallowed & Hspecial).
  split; [exists s; split; reflexivity|]. split; [exact Hlen|].
  split; [exact Hallowed|]. split; [exact Hspecial|].
  split; [apply trim_idem|].
  unfold validateUsername.
  destruct (String.eqb_spec (trim s) EmptyString) as [He|_];
    [rewrite He in Hlen; simpl in Hlen; lia|].
  rewrite trim_idem.
  destruct (Nat.eqb_spec (String.length (trim s)) 0) as [|_]; [lia|].
  destruct (Nat.ltb_spec 16 (String.length (trim s))) as [|_]; [lia|].
  rewrite Hallowed, Hspecial. cbn [negb]. rewrite (allowed_no_tag _ Hallowed). reflexivity.
Qed.

Lemma validateUsername_normal_form_witness :
  validateUsername (VStr "  alice ") = inr "alice"
  /\ validateUsername (VStr "alice") = inr "alice".
Proof.
  split; [vm_compute; reflexivity|].
  destruct (validateUsername_normal_form (VStr "  alice ") "alice"
              ltac:(vm_compute; reflexivity)) as (_ & _ & _ & _ & _ & Hagain).
  exact Hagain.
Defined.

(** X12.  The check for HTML tags never fires: a text that holds a tag
    holds the character '<', which the character class has already
    refused, so no username is ever rejected for that reason. *)
Theorem validateUsername_never_html (username : JsValue) :
  validateUsername username <> inl NameHtml.
Proof.
  unfold validateUsername. destruct username as [| | |n|s]; try discriminate.
  destruct (String.eqb s EmptyString); [discriminate|].
  destruct (Nat.eqb (String.length (trim s)) 0); [discriminate|].
  destruct (16 <? String.length (trim s))%nat; [discriminate|].
  destruct (allChars isAllowedChar (trim s)) eqn:Hallowed; [|discriminate].
  cbn [negb]. destruct (allChars isSpecialChar (trim s)); [discriminate|].
  rewrite (allowed_no_tag _ Hallowed). discriminate.
Qed.

(** ** Times: what is accepted *)

(** X13.  [validateTime] accepts exactly the numbers and the strings whose
    numeric value is an integer from 1 to 9999, and answers that value. *)
Theorem validateTime_accepts_iff (time : JsValue) (m : JsNumber) :
  validateTime time = inr m
  <-> (match time with VNum _ | VStr _ => True | _ => False end)
      /\ exists (z : Z) (q : Q),
           1 <= z <= 9999 /\ ToNumber time = Fin q /\ (q == inject_Z z)%Q /\ m = Fin q.
Proof.
  assert (Hnum : forall n : JsNumber,
            (if Num.isNaN n || negb (Num.isFinite n) then inl TimeNotValidNumber
             else if negb (Num.eqb n (Num.floor n)) || Num.lt n (Fin 1)
                  then inl TimeNotPositiveInt
                  else if Num.gt n (Fin 9999) then inl TimeTooLarge else inr n) = inr m
            <-> exists (z : Z) (q : Q),
                  1 <= z <= 9999 /\ n = Fin q /\ (q == inject_Z z)%Q /\ m = Fin q).
  { intros n. split.
    - destruct n as [| | |q]; simpl; try discriminate.
      destruct (Qeq_bool q (inject_Z (Qfloor q))) eqn:Hint; simpl; [|discriminate].
      destruct (Qlt_bool q 1) eqn:Hlow; [discriminate|].
      destruct (Qlt_bool 9999 q) eqn:Hhigh; [discriminate|].
      intros H. injection H as <-.
      apply Qeq_bool_iff in Hint. apply Qlt_bool_false_iff in Hlow, Hhigh.
      exists (Qfloor q), q. split; [|split; [reflexivity|split; [exact Hint|reflexivity]]].
      rewrite Hint in Hlow, Hhigh.
      change 1%Q with (inject_Z 1) in Hlow. change 9999%Q with (inject_Z 9999) in Hhigh.
      rewrite <- Zle_Qle in Hlow, Hhigh. lia.
    - intros (z & q & Hz & -> & Hq & ->). simpl.
      assert (Hfloor : Qfloor q = z) by (rewrite Hq; apply Qfloor_Z).
      rewrite Hfloor.
      assert (Hint : Qeq_bool q (inject_Z z) = true) by (apply Qeq_bool_iff; exact Hq).
      rewrite Hint. simpl.
      assert (Hlow : Qlt_bool q 1 = false).
      { apply Qlt_bool_false_iff. rewrite Hq. change 1%Q with (inject_Z 1).
        rewrite <- Zle_Qle. lia. }
      assert (Hhigh : Qlt_bool 9999 q = false).
      { apply Qlt_bool_false_iff. rewrite Hq. change 9999%Q with (inject_Z 9999).
        rewrite <- Zle_Qle. lia. }
      rewrite Hlow, Hhigh. reflexivity. }
  unfold validateTime. destruct time as [| | |n|s].
  - split; [discriminate | intros [[] _]].
  - split; [discriminate | intros [[] _]].
  - split; [discriminate | intros [[] _]].
  - rewrite Hnum. simpl. split; [intros H; split; [exact I | exact H] | intros [_ H]; exact H].
  - rewrite Hnum. split; [intros H; split; [exact I | exact H] | intros [_ H]; exact H].
Qed.

(** ** Game sessions: what an accepted session tells *)

Lemma difficultyOfKey_name (k : string) (d : Difficulty) :
  difficultyOfKey k = Some d -> k = difficultyName d.
Proof.
  unfold difficultyOfKey.
  destruct (String.eqb_spec k "beginner") as [->|_]; [intros H; injection H as <-; reflexivity|].
  destruct (String.eqb_spec k "intermediate") as [->|_];
    [intros H; injection H as <-; reflexivity|].
  destruct (String.eqb_spec k "expert") as [->|_]; [intros H; injection H as <-; reflexivity|].
  discriminate.
Qed.

Lemma structure_mineCount (g : GameData) :
  validateGameDataStructure g = None ->
  present (gd_mineCount g) = true /\ exists k, gd_difficulty g = Some k.
Proof.
  unfold validateGameDataStructure. intros H.
  destruct (gd_difficulty g) as [k|]; [|discriminate]. cbn in H.
  destruct (present (gd_time g)); [|discriminate].
  destruct (present (gd_moves g)); [|discriminate].
  destruct (present (gd_gameId g)); [|discriminate]. cbn [negb] in H.
  destruct (gd_timestamp g); try discriminate;
    destruct (gd_boardSize g); try discriminate;
    (destruct (present (gd_mineCount g)); [|discriminate]);
    (split; [reflexivity | exists k; reflexivity]).
Qed.

Lemma strictEq_JInt (v : JsValue) (z : Z) :
  strictEq v (VNum (JInt z)) = true -> exists q, v = VNum (Fin q) /\ (q == inject_Z z)%Q.
Proof.
  destruct v as [| | |n|]; try discriminate.
  destruct n as [| | |q]; try discriminate.
  simpl. intros H. apply Qeq_bool_iff in H. exists q. split; [reflexivity | exact H].
Qed.

(** X14.  What an accepted game session tells.  For a game object that has
    all required fields, [validateGameSession] answers valid only if the
    difficulty is one of the three names, the board and the number of mines
    are those of that difficulty, and the game was won; a number of moves
    that is a number lies between the minimum of the difficulty and twice
    the number of cells, and a start time that is a number is at most seven
    days old. *)
Theorem validateGameSession_sound (now : Z) (g : GameData) :
  validateGameDataStructure g = None ->
  validateGameSession now g = inr tt ->
  exists (d : Difficulty) (width height : JsValue),
    gd_difficulty g = Some (difficultyName d)
    /\ gd_boardSize g = BObj width height
    /\ strictEq width (VNum (JInt (expectedWidth d))) = true
    /\ strictEq height (VNum (JInt (expectedHeight d))) = true
    /\ strictEq (gd_mineCount g) (VNum (JInt (expectedMines d))) = true
    /\ gd_gameState g = VStr "won"
    /\ (forall mv : Q, ToNumber (gd_moves g) = Fin mv ->
          (inject_Z (minMoves d) <= mv)%Q
          /\ (mv <= inject_Z (2 * expectedWidth d * expectedHeight d))%Q)
    /\ (forall start : Q, gd_timestamp g = TsDate (Fin start) ->
          (inject_Z now - start <= 604800000)%Q).
Proof.
  intros Hstruct H.
  destruct (structure_mineCount g Hstruct) as [Hmines [k Hk]].
  unfold validateGameSession in H. rewrite Hk, Hmines in H.
  destruct (gd_timestamp g) as [| |start]; try discriminate.
  destruct (gd_boardSize g) as [| |width height]; try discriminate.
  destruct (negb (truthy (gd_gameId g)) || negb (truthy (gd_gameEndTime g))
            || negb (truthy (gd_firstClickTime g))); [discriminate|].
  destruct (strictEq (gd_gameState g) (VStr "won")) eqn:Hwon; [|discriminate].
  cbn [negb] in H.
  destruct (Num.gt (Num.sub (JInt now) start) (JInt 604800000)) eqn:Hage; [discriminate|].
  destruct (Num.gt _ (JInt 60)); [discriminate|].
  unfold lookupDifficulty in H.
  destruct (difficultyOfKey k) as [d|] eqn:Hd.
  2:{ destruct (existsb (String.eqb k) objectPrototypeKeys);
        [rewrite !orb_true_r in H|]; discriminate. }
  destruct (strictNeqNumber width (expectedWidth d)) eqn:Hw; [discriminate|].
  destruct (strictNeqNumber height (expectedHeight d)) eqn:Hh; [discriminate|].
  destruct (strictNeqNumber (gd_mineCount g) (expectedMines d)) eqn:Hm; [discriminate|].
  cbn [orb] in H.
  destruct (Num.lt (ToNumber (gd_moves g)) (JInt (minMoves d))) eqn:Hfew; [discriminate|].
  destruct (Num.gt (ToNumber (gd_moves g))
              (Num.mul (Num.mul (ToNumber width) (ToNumber height)) (JInt 2))) eqn:Hmany;
    [discriminate|].
  unfold strictNeqNumber in Hw, Hh, Hm. apply negb_false_iff in Hw, Hh, Hm.
  exists d, width, height.
  split; [rewrite Hk; f_equal; apply difficultyOfKey_name; exact Hd|].
  split; [reflexivity|]. split; [exact Hw|]. split; [exact Hh|]. split; [exact Hm|].
  split.
  { destruct (gd_gameState g) as [| | | |s]; try discriminate.
    simpl in Hwon. apply String.eqb_eq in Hwon. congruence. }
  split.
  - intros mv Hmv. rewrite Hmv in Hfew, Hmany.
    destruct (strictEq_JInt _ _ Hw) as (qw & -> & Hqw).
    destruct (strictEq_JInt _ _ Hh) as (qh & -> & Hqh).
    cbn in Hfew, Hmany.
    apply Qlt_bool_false_iff in Hfew, Hmany.
    split; [exact Hfew|].
    rewrite Hqw, Hqh in Hmany. rewrite <- !inject_Z_mult in Hmany.
    replace (2 * expectedWidth d * expectedHeight d)
      with (expectedWidth d * expectedHeight d * 2) by lia.
    exact Hmany.
  - intros start0 Hstart. injection Hstart as ->.
    cbn in Hage. apply Qlt_bool_false_iff in Hage.
    unfold Qminus. exact Hage.
Qed.

Lemma validateGameSession_sound_witness :
  gd_gameState (wonGame Beginner "g1" 45 12 day0) = VStr "won"
  /\ exists d, gd_difficulty (wonGame Beginner "g1" 45 12 day0) = Some (difficultyName d).
Proof.
  destruct (validateGameSession_sound (day0 + 60000) (wonGame Beginner "g1" 45 12 day0)
              ltac:(vm_compute; reflexivity) ltac:(vm_compute; reflexivity))
    as (d & width & height & Hd & _ & _ & _ & _ & Hwon & _).
  split; [exact Hwon | exists d; exact Hd].
Defined.

(** ** The read endpoint *)

Lemma cacheGet_absent (c : CacheManager) (now : Z) (key : string) :
  cm_cache c !! key = None ->
  (cacheGet c now key).1 = None /\ cm_cache (cacheGet c now key).2 = cm_cache c.
Proof.
  intros H. unfold cacheGet. rewrite H. split; reflexivity.
Qed.

Lemma jsonValue_idem (v : JsValue) : jsonValue (jsonValue v) = jsonValue v.
Proof. destruct v as [| | |[| | |q]|]; reflexivity. Qed.

Lemma jsonRecord_idem (r : ScoreRecord) : jsonRecord (jsonRecord r) = jsonRecord r.
Proof.
  unfold jsonRecord. simpl. rewrite !jsonValue_idem. reflexivity.
Qed.

Lemma kvGet_no_expiry (kv : gmap string KVEntry) (now : Z) (key : string) (t : KVText) :
  kv !! key = Some (mkKVEntry t None) -> kvGet kv now key = Some t.
Proof. intros H. unfold kvGet. rewrite H. reflexivity. Qed.

(** A read of the tier [d] in a world whose cache holds neither of the
    two entries of the tier and whose store holds the board [data]. *)
Lemma get_reads_store (jsonText : Data -> string) (w : World) (now : Z) (rq : Request)
    (ifNoneMatch : option string) (d : Difficulty) (data : list ScoreRecord) :
  difficultyOfKey (rq_pathTail rq) = Some d ->
  cm_cache (w_cache w) !! createCacheKey ["leaderboard"; difficultyName d] = None ->
  cm_cache (w_cache w) !! kvCacheKey (leaderboardKey d) = None ->
  w_kv w !! leaderboardKey d = Some (mkKVEntry (Json (DBoard data)) None) ->
  rl_allowed (checkRateLimit (w_kv w) (rq_headers rq) now).1 = true ->
  (handleLeaderboardGET jsonText w now rq ifNoneMatch).1
  = GetSuccess (DBoard (map jsonRecord data)) (Some (length data))
               (rl_remaining (checkRateLimit (w_kv w) (rq_headers rq) now).1).
Proof.
  intros Hd Hc1 Hc2 Hkv Hallow. unfold handleLeaderboardGET. rewrite Hd.
  pose proof (checkRateLimit_tier (w_kv w) (rq_headers rq) now d) as Htier.
  destruct (checkRateLimit (w_kv w) (rq_headers rq) now) as [rl kv1].
  cbn [fst snd] in *. rewrite Hallow. cbn [negb].
  destruct (cacheGet_absent (w_cache w) now _ Hc1) as [Hmiss Hsame].
  destruct (cacheGet (w_cache w) now (createCacheKey ["leaderboard"; difficultyName d]))
    as [cached c1].
  cbn [fst snd] in Hmiss, Hsame. subst cached.
  unfold safeGet. cbn [w_cache w_kv].
  assert (Hc2' : cm_cache c1 !! kvCacheKey (leaderboardKey d) = None)
    by (rewrite Hsame; exact Hc2).
  destruct (cacheGet_absent c1 now _ Hc2') as [Hmiss2 _].
  destruct (cacheGet c1 now (kvCacheKey (leaderboardKey d))) as [cached2 c2].
  cbn [fst] in Hmiss2. subst cached2.
  rewrite (kvGet_no_expiry kv1 now _ (Json (DBoard data))) by (rewrite Htier; exact Hkv).
  reflexivity.
Qed.

(** X15.  Read your writes: after a submission that wrote the tier, a read
    of that tier that passes the rate limiter answers the board of the
    submission's own response, at whatever time it is handled. *)
Theorem get_after_accepted_post (fracToString : Q -> string) (jsonText : Data -> string)
    (w w' : World) (now : Z) (rq : Request) (status : Z) (data : list ScoreRecord)
    (meta : Meta) :
  handleLeaderboardAPI fracToString w now rq = (SuccessResponse status data meta, w') ->
  m_improved meta = None ->
  forall (now' : Z) (rq' : Request) (ifNoneMatch : option string),
    rq_pathTail rq' = rq_pathTail rq ->
    rl_allowed (checkRateLimit (w_kv w') (rq_headers rq') now').1 = true ->
    (handleLeaderboardGET jsonText w' now' rq' ifNoneMatch).1
    = GetSuccess (DBoard data) (Some (length data))
                 (rl_remaining (checkRateLimit (w_kv w') (rq_headers rq') now').1).
Proof.
  intros Hpost Hwritten now' rq' inm Hpath Hallow.
  destruct (handleLeaderboardAPI_success fracToString _ _ _ _ _ _ _ Hpost)
    as (d & rl & kv1 & Hd & _ & _ & Hhandle).
  destruct (handlePost_success fracToString _ _ _ _ _ _ _ _ _ Hhandle)
    as (username & time & g & stats & saved & w1 & _ & _ & _ & _ & Haccept).
  destruct (acceptPath_written fracToString _ _ _ _ _ _ _ _ _ _ _ Haccept Hwritten)
    as (l & board & _ & _ & Hdata & Hw').
  destruct (invalidateTier_lookup (w_cache w1) d) as [Hc1 Hc2].
  assert (Hidem : map jsonRecord data = data).
  { rewrite Hdata, map_map. apply map_ext. intros r. apply jsonRecord_idem. }
  rewrite <- Hidem at 1.
  apply (get_reads_store jsonText w' now' rq' inm d data).
  - rewrite Hpath. exact Hd.
  - rewrite Hw'. exact Hc1.
  - rewrite Hw'. exact Hc2.
  - rewrite Hw'. cbn [w_kv]. unfold kvPut. rewrite lookup_insert_eq. reflexivity.
  - exact Hallow.
Qed.

Lemma get_after_accepted_post_witness :
  (handleLeaderboardGET (fun _ => EmptyString)
     (handleLeaderboardAPI noFraction emptyWorld (day0 + 10000) firstSubmission).2
     (day0 + 20000) firstSubmission None).1
  = GetSuccess
      (DBoard [mkScoreRecord "alice" (VNum (Fin 3)) (day0 + 10000) (VStr "g1")
                             (VNum (Fin 20)) true])
      (Some 1%nat)
      (rl_remaining
         (checkRateLimit
            (w_kv (handleLeaderboardAPI noFraction emptyWorld (day0 + 10000) firstSubmission).2)
            (rq_headers firstSubmission) (day0 + 20000)).1).
Proof.
  apply (get_after_accepted_post noFraction (fun _ => EmptyString) emptyWorld
           (handleLeaderboardAPI noFraction emptyWorld (day0 + 10000) firstSubmission).2
           (day0 + 10000) firstSubmission 200
           [mkScoreRecord "alice" (VNum (Fin 3)) (day0 + 10000) (VStr "g1")
                          (VNum (Fin 20)) true]
           (mkMeta "alice" (VNum (Fin 3)) None None (Some 1) (Some (Some 14)))).
  - apply injective_projections; [vm_compute; reflexivity | reflexivity].
  - reflexivity.
  - reflexivity.
  - vm_compute. reflexivity.
Defined.

(** ** The conditional read is never served *)

Lemma adapterKeys_within (c c' : CacheManager) :
  adapterKeysOnly c ->
  (forall k, is_Some (cm_cache c' !! k) ->
             is_Some (cm_cache c !! k) \/ exists key, k = kvCacheKey key) ->
  adapterKeysOnly c'.
Proof.
  intros Hc Hsub k Hk. destruct (Hsub k Hk) as [Hin|Hkey]; [exact (Hc k Hin) | exact Hkey].
Qed.

Lemma adapterKeys_get (c : CacheManager) (now : Z) (key : string) :
  adapterKeysOnly c -> adapterKeysOnly (cacheGet c now key).2.
Proof.
  intros Hc. apply (adapterKeys_within c _ Hc). intros k Hk. left.
  unfold cacheGet in Hk. destruct (cm_cache c !! key) as [e|] eqn:He; [|exact Hk].
  destruct (ce_expiry e <? now); simpl in Hk.
  - destruct (decide (k = key)) as [->|Hne].
    + rewrite lookup_delete_eq in Hk. destruct Hk as [? Hk]. discriminate.
    + rewrite lookup_delete_ne in Hk by congruence. exact Hk.
  - destruct (decide (k = key)) as [->|Hne].
    + rewrite He. eexists. reflexivity.
    + rewrite lookup_insert_ne in Hk by congruence. exact Hk.
Qed.

Lemma adapterKeys_cleanup (c : CacheManager) (now : Z) :
  adapterKeysOnly c -> adapterKeysOnly (cacheCleanup c now).
Proof.
  intros Hc. apply (adapterKeys_within c _ Hc). intros k Hk. left.
  rewrite cacheCleanup_lookup in Hk.
  destruct (cm_cache c !! k) as [e|]; [eexists; reflexivity|].
  destruct Hk as [? Hk]. discriminate.
Qed.

Lemma adapterKeys_set (c : CacheManager) (now : Z) (key : string) (data : Data)
    (ttl : option Z) :
  adapterKeysOnly c -> adapterKeysOnly (cacheSet c now (kvCacheKey key) data ttl).
Proof.
  intros Hc. apply (adapterKeys_within c _ Hc). intros k Hk.
  destruct (decide (k = kvCacheKey key)) as [->|Hne]; [right; exists key; reflexivity|].
  left. rewrite cacheSet_lookup_value in Hk.
  rewrite lookup_insert_ne in Hk by congruence.
  destruct ((cs_sets (cm_stats c) + 1) mod 100 =? 0); [|exact Hk].
  destruct (cm_cache c !! k) as [e|]; [eexists; reflexivity|].
  destruct Hk as [? Hk]. discriminate.
Qed.

Lemma adapterKeys_delete (c : CacheManager) (key : string) :
  adapterKeysOnly c -> adapterKeysOnly (cacheDelete c key).
Proof.
  intros Hc. apply (adapterKeys_within c _ Hc). intros k Hk. left.
  unfold cacheDelete in Hk. simpl in Hk.
  destruct (decide (k = key)) as [->|Hne].
  - rewrite lookup_delete_eq in Hk. destruct Hk as [? Hk]. discriminate.
  - rewrite lookup_delete_ne in Hk by congruence. exact Hk.
Qed.

Lemma adapterKeys_mutate (c : CacheManager) (key : string) (d : Data) :
  adapterKeysOnly c -> adapterKeysOnly (cacheMutate c key d).
Proof.
  intros Hc. apply (adapterKeys_within c _ Hc). intros k Hk. left.
  unfold cacheMutate in Hk. destruct (cm_cache c !! key) as [e|] eqn:He; [|exact Hk].
  simpl in Hk. destruct (decide (k = key)) as [->|Hne].
  - rewrite He. eexists. reflexivity.
  - rewrite lookup_insert_ne in Hk by congruence. exact Hk.
Qed.

Lemma adapterKeys_safeGet (w : World) (now : Z) (key : string) (defaultValue : Data)
    (cacheTTL : option Z) :
  adapterKeysOnly (w_cache w) ->
  adapterKeysOnly (w_cache (safeGet true w now key defaultValue cacheTTL).2).
Proof.
  intros Hc. unfold safeGet.
  pose proof (adapterKeys_get (w_cache w) now (kvCacheKey key) Hc) as Hget.
  destruct (cacheGet (w_cache w) now (kvCacheKey key)) as [cached c1].
  cbn [snd] in Hget. destruct cached as [d|]; [exact Hget|].
  destruct (kvGet (w_kv w) now key) as [data|]; [|exact Hget].
  destruct (if textTruthy data then JSON_parse data else Some defaultValue) as [result|];
    [|exact Hget].
  cbn [snd w_cache]. apply adapterKeys_set. exact Hget.
Qed.

Lemma adapterKeys_safePut (w : World) (now : Z) (key : string) (value : Data)
    (expirationTtl : option Z) :
  adapterKeysOnly (w_cache w) ->
  adapterKeysOnly (w_cache (safePut true w now key value expirationTtl).2).
Proof.
  intros Hc. unfold safePut. cbn [snd w_cache]. apply adapterKeys_set. exact Hc.
Qed.

Lemma adapterKeys_post (fracToString : Q -> string) (w : World) (now : Z) (rq : Request) :
  adapterKeysOnly (w_cache w) ->
  adapterKeysOnly (w_cache (handleLeaderboardAPI fracToString w now rq).2).
Proof.
  intros Hc. unfold handleLeaderboardAPI.
  destruct (difficultyOfKey (rq_pathTail rq)) as [d|]; [|exact Hc].
  destruct (checkRateLimit (w_kv w) (rq_headers rq) now) as [rl kv1].
  destruct (negb (rl_allowed rl)); [exact Hc|].
  set (w1 := mkWorld kv1 (w_cache w)).
  assert (Hc1 : adapterKeysOnly (w_cache w1)) by exact Hc.
  clearbody w1. clear Hc w kv1.
  unfold handlePost.
  destruct (rq_body rq) as [|username time gameData]; [exact Hc1|].
  destruct gameData as [| |g].
  - exact Hc1.
  - destruct (validateUsername username); [exact Hc1|].
    destruct (validateTime time); exact Hc1.
  - destruct (validateUsername username) as [|name]; [exact Hc1|].
    destruct (validateTime time) as [|m]; [exact Hc1|].
    destruct (validateGameDataStructure g); [exact Hc1|].
    destruct (validateScoreReasonableness now time d (Some g)); [exact Hc1|].
    set (user := match username with VStr s => s | _ => EmptyString end).
    assert (Hanalyze : adapterKeysOnly
                         (w_cache (analyzeUserBehavior fracToString user time d w1 now).2)).
    { unfold analyzeUserBehavior.
      pose proof (adapterKeys_safeGet w1 now (userStatsKey user d) (DStats defaultStats)
                    None Hc1) as Hget.
      destruct (safeGet true w1 now (userStatsKey user d) (DStats defaultStats) None)
        as [[loaded shared] w2].
      cbn [snd] in Hget. destruct loaded as [l|stats].
      - pose proof (adapterKeys_safePut w2 now (userStatsKey user d) (DBoard l)
                      (Some 604800) Hget) as Hput.
        destruct (safePut true w2 now (userStatsKey user d) (DBoard l) (Some 604800)).
        exact Hput.
      - destruct (suspicionStep now stats) as [stats1 blocked].
        destruct blocked.
        + destruct shared; [|exact Hget]. cbn [snd w_cache].
          apply adapterKeys_mutate. exact Hget.
        + pose proof (adapterKeys_safePut w2 now (userStatsKey user d)
                        (DStats (recordSubmission fracToString now time stats1))
                        (Some 604800) Hget) as Hput.
          destruct (safePut true w2 now (userStatsKey user d)
                      (DStats (recordSubmission fracToString now time stats1))
                      (Some 604800)).
          exact Hput. }
    destruct (analyzeUserBehavior fracToString user time d w1 now) as [[|stats saved] w2];
      [exact Hanalyze|].
    cbn [snd] in Hanalyze. unfold acceptPath.
    destruct (readBoard w2 now d) as [l|]; [|exact Hanalyze].
    destruct (decideBoard l (newRecord fracToString now user time g)); try exact Hanalyze.
    cbn [snd w_cache]. unfold invalidateTier.
    repeat apply adapterKeys_delete. exact Hanalyze.
Qed.

Lemma adapterKeys_read (jsonText : Data -> string) (w : World) (now : Z) (rq : Request)
    (ifNoneMatch : option string) :
  adapterKeysOnly (w_cache w) ->
  adapterKeysOnly (w_cache (handleLeaderboardGET jsonText w now rq ifNoneMatch).2)
  /\ (handleLeaderboardGET jsonText w now rq ifNoneMatch).1 <> NotModified.
Proof.
  intros Hc. unfold handleLeaderboardGET.
  destruct (difficultyOfKey (rq_pathTail rq)) as [d|]; [|split; [exact Hc | discriminate]].
  destruct (checkRateLimit (w_kv w) (rq_headers rq) now) as [rl kv1].
  destruct (negb (rl_allowed rl)); [split; [exact Hc | discriminate]|].
  assert (Habsent : cm_cache (w_cache w) !! createCacheKey ["leaderboard"; difficultyName d]
                    = None).
  { destruct (cm_cache (w_cache w) !! createCacheKey ["leaderboard"; difficultyName d])
      as [e|] eqn:He; [|reflexivity].
    destruct (Hc _ (mk_is_Some _ _ He)) as [key Hkey]. discriminate. }
  destruct (cacheGet_absent (w_cache w) now _ Habsent) as [Hmiss _].
  pose proof (adapterKeys_get (w_cache w) now
                (createCacheKey ["leaderboard"; difficultyName d]) Hc) as Hget.
  destruct (cacheGet (w_cache w) now (createCacheKey ["leaderboard"; difficultyName d]))
    as [cached c1].
  cbn [fst snd] in Hmiss, Hget. subst cached.
  pose proof (adapterKeys_safeGet (mkWorld kv1 c1) now (leaderboardKey d) (DBoard [])
                (Some 30000) Hget) as Hsafe.
  destruct (safeGet true (mkWorld kv1 c1) now (leaderboardKey d) (DBoard []) (Some 30000))
    as [[leaderboard shared] w2].
  split; [exact Hsafe | discriminate].
Qed.

(** X16.  The 304 answer is never given.  The read endpoint looks for the
    tier under a cache key that nothing ever sets: along any sequence of
    submissions and reads, starting from a cache that holds entries of the
    store adapter only (an empty one, for instance), every cache key is one
    of the adapter, so the look-up misses and no read is answered with
    [NotModified], whatever [If-None-Match] says. *)
Theorem conditional_get_never_served (fracToString : Q -> string)
    (jsonText : Data -> string) (calls : list Call) :
  forall w : World,
    adapterKeysOnly (w_cache w) ->
    adapterKeysOnly (w_cache (runCalls fracToString jsonText w calls))
    /\ forall (now : Z) (rq : Request) (ifNoneMatch : option string),
         (handleLeaderboardGET jsonText (runCalls fracToString jsonText w calls)
                               now rq ifNoneMatch).1 <> NotModified.
Proof.
  induction calls as [|c calls IH]; intros w Hc.
  - split; [exact Hc|]. intros now rq inm. apply adapterKeys_read. exact Hc.
  - unfold runCalls. cbn [fold_left]. apply IH.
    destruct c as [now rq|now rq inm]; cbn [runCall].
    + apply adapterKeys_post. exact Hc.
    + apply adapterKeys_read. exact Hc.
Qed.

Lemma conditional_get_never_served_witness :
  (handleLeaderboardGET (fun _ => EmptyString)
     (runCalls noFraction (fun _ => EmptyString) emptyWorld
               [CallPost (day0 + 10000) firstSubmission;
                CallGet (day0 + 20000) firstSubmission None])
     (day0 + 30000) firstSubmission (Some "*")).1 <> NotModified.
Proof.
  apply (conditional_get_never_served noFraction (fun _ => EmptyString)
           [CallPost (day0 + 10000) firstSubmission;
            CallGet (day0 + 20000) firstSubmission None] emptyWorld).
  intros k [e He]. simpl in He. rewrite lookup_empty in He. discriminate.
Defined.

(** ** The boards that are served *)

Lemma goodCache_within (c c' : CacheManager) :
  goodCache c ->
  (forall d e', cm_cache c' !! kvCacheKey (leaderboardKey d) = Some e' ->
                exists e, cm_cache c !! kvCacheKey (leaderboardKey d) = Some e
                          /\ ce_data e = ce_data e') ->
  goodCache c'.
Proof.
  intros Hc Hsub d e' He'. destruct (Hsub d e' He') as (e & He & Hdata).
  destruct (Hc d e He) as (l & Hl & Hinv & Hnum).
  exists l. split; [congruence|]. split; assumption.
Qed.

Lemma goodCache_get (c : CacheManager) (now : Z) (key : string) :
  goodCache c -> goodCache (cacheGet c now key).2.
Proof.
  intros Hc. apply (goodCache_within c _ Hc). intros d e' He'.
  pose proof (cacheGet_lookup_after c now key (kvCacheKey (leaderboardKey d))) as Hafter.
  rewrite He' in Hafter. simpl in Hafter.
  destruct (decide (kvCacheKey (leaderboardKey d) = key)) as [<-|Hne].
  - destruct (cm_cache c !! kvCacheKey (leaderboardKey d)) as [e|]; [|discriminate].
    destruct (ce_expiry e <? now); [discriminate|].
    exists e. split; [reflexivity | congruence].
  - destruct (cm_cache c !! kvCacheKey (leaderboardKey d)) as [e|]; [|discriminate].
    exists e. split; [reflexivity|]. simpl in Hafter. congruence.
Qed.

Lemma goodCache_set_other (c : CacheManager) (now : Z) (key : string) (data : Data)
    (ttl : option Z) :
  (forall d, key <> kvCacheKey (leaderboardKey d)) ->
  goodCache c -> goodCache (cacheSet c now key data ttl).
Proof.
  intros Hkey Hc. apply (goodCache_within c _ Hc). intros d e' He'.
  rewrite cacheSet_lookup_value in He'. rewrite lookup_insert_ne in He' by apply Hkey.
  destruct ((cs_sets (cm_stats c) + 1) mod 100 =? 0).
  - destruct (cm_cache c !! kvCacheKey (leaderboardKey d)) as [e|]; [|discriminate].
    destruct (ce_expiry e <? now); [discriminate|]. exists e. split; congruence.
  - exists e'. split; [exact He' | reflexivity].
Qed.

Lemma goodCache_set_tier (c : CacheManager) (now : Z) (d : Difficulty)
    (l : list ScoreRecord) (ttl : option Z) :
  tierInvariant l -> Forall numericTime l ->
  goodCache c -> goodCache (cacheSet c now (kvCacheKey (leaderboardKey d)) (DBoard l) ttl).
Proof.
  intros Hinv Hnum Hc d' e' He'. rewrite cacheSet_lookup_value in He'.
  destruct (decide (kvCacheKey (leaderboardKey d) = kvCacheKey (leaderboardKey d')))
    as [Heq|Hne].
  - rewrite <- Heq, lookup_insert_eq in He'.
    assert (Hdata : ce_data e' = DBoard l).
    { destruct ((cs_sets (cm_stats c) + 1) mod 100 =? 0);
        [destruct (_ <? now); [discriminate|]|]; injection He' as <-; reflexivity. }
    exists l. split; [exact Hdata|]. split; assumption.
  - rewrite lookup_insert_ne in He' by exact Hne.
    destruct ((cs_sets (cm_stats c) + 1) mod 100 =? 0).
    + destruct (cm_cache c !! kvCacheKey (leaderboardKey d')) as [e|] eqn:He; [|discriminate].
      destruct (ce_expiry e <? now); [discriminate|]. injection He' as <-.
      exact (Hc d' e He).
    + exact (Hc d' e' He').
Qed.

Lemma goodCache_delete (c : CacheManager) (key : string) :
  goodCache c -> goodCache (cacheDelete c key).
Proof.
  intros Hc. apply (goodCache_within c _ Hc). intros d e' He'.
  unfold cacheDelete in He'. simpl in He'.
  destruct (decide (kvCacheKey (leaderboardKey d) = key)) as [<-|Hne].
  - rewrite lookup_delete_eq in He'. discriminate.
  - rewrite lookup_delete_ne in He' by congruence. exists e'. split; [exact He' | reflexivity].
Qed.

Lemma goodCache_mutate_other (c : CacheManager) (key : string) (data : Data) :
  (forall d, key <> kvCacheKey (leaderboardKey d)) ->
  goodCache c -> goodCache (cacheMutate c key data).
Proof.
  intros Hkey Hc. apply (goodCache_within c _ Hc). intros d e' He'.
  unfold cacheMutate in He'. destruct (cm_cache c !! key) as [e|].
  - simpl in He'. rewrite lookup_insert_ne in He' by apply Hkey.
    exists e'. split; [exact He' | reflexivity].
  - exists e'. split; [exact He' | reflexivity].
Qed.

Lemma statsKey_not_tier (username : string) (d d' : Difficulty) :
  kvCacheKey (userStatsKey username d) <> kvCacheKey (leaderboardKey d').
Proof. discriminate. Qed.

Lemma goodCache_safeGet_other (w : World) (now : Z) (key : string) (defaultValue : Data)
    (cacheTTL : option Z) :
  (forall d, kvCacheKey key <> kvCacheKey (leaderboardKey d)) ->
  goodCache (w_cache w) ->
  goodCache (w_cache (safeGet true w now key defaultValue cacheTTL).2).
Proof.
  intros Hkey Hc. unfold safeGet.
  pose proof (goodCache_get (w_cache w) now (kvCacheKey key) Hc) as Hget.
  destruct (cacheGet (w_cache w) now (kvCacheKey key)) as [cached c1].
  cbn [snd] in Hget. destruct cached as [d|]; [exact Hget|].
  destruct (kvGet (w_kv w) now key) as [data|]; [|exact Hget].
  destruct (if textTruthy data then JSON_parse data else Some defaultValue) as [result|];
    [|exact Hget].
  cbn [snd w_cache]. apply goodCache_set_other; assumption.
Qed.

Lemma goodCache_post (fracToString : Q -> string) (w : World) (now : Z) (rq : Request) :
  goodCache (w_cache w) ->
  goodCache (w_cache (handleLeaderboardAPI fracToString w now rq).2).
Proof.
  intros Hc. unfold handleLeaderboardAPI.
  destruct (difficultyOfKey (rq_pathTail rq)) as [d|]; [|exact Hc].
  destruct (checkRateLimit (w_kv w) (rq_headers rq) now) as [rl kv1].
  destruct (negb (rl_allowed rl)); [exact Hc|].
  set (w1 := mkWorld kv1 (w_cache w)).
  assert (Hc1 : goodCache (w_cache w1)) by exact Hc.
  clearbody w1. clear Hc w kv1.
  unfold handlePost.
  destruct (rq_body rq) as [|username time gameData]; [exact Hc1|].
  destruct gameData as [| |g].
  - exact Hc1.
  - destruct (validateUsername username); [exact Hc1|].
    destruct (validateTime time); exact Hc1.
  - destruct (validateUsername username) as [|name]; [exact Hc1|].
    destruct (validateTime time) as [|m]; [exact Hc1|].
    destruct (validateGameDataStructure g); [exact Hc1|].
    destruct (validateScoreReasonableness now time d (Some g)); [exact Hc1|].
    set (user := match username with VStr s => s | _ => EmptyString end).
    assert (Hanalyze : goodCache
                         (w_cache (analyzeUserBehavior fracToString user time d w1 now).2)).
    { unfold analyzeUserBehavior.
      pose proof (goodCache_safeGet_other w1 now (userStatsKey user d) (DStats defaultStats)
                    None (statsKey_not_tier user d) Hc1) as Hget.
      destruct (safeGet true w1 now (userStatsKey user d) (DStats defaultStats) None)
        as [[loaded shared] w2].
      cbn [snd] in Hget. destruct loaded as [l|stats].
      - unfold safePut. cbn [snd w_cache].
        apply goodCache_set_other; [apply statsKey_not_tier | exact Hget].
      - destruct (suspicionStep now stats) as [stats1 blocked].
        destruct blocked.
        + destruct shared; [|exact Hget]. cbn [snd w_cache].
          apply goodCache_mutate_other; [apply statsKey_not_tier | exact Hget].
        + unfold safePut. cbn [snd w_cache].
          apply goodCache_set_other; [apply statsKey_not_tier | exact Hget]. }
    destruct (analyzeUserBehavior fracToString user time d w1 now) as [[|stats saved] w2];
      [exact Hanalyze|].
    cbn [snd] in Hanalyze. unfold acceptPath.
    destruct (readBoard w2 now d) as [l|]; [|exact Hanalyze].
    destruct (decideBoard l (newRecord fracToString now user time g)); try exact Hanalyze.
    cbn [snd w_cache]. unfold invalidateTier.
    repeat apply goodCache_delete. exact Hanalyze.
Qed.

Lemma goodTier_ext (w w' : World) (d : Difficulty) :
  w_kv w' !! leaderboardKey d = w_kv w !! leaderboardKey d -> goodTier w d -> goodTier w' d.
Proof. unfold goodTier. intros ->. auto. Qed.

(** A read keeps the store and the cache good, and its answer is good. *)
Lemma read_good (jsonText : Data -> string) (w : World) (now : Z) (rq : Request)
    (ifNoneMatch : option string) :
  (forall d, goodTier w d) -> goodCache (w_cache w) ->
  let out := handleLeaderboardGET jsonText w now rq ifNoneMatch in
  (forall d, goodTier out.2 d) /\ goodCache (w_cache out.2) /\ goodAnswer out.1.
Proof.
  intros Htier Hc. unfold handleLeaderboardGET.
  destruct (difficultyOfKey (rq_pathTail rq)) as [d|];
    [|split; [exact Htier | split; [exact Hc | exact I]]].
  pose proof (fun d' => checkRateLimit_tier (w_kv w) (rq_headers rq) now d') as Hrate.
  destruct (checkRateLimit (w_kv w) (rq_headers rq) now) as [rl kv1].
  cbn [snd] in Hrate.
  assert (Htier1 : forall c d', goodTier (mkWorld kv1 c) d').
  { intros c d'. apply (goodTier_ext w); [apply Hrate | apply Htier]. }
  destruct (negb (rl_allowed rl)); [split; [apply Htier1 | split; [exact Hc | exact I]]|].
  pose proof (goodCache_get (w_cache w) now
                (createCacheKey ["leaderboard"; difficultyName d]) Hc) as Hget.
  destruct (cacheGet (w_cache w) now (createCacheKey ["leaderboard"; difficultyName d]))
    as [cached c1].
  cbn [snd] in Hget.
  destruct (match cached with
            | Some cached0 => checkConditionalRequest ifNoneMatch (generateETag jsonText cached0)
            | None => false
            end); [split; [apply Htier1 | split; [exact Hget | exact I]]|].
  unfold safeGet. cbn [w_cache w_kv].
  pose proof (cacheGet_value c1 now (kvCacheKey (leaderboardKey d))) as Hval.
  pose proof (goodCache_get c1 now (kvCacheKey (leaderboardKey d)) Hget) as Hget2.
  destruct (cacheGet c1 now (kvCacheKey (leaderboardKey d))) as [cached2 c2].
  cbn [fst snd] in Hval, Hget2.
  destruct cached2 as [hit|].
  - (* served from the cache *)
    cbn [fst snd]. split; [apply Htier1 | split; [exact Hget2|]].
    destruct (cm_cache c1 !! kvCacheKey (leaderboardKey d)) as [e|] eqn:He; [|discriminate].
    destruct (ce_expiry e <? now); [discriminate|]. injection Hval as ->.
    destruct (Hget d e He) as (l & -> & Hinv & Hnum). simpl.
    split; [apply stored_board_invariant; assumption | rewrite length_map; reflexivity].
  - (* read from the store *)
    destruct (Htier1 c2 d) as [Hnone|(l & Hsome & Hinv & Hnum)]; cbn [w_kv] in *.
    + unfold kvGet. rewrite Hnone. cbn [fst snd].
      split; [apply Htier1 | split; [exact Hget2|]]. simpl.
      split; [|reflexivity]. repeat split; [simpl; lia | constructor | constructor].
    + rewrite (kvGet_no_expiry kv1 now _ _ Hsome). cbn [textTruthy JSON_parse fst snd].
      split; [apply Htier1|]. split.
      * cbn [w_cache]. apply goodCache_set_tier; assumption.
      * simpl. split; [apply stored_board_invariant; assumption
                      | rewrite length_map; reflexivity].
Qed.

(** X17.  Every board that is served satisfies the invariant of a tier.
    From an empty store and cache (or any state whose stored and cached
    tiers satisfy it), along any sequence of reads and of submissions whose
    times are of number type, every read answered with a 200 carries a
    board of at most 20 records, sorted by time, with one record per user
    and its length as count, whether it comes from the cache or the store. *)
Theorem served_boards_satisfy_invariant (fracToString : Q -> string)
    (jsonText : Data -> string) (calls : list Call) :
  forall w : World,
    (forall d, goodTier w d) -> goodCache (w_cache w) ->
    Forall numberTimedCall calls ->
    forall (now : Z) (rq : Request) (ifNoneMatch : option string),
      goodAnswer (handleLeaderboardGET jsonText (runCalls fracToString jsonText w calls)
                                       now rq ifNoneMatch).1.
Proof.
  induction calls as [|c calls IH]; intros w Htier Hc Hall now rq inm.
  - apply (read_good jsonText w now rq inm Htier Hc).
  - apply Forall_cons in Hall as [Hcall Hrest].
    unfold runCalls. cbn [fold_left].
    apply (IH (runCall fracToString jsonText w c)); [| |exact Hrest].
    + destruct c as [t p|t p i]; cbn [runCall].
      * apply goodTier_step; assumption.
      * apply (read_good jsonText w t p i Htier Hc).
    + destruct c as [t p|t p i]; cbn [runCall].
      * apply goodCache_post. exact Hc.
      * apply (read_good jsonText w t p i Htier Hc).
Qed.

Lemma served_boards_satisfy_invariant_witness :
  goodAnswer
    (handleLeaderboardGET (fun _ => EmptyString)
       (runCalls noFraction (fun _ => EmptyString) emptyWorld
                 [CallPost (day0 + 10000) firstSubmission;
                  CallGet (day0 + 20000) firstSubmission None])
       (day0 + 30000) firstSubmission None).1.
Proof.
  apply (served_boards_satisfy_invariant noFraction (fun _ => EmptyString)
           [CallPost (day0 + 10000) firstSubmission;
            CallGet (day0 + 20000) firstSubmission None] emptyWorld).
  - apply emptyWorld_good.
  - intros d e He. simpl in He. rewrite lookup_empty in He. discriminate.
  - repeat constructor.
Defined.

Lemma stored_game_never_accepted_witness :
  (handleLeaderboardAPI noFraction worldWithBoard (day0 + 60000) aliceGame0).1
  = ErrorResponse DUPLICATE_GAME 400
  /\ (handleLeaderboardAPI noFraction worldWithBoard (day0 + 60000) aliceGame0).1
     <> SuccessResponse 200 [] (mkMeta "alice" (VNum (Fin 50)) None None (Some 1) None).
Proof.
  split; [vm_compute; reflexivity|].
  apply (stored_game_never_accepted noFraction worldWithBoard (day0 + 60000) aliceGame0
           Beginner [aliceRecord] aliceRecord (VStr "alice") (VNum (JInt 50))
           (wonGame Beginner "g0" 50 20 day0)).
  - reflexivity.
  - reflexivity.
  - apply list_elem_of_singleton. reflexivity.
  - reflexivity.
  - reflexivity.
Defined.

(** ** ConcurrencyOptimizer: the bound and the order *)

Lemma processQueue_step {T : Type} (max running : Z) (queue : list T) :
  processQueue (mkConcurrencyOptimizer max running queue)
  = match queue with
    | task :: rest =>
        if max <=? running then (None, mkConcurrencyOptimizer max running queue)
        else (Some task, mkConcurrencyOptimizer max (running + 1) rest)
    | [] => (None, mkConcurrencyOptimizer max running queue)
    end.
Proof.
  unfold processQueue. simpl. destruct queue as [|task rest]; simpl.
  - rewrite orb_true_r. reflexivity.
  - rewrite orb_false_r. reflexivity.
Qed.

Lemma runEvents_invariant {T : Type} (max : Z) (events : list (Event T)) :
  forall (c c' : ConcurrencyOptimizer T) (started started' before : list T),
    co_maxConcurrency c = max ->
    0 <= co_running c <= max ->
    (co_queue c <> [] -> co_running c = max) ->
    (started ++ co_queue c)%list = before ->
    runEvents c started events = Some (started', c') ->
    co_maxConcurrency c' = max
    /\ 0 <= co_running c' <= max
    /\ (co_queue c' <> [] -> co_running c' = max)
    /\ (started' ++ co_queue c')%list = (before ++ submitted events)%list.
Proof.
  induction events as [|e events IH];
    intros [m running queue] c' started started' before Hmax Hrun Hfull Hsub Hrunev;
    simpl in Hmax, Hrun, Hfull, Hsub; subst m.
  - simpl in Hrunev. injection Hrunev as <- <-. simpl.
    rewrite app_nil_r. repeat split; try assumption; lia.
  - destruct e as [task|].
    + cbn [runEvents] in Hrunev. unfold execute in Hrunev. cbn [co_maxConcurrency
        co_running co_queue] in Hrunev. rewrite processQueue_step in Hrunev.
      cbn [submitted].
      destruct queue as [|head rest]; cbn [app] in Hrunev.
      * destruct (Z.leb_spec max running).
        -- replace (before ++ task :: submitted events)%list
             with ((before ++ [task]) ++ submitted events)%list
             by (rewrite <- app_assoc; reflexivity).
           eapply IH; [| | | |exact Hrunev]; simpl;
             [reflexivity | lia | intros _; lia |].
           rewrite !app_nil_r. rewrite app_nil_r in Hsub. subst. reflexivity.
        -- replace (before ++ task :: submitted events)%list
             with ((before ++ [task]) ++ submitted events)%list
             by (rewrite <- app_assoc; reflexivity).
           eapply IH; [| | | |exact Hrunev]; simpl;
             [reflexivity | lia | intros Hne; contradiction |].
           rewrite !app_nil_r. rewrite app_nil_r in Hsub. subst. reflexivity.
      * assert (Hr : running = max) by (apply Hfull; discriminate).
        destruct (Z.leb_spec max running); [|lia].
        replace (before ++ task :: submitted events)%list
          with ((before ++ [task]) ++ submitted events)%list
          by (rewrite <- app_assoc; reflexivity).
        eapply IH; [| | | |exact Hrunev]; simpl;
          [reflexivity | lia | intros _; exact Hr |].
        rewrite app_nil_r. subst before. rewrite <- app_assoc. reflexivity.
    + cbn [runEvents] in Hrunev. cbn [co_running] in Hrunev.
      destruct (Z.ltb_spec 0 running) as [Hpos|]; [|discriminate].
      unfold settle in Hrunev. cbn [co_maxConcurrency co_running co_queue] in Hrunev.
      rewrite processQueue_step in Hrunev. cbn [submitted].
      destruct queue as [|head rest].
      * eapply IH; [| | | |exact Hrunev]; simpl;
          [reflexivity | lia | intros Hne; contradiction |].
        rewrite !app_nil_r. rewrite app_nil_r in Hsub. exact Hsub.
      * assert (Hr : running = max) by (apply Hfull; discriminate).
        destruct (Z.leb_spec max (running - 1)); [lia|].
        eapply IH; [| | | |exact Hrunev]; simpl;
          [reflexivity | lia | intros _; lia |].
        rewrite <- app_assoc. exact Hsub.
Qed.

(** X19.  The concurrency bound.  Along any history of [execute] calls and
    of settlements of started tasks, from a fresh optimizer with a limit of
    at least 0, the counter [running] stays between 0 and the limit, a task
    waits only while the limit is reached, and the tasks are started in the
    order of their submission, none twice and none skipped: the tasks
    started followed by the queue are the tasks submitted. *)
Theorem concurrency_bound_and_order {T : Type} (max : Z) (events : list (Event T))
    (started : list T) (c : ConcurrencyOptimizer T) :
  0 <= max ->
  runEvents (mkConcurrencyOptimizer max 0 []) [] events = Some (started, c) ->
  0 <= co_running c <= max
  /\ (co_queue c <> [] -> co_running c = max)
  /\ (started ++ co_queue c)%list = submitted events.
Proof.
  intros Hmax Hrun.
  destruct (runEvents_invariant max events (mkConcurrencyOptimizer max 0 []) c [] started []
              eq_refl ltac:(simpl; lia) ltac:(intros Hne; contradiction) eq_refl Hrun)
    as (_ & Hbound & Hfull & Horder).
  split; [exact Hbound|]. split; [exact Hfull | exact Horder].
Qed.

Lemma concurrency_bound_and_order_witness :
  runEvents (mkConcurrencyOptimizer 2 0 []) []
            [Execute 1%nat; Execute 2%nat; Execute 3%nat; Settle]
  = Some ([1%nat; 2%nat; 3%nat], mkConcurrencyOptimizer 2 2 [])
  /\ 0 <= co_running (mkConcurrencyOptimizer (T := nat) 2 2 []) <= 2.
Proof.
  split; [reflexivity|].
  destruct (concurrency_bound_and_order 2
              [Execute 1%nat; Execute 2%nat; Execute 3%nat; Settle]
              [1%nat; 2%nat; 3%nat] (mkConcurrencyOptimizer 2 2 [])
              ltac:(lia) ltac:(reflexivity)) as [Hbound _].
  exact Hbound.
Defined.

(** ** Cross-origin policy *)

Lemma includes_unfold (sub s : string) :
  includes sub s
  = String.prefix sub s
    || match s with
       | String _ r => includes sub r
       | EmptyString => false
       end.
Proof. destruct s; reflexivity. Qed.

Lemma includes_here (sub post : string) : includes sub (sub +:+ post) = true.
Proof. rewrite includes_unfold, prefix_append. reflexivity. Qed.

Lemma includes_append (sub pre post : string) : includes sub (pre +:+ sub +:+ post) = true.
Proof.
  induction pre as [|c pre IH].
  - rewrite append_nil_l. apply includes_here.
  - rewrite append_cons_l, includes_unfold, IH. apply orb_true_r.
Qed.

Lemma append_not_empty (pre s post : string) :
  s <> EmptyString -> String.eqb (pre +:+ s +:+ post) EmptyString = false.
Proof.
  intros Hs. apply String.eqb_neq. destruct pre as [|c pre]; [|discriminate].
  rewrite append_nil_l. destruct s as [|c s]; [contradiction | discriminate].
Qed.

(** X20.  The origin that is allowed.  The answer is ["*"] only for a
    request without [Origin] whose [Host] looks local; otherwise it is an
    origin of the allow list or the request's own origin, the latter only
    when that origin is on the list or looks local.  Looking local means to
    contain "localhost" or "127.0.0.1" anywhere: every origin that contains
    "localhost", as a label of a foreign host for instance, is echoed. *)
Theorem getAllowedOrigin_cases (origin host : option string) :
  let allowed := getAllowedOrigin origin host in
  (allowed = "*" ->
   headerTruthy origin = false /\ exists h, host = Some h /\ looksLocal h = true)
  /\ (allowed <> "*" ->
      allowed ∈ allowedOrigins \/ (origin = Some allowed /\ looksLocal allowed = true))
  /\ (forall pre post : string,
         getAllowedOrigin (Some (pre +:+ "localhost" +:+ post)) host
         = pre +:+ "localhost" +:+ post).
Proof.
  assert (Hfirst : "https://cf-minesweeper.heartwopen.workers.dev" ∈ allowedOrigins)
    by (apply elem_of_cons; left; reflexivity).
  cbv zeta. split; [|split].
  - unfold getAllowedOrigin. destruct origin as [o|].
    + destruct (headerTruthy (Some o)) eqn:Ht; cbn [andb negb].
      * destruct (looksLocal o) eqn:Hl.
        -- intros ->. discriminate.
        -- destruct (existsb (String.eqb o) allowedOrigins) eqn:Hex; [|discriminate].
           intros ->. discriminate.
      * destruct host as [h|]; cbn [headerTruthy andb].
        -- destruct (negb (String.eqb h EmptyString) && looksLocal h) eqn:Hh.
           ++ apply andb_true_iff in Hh as [_ Hh]. intros _. split; [reflexivity|].
              exists h. split; [reflexivity | exact Hh].
           ++ destruct (existsb (String.eqb o) allowedOrigins) eqn:Hex; [|discriminate].
              intros ->. discriminate.
        -- destruct (existsb (String.eqb o) allowedOrigins) eqn:Hex; [|discriminate].
           intros ->. discriminate.
    + destruct host as [h|]; cbn [headerTruthy andb]; [|discriminate].
      destruct (negb (String.eqb h EmptyString) && looksLocal h) eqn:Hh; [|discriminate].
      apply andb_true_iff in Hh as [_ Hh]. intros _. split; [reflexivity|].
      exists h. split; [reflexivity | exact Hh].
  - assert (Hlisted : forall o, existsb (String.eqb o) allowedOrigins = true ->
                                o ∈ allowedOrigins).
    { intros o Hex. apply existsb_exists in Hex as (x & Hin & Hx).
      apply String.eqb_eq in Hx. subst x. apply list_elem_of_In. exact Hin. }
    unfold getAllowedOrigin. destruct origin as [o|].
    + destruct (headerTruthy (Some o) && looksLocal o) eqn:Hlocal.
      * apply andb_true_iff in Hlocal as [_ Hl]. intros _. right. split; [reflexivity | exact Hl].
      * destruct (negb (headerTruthy (Some o)) && headerTruthy host
                  && match host with Some h => looksLocal h | None => false end);
          [intros H; contradiction|].
        destruct (existsb (String.eqb o) allowedOrigins) eqn:Hex.
        -- intros _. left. apply Hlisted. exact Hex.
        -- intros _. left. exact Hfirst.
    + destruct (headerTruthy host && match host with Some h => looksLocal h | None => false end);
        [intros H; contradiction|].
      intros _. left. exact Hfirst.
  - intros pre post. unfold getAllowedOrigin, headerTruthy, looksLocal.
    rewrite append_not_empty by discriminate.
    rewrite includes_append. reflexivity.
Qed.

(** ** The hash behind signatures, fingerprints and entity tags *)

Lemma toInt32_range (z : Z) : - 2 ^ 31 <= toInt32 z < 2 ^ 31.
Proof.
  unfold toInt32. pose proof (Z.mod_pos_bound (z + 2 ^ 31) (2 ^ 32) ltac:(lia)). lia.
Qed.

Lemma hashLoop_range (data : string) :
  forall hash : Z, - 2 ^ 31 <= hash < 2 ^ 31 -> - 2 ^ 31 <= hashLoop data hash < 2 ^ 31.
Proof.
  induction data as [|c data IH]; intros hash Hh; [exact Hh|].
  simpl. apply IH. unfold hashStep. apply toInt32_range.
Qed.

Lemma charCode_digitChar (d : Z) :
  0 <= d < 36 -> charCode (digitChar d) = if d <? 10 then 48 + d else 87 + d.
Proof.
  intros Hd. unfold charCode, digitChar.
  rewrite N_ascii_embedding.
  - rewrite Z2N.id; [reflexivity|]. destruct (d <? 10); lia.
  - destruct (Z.ltb_spec d 10); lia.
Qed.

Lemma base36_digitChar (d : Z) : 0 <= d < 36 -> isBase36 (digitChar d) = true.
Proof.
  intros Hd. unfold isBase36, isDecDigit. rewrite (charCode_digitChar d Hd).
  destruct (Z.ltb_spec d 10).
  - apply orb_true_iff. left. apply andb_true_iff. split; apply Z.leb_le; lia.
  - apply orb_true_iff. right. apply andb_true_iff. split; apply Z.leb_le; lia.
Qed.

Lemma base36_radixDigits (f : nat) :
  forall (n : Z) (acc : string),
    allChars isBase36 acc = true -> allChars isBase36 (radixDigits f 36 n acc) = true.
Proof.
  induction f as [|f IH]; intros n acc Hacc; [exact Hacc|].
  rewrite radixDigits_S.
  assert (Hacc' : allChars isBase36 (String (digitChar (n mod 36)) acc) = true).
  { simpl. rewrite Hacc, base36_digitChar; [reflexivity|].
    apply Z.mod_pos_bound. lia. }
  destruct (n / 36 =? 0); [exact Hacc' | apply IH; exact Hacc'].
Qed.

Lemma radixDigits_grows (f : nat) :
  forall (R n : Z) (acc : string),
    (String.length acc <= String.length (radixDigits f R n acc))%nat.
Proof.
  induction f as [|f IH]; intros R n acc; [simpl; lia|].
  rewrite radixDigits_S. destruct (n / R =? 0); [simpl; lia|].
  etransitivity; [|apply IH]. simpl. lia.
Qed.

Lemma radixDigits_length (f : nat) :
  forall (n : Z) (acc : string) (k : nat),
    0 <= n < 36 ^ Z.of_nat (S k) ->
    (String.length (radixDigits f 36 n acc) <= S k + String.length acc)%nat.
Proof.
  induction f as [|f IH]; intros n acc k Hn; [simpl; lia|].
  rewrite radixDigits_S.
  destruct (Z.eqb_spec (n / 36) 0) as [Hz|Hnz]; [simpl; lia|].
  destruct k as [|k].
  - exfalso. apply Hnz. apply Z.div_small. simpl in Hn. lia.
  - etransitivity; [apply (IH (n / 36) _ k)|simpl; lia].
    split; [apply Z.div_pos; lia|].
    apply Z.div_lt_upper_bound; [lia|].
    replace (36 ^ Z.of_nat (S (S k))) with (36 * 36 ^ Z.of_nat (S k)) in Hn; [lia|].
    rewrite (Nat2Z.inj_succ (S k)), Z.pow_succ_r by lia. reflexivity.
Qed.

(** X21.  The format of the hash.  The text produced for a signature, a
    fingerprint or an entity tag is never empty, holds at most six
    characters, and all of them are digits of base 36: it stands for a
    number of at most 31 bits, whatever the length of the input. *)
Theorem hash36_format (data : string) :
  (1 <= String.length (hash36 data) <= 6)%nat
  /\ allChars isBase36 (hash36 data) = true.
Proof.
  unfold hash36, radixString.
  set (h := Z.abs (hashLoop data 0)).
  assert (Hh : 0 <= h < 36 ^ Z.of_nat 6).
  { pose proof (hashLoop_range data 0 ltac:(lia)). unfold h.
    change (36 ^ Z.of_nat 6) with 2176782336. lia. }
  split; [split|].
  - rewrite radixDigits_S.
    destruct (h / 36 =? 0); [simpl; lia|].
    etransitivity; [|apply radixDigits_grows]. simpl. lia.
  - pose proof (radixDigits_length (S (Z.to_nat (Z.log2 h))) h EmptyString 5 Hh) as Hlen.
    simpl in Hlen. simpl. lia.
  - apply base36_radixDigits. reflexivity.
Qed.

(** ** Writes of the tier: what stays and what falls off *)

Lemma timeAfter_le_false (x y : ScoreRecord) :
  numericTime x -> numericTime y -> timeLe x y -> timeAfter x y = false.
Proof.
  intros [qx Hx] [qy Hy]. unfold timeLe, timeAfter. rewrite Hx, Hy. cbn.
  intros Hle. apply Qle_bool_iff in Hle. apply Qlt_bool_false_iff. lra.
Qed.

Lemma sortByTime_sorted_append (l : list ScoreRecord) (new : ScoreRecord) :
  Sorted timeLe l -> Forall numericTime l -> numericTime new ->
  Forall (fun r => timeLe r new) l ->
  sortByTime (l ++ [new]) = (l ++ [new])%list.
Proof.
  intros Hsorted Hnum Hnew Hle.
  induction l as [|x l IH]; [reflexivity|].
  apply Sorted_inv in Hsorted as [Hsorted Hhd].
  apply Forall_cons in Hnum as [Hx Hnum]. apply Forall_cons in Hle as [Hxnew Hle].
  change (sortByTime ((x :: l) ++ [new])) with (insertByTime x (sortByTime (l ++ [new]))).
  rewrite (IH Hsorted Hnum Hle).
  destruct l as [|y l]; simpl.
  - rewrite (timeAfter_le_false x new Hx Hnew Hxnew). reflexivity.
  - apply HdRel_inv in Hhd. apply Forall_cons in Hnum as [Hy _].
    rewrite (timeAfter_le_false x y Hx Hy Hhd). reflexivity.
Qed.

Lemma findEntry_findIndex_None {A : Type} (p : A -> bool) (l : list A) :
  findEntry p l = None -> findIndex p l = None.
Proof.
  induction l as [|x l IH]; [reflexivity|].
  simpl. destruct (p x); [discriminate|].
  destruct (findEntry p l); [discriminate|]. intros _. rewrite IH; reflexivity.
Qed.

(** X22.  A write drops nobody while there is room.  When the board that
    is written comes from a stored board with fewer than 20 records, or
    from one of at most 20 in which the user already has a record, it
    holds the new record and every stored record of every other user. *)
Theorem write_keeps_other_records (l : list ScoreRecord) (new : ScoreRecord)
    (board : list ScoreRecord) :
  decideBoard l new = Write board ->
  (length l < 20)%nat
  \/ ((length l <= 20)%nat /\ existsb (sameUser (rec_username new)) l = true) ->
  new ∈ board
  /\ forall r, r ∈ l -> rec_username r <> rec_username new -> r ∈ board.
Proof.
  unfold decideBoard. intros Hdecide Hroom.
  destruct (existsb (fun r => strictEq (rec_gameId r) (rec_gameId new)) l); [discriminate|].
  destruct (findEntry (fun r => String.eqb (rec_username r) (rec_username new)) l)
    as [[i existing]|] eqn:Hfind.
  - destruct (jsLt (rec_time new) (rec_time existing)); [|discriminate].
    injection Hdecide as <-.
    destruct (findEntry_Some _ _ _ _ Hfind) as [Hi Hsame]. apply String.eqb_eq in Hsame.
    assert (Hlen : (length l <= 20)%nat) by (destruct Hroom as [?|[? _]]; lia).
    rewrite top20_short
      by (rewrite (Permutation_length (sortByTime_perm _)), length_insert; exact Hlen).
    split.
    + rewrite (sortByTime_perm _). eapply list_elem_of_lookup_2.
      apply list_lookup_insert_eq. eapply lookup_lt_Some. exact Hi.
    + intros r Hr Hne. rewrite (sortByTime_perm _).
      apply list_elem_of_lookup in Hr as [j Hj].
      eapply list_elem_of_lookup_2. rewrite list_lookup_insert_ne; [exact Hj|].
      intros ->. rewrite Hi in Hj. injection Hj as ->. congruence.
  - injection Hdecide as <-.
    assert (Hlen : (length l < 20)%nat).
    { destruct Hroom as [?|[_ Hex]]; [assumption|]. exfalso.
      apply existsb_exists in Hex as (x & Hx & Hp).
      pose proof (findEntry_None _ _ Hfind x ltac:(apply list_elem_of_In; exact Hx)) as Hq.
      unfold sameUser in Hp. simpl in Hq. congruence. }
    rewrite top20_short
      by (rewrite (Permutation_length (sortByTime_perm _)), length_app; simpl; lia).
    split.
    + rewrite (sortByTime_perm _). apply elem_of_app. right.
      apply list_elem_of_singleton. reflexivity.
    + intros r Hr _. rewrite (sortByTime_perm _). apply elem_of_app. left. exact Hr.
Qed.

Lemma write_keeps_other_records_witness :
  decideBoard [aliceRecord] bobRecord = Write [bobRecord; aliceRecord]
  /\ aliceRecord ∈ [bobRecord; aliceRecord].
Proof.
  split; [vm_compute; reflexivity|].
  destruct (write_keeps_other_records [aliceRecord] bobRecord [bobRecord; aliceRecord]
              ltac:(vm_compute; reflexivity) ltac:(left; simpl; lia)) as [_ Hkept].
  apply Hkept.
  - apply list_elem_of_singleton. reflexivity.
  - discriminate.
Defined.

(** X23.  The slowest falls off, even if it is the newcomer.  On a full
    tier of 20 sorted records with numeric times, a first submission of a
    user that is no faster than any stored record is answered with a
    success of rank 0, and the board that is written and returned is the
    stored one: the new record is not kept. *)
Theorem slow_newcomer_not_stored (fracToString : Q -> string) (w : World) (now : Z)
    (d : Difficulty) (username : string) (time : JsValue) (g : GameData)
    (remaining : option Z) (l : list ScoreRecord) :
  readBoard w now d = Some l ->
  length l = 20%nat -> Sorted timeLe l -> Forall numericTime l ->
  numericTime (newRecord fracToString now username time g) ->
  Forall (fun r => timeLe r (newRecord fracToString now username time g)) l ->
  existsb (sameGame (gd_gameId g)) l = false ->
  findEntry (sameUser (trim username)) l = None ->
  let out := acceptPath fracToString w now d username time g remaining in
  out.1 = SuccessResponse 200 (map jsonRecord l)
            (mkMeta (trim username)
                    (jsonValue (rec_time (newRecord fracToString now username time g)))
                    None None (Some 0) (Some remaining))
  /\ kvGet (w_kv out.2) now (leaderboardKey d) = Some (Json (DBoard (map jsonRecord l))).
Proof.
  intros Hread Hlen Hsorted Hnum Hnew Hle Hgame Huser out.
  assert (Hdecide : decideBoard l (newRecord fracToString now username time g) = Write l).
  { unfold decideBoard.
    change (existsb (fun r => strictEq (rec_gameId r)
                                (rec_gameId (newRecord fracToString now username time g))) l)
      with (existsb (sameGame (gd_gameId g)) l).
    rewrite Hgame.
    change (findEntry (fun r => String.eqb (rec_username r)
                                  (rec_username (newRecord fracToString now username time g))) l)
      with (findEntry (sameUser (trim username)) l).
    rewrite Huser, (sortByTime_sorted_append l _ Hsorted Hnum Hnew Hle).
    unfold top20. rewrite <- Hlen, take_app_length. reflexivity. }
  unfold out, acceptPath. rewrite Hread, Hdecide. cbn [fst snd w_kv].
  split.
  - unfold rankOf.
    change (findIndex (fun r => String.eqb (rec_username r) (trim username)) l)
      with (findIndex (sameUser (trim username)) l).
    rewrite (findEntry_findIndex_None _ _ Huser). reflexivity.
  - apply kvGet_kvPut_eq.
Qed.


Lemma slow_newcomer_not_stored_witness :
  (acceptPath noFraction worldWithFullBoard (day0 + 60000) Beginner "zoe" (VNum (JInt 500))
              (wonGame Beginner "g500" 500 100 day0) (Some 14)).1
  = SuccessResponse 200 (map jsonRecord fullBoard)
      (mkMeta (trim "zoe")
         (jsonValue (rec_time (newRecord noFraction (day0 + 60000) "zoe" (VNum (JInt 500))
                                         (wonGame Beginner "g500" 500 100 day0))))
         None None (Some 0) (Some (Some 14))).
Proof.
  refine (proj1 (slow_newcomer_not_stored noFraction worldWithFullBoard (day0 + 60000) Beginner
                   "zoe" (VNum (JInt 500)) (wonGame Beginner "g500" 500 100 day0) (Some 14)
                   fullBoard _ _ _ _ _ _ _ _)).
  - vm_compute. reflexivity.
  - reflexivity.
  - repeat first [apply Sorted_cons | apply Sorted_nil | apply HdRel_cons | apply HdRel_nil];
      vm_compute; reflexivity.
  - repeat first [apply Forall_cons_2 | apply Forall_nil_2]; eexists; reflexivity.
  - eexists. reflexivity.
  - repeat first [apply Forall_cons_2 | apply Forall_nil_2]; vm_compute; reflexivity.
  - vm_compute. reflexivity.
  - vm_compute. reflexivity.
Defined.
